(** * CustomerBrandSync: identifier pipeline and batch upload

    A shallow embedding of the three uploaders of the repository:

    - [Main]     : src/Workspace_customer_data.py
    - [Attached] : src/attached_assets/Workspace_customer_data.py
    - [Csv]      : src/your_python_uploader.py

    Python [str] values are lists of characters with the code points 0
    to 255.  The character classes below are Python's on these code
    points: the white space removed by [strip()], the characters for
    which [isdigit()] holds, and the letters changed by [lower()] and
    [upper()].  The result of [upper()] is a list of code points, since
    three of these characters have upper-case forms that are longer or
    lie above 255. *)

From stdpp Require Import base strings gmap.
From Stdlib Require Import ZArith QArith Qround List Ascii String Lia Lqa Bool Arith DecimalString.
Import ListNotations.

Open Scope Z_scope.
Open Scope list_scope.

(** ** Python string primitives *)

Module Py.

Abbreviation str := (list ascii).

Definition lit (s : string) : str := list_ascii_of_string s.

Definition code (c : ascii) : nat := nat_of_ascii c.

Definition in_range (lo hi : nat) (c : ascii) : bool :=
  (Nat.leb lo (code c)) && (Nat.leb (code c) hi).

(** [c.isspace()], the characters removed by [strip()]: TAB LF VT FF
    CR, FS GS RS US, SPACE, NEXT LINE (133) and NO-BREAK SPACE (160). *)
Definition isspace (c : ascii) : bool :=
  in_range 9 13 c || in_range 28 32 c
  || Nat.eqb (code c) 133 || Nat.eqb (code c) 160.

(** [c.isdigit()]: 0 to 9, and the superscripts two, three (178, 179)
    and one (185). *)
Definition isdigit (c : ascii) : bool :=
  in_range 48 57 c || in_range 178 179 c || Nat.eqb (code c) 185.

(** The letters A to Z and a to z. *)
Definition isupper (c : ascii) : bool := in_range 65 90 c.
Definition islower (c : ascii) : bool := in_range 97 122 c.

(** The characters changed by [lower()]: A to Z, and the accented
    capitals 192 to 214 and 216 to 222; each moves up by 32. *)
Definition has_lower_form (c : ascii) : bool :=
  isupper c || in_range 192 214 c || in_range 216 222 c.

Definition lower_char (c : ascii) : ascii :=
  if has_lower_form c then ascii_of_nat (code c + 32) else c.

(** [s.lower()] *)
Definition lower (s : str) : str := map lower_char s.

(** The code points of [c.upper()]: a to z and the accented small
    letters 224 to 246 and 248 to 254 move down by 32; sharp s (223)
    becomes SS; the micro sign (181) and y with diaeresis (255) become
    the code points 924 and 376. *)
Definition upper_points (c : ascii) : list N :=
  if islower c || in_range 224 246 c || in_range 248 254 c
  then [N.of_nat (code c - 32)]
  else if Nat.eqb (code c) 223 then [83%N; 83%N]
  else if Nat.eqb (code c) 181 then [924%N]
  else if Nat.eqb (code c) 255 then [376%N]
  else [N.of_nat (code c)].

(** [s.upper()], as code points. *)
Definition upper (s : str) : list N := flat_map upper_points s.

(** The one character below 256 whose upper-case form is longer. *)
Definition sharp_s : ascii := ascii_of_nat 223.

(** The code points of a text as it stands. *)
Definition points (s : str) : list N := map (fun c => N.of_nat (code c)) s.

(** The code points of the title-case form of [c]: its upper-case
    form, but Ss for sharp s. *)
Definition title_points (c : ascii) : list N :=
  if Nat.eqb (code c) 223 then [83%N; 115%N] else upper_points c.

(** The cased characters: the letters changed by [lower()] or
    [upper()], and the ordinal indicators 170 and 186. *)
Definition iscased (c : ascii) : bool :=
  isupper c || islower c || Nat.eqb (code c) 170 || Nat.eqb (code c) 181
  || Nat.eqb (code c) 186 || in_range 192 214 c || in_range 216 246 c
  || in_range 248 255 c.

Fixpoint lstrip (s : str) : str :=
  match s with
  | [] => []
  | c :: t => if isspace c then lstrip t else s
  end.

Definition rstrip (s : str) : str := rev (lstrip (rev s)).

(** [s.strip()] *)
Definition strip (s : str) : str := rstrip (lstrip s).

(** [c in s] for a one-character [c]. *)
Definition has_char (c : ascii) (s : str) : bool :=
  existsb (Ascii.eqb c) s.

(** [s.count(c)] for a one-character [c]. *)
Definition count (c : ascii) (s : str) : nat :=
  List.length (filter (Ascii.eqb c) s).

(** [a == b] *)
Fixpoint str_eqb (a b : str) : bool :=
  match a, b with
  | [], [] => true
  | x :: a', y :: b' => Ascii.eqb x y && str_eqb a' b'
  | _, _ => false
  end.

(** [s.startswith(p)] *)
Fixpoint startswith (p s : str) : bool :=
  match p, s with
  | [], _ => true
  | _ :: _, [] => false
  | a :: p', b :: s' => Ascii.eqb a b && startswith p' s'
  end.

(** [p in s] for a string [p]. *)
Fixpoint contains (p s : str) : bool :=
  startswith p s ||
  match s with
  | [] => false
  | _ :: t => contains p t
  end.

(** [s.split(sep)] for a one-character separator. *)
Fixpoint split (sep : ascii) (s : str) : list str :=
  match s with
  | [] => [[]]
  | c :: t =>
      if Ascii.eqb c sep then [] :: split sep t
      else match split sep t with
           | p :: ps => (c :: p) :: ps
           | [] => [[c]]
           end
  end.

(** [s.split(sep)[-1]] *)
Definition last_piece (sep : ascii) (s : str) : str :=
  List.last (split sep s) [].

(** [''.join(c for c in s if c.isdigit())] *)
Definition digits_only (s : str) : str := filter isdigit s.

(** The character of code 34. *)
Definition double_quote : ascii := ascii_of_nat 34.

(** Truth value of a string: non-empty. *)
Definition truthy (s : str) : bool :=
  match s with [] => false | _ :: _ => true end.

(** [x.strip() if x else None] on a nullable column. *)
Definition strip_or_none (x : option str) : option str :=
  match x with
  | Some s => if truthy s then Some (strip s) else None
  | None => None
  end.

(** Truth value of an optional string ([None] and [''] are false). *)
Definition truthy_opt (x : option str) : bool :=
  match x with Some s => truthy s | None => false end.

(** Python slice [l[start:stop]] with the clamping of indices. *)
Definition clamp_index {A} (l : list A) (i : Z) : nat :=
  let n := Z.of_nat (List.length l) in
  if i <? 0 then Z.to_nat (Z.max (i + n) 0) else Z.to_nat (Z.min i n).

Definition slice {A} (l : list A) (start stop : Z) : list A :=
  let a := clamp_index l start in
  let b := clamp_index l stop in
  firstn (b - a)%nat (skipn a l).

(** [range(start, stop, step)] for a non-zero step; the length is
    computed as CPython does. *)
Definition range_length (start stop step : Z) : nat :=
  let '(lo, hi, st) :=
    if 0 <? step then (start, stop, step) else (stop, start, - step) in
  if hi <=? lo then O else Z.to_nat ((hi - lo - 1) / st + 1).

Definition range (start stop step : Z) : list Z :=
  map (fun k => start + Z.of_nat k * step)
      (seq 0 (range_length start stop step)).

End Py.

Import Py.

(** ** Digests

    [hashlib.sha256(s.encode('utf-8')).hexdigest()] is kept symbolic: a
    digest is determined by, and determines, the text that was hashed. *)

Inductive digest : Type :=
| sha256_hex (preimage : str).

Definition digest_preimage (d : digest) : str :=
  match d with sha256_hex s => s end.

(** ** The telephone-number library

    [phonenumbers] is an external package.  Parsing and the validity
    rules depend on its metadata and are parameters of the development;
    a parsed number and its E.164 rendering are modelled directly. *)

Module Phone.

Record PhoneNumber : Type := mkPhoneNumber {
  country_code : N;
  national_number : N;
  number_of_leading_zeros : nat
}.

(** [str(n)] for a non-negative integer. *)
Definition decimal (n : N) : str :=
  lit (DecimalString.NilEmpty.string_of_uint (N.to_uint n)).

(** Modelled from the spec: [phonenumbers.format_number(n, E164)] is
    library code; the glossary gives the E.164 form as [+], the
    country code, then the national number. *)
Definition format_number_E164 (n : PhoneNumber) : str :=
  lit "+" ++ decimal (country_code n)
          ++ repeat "0"%char (number_of_leading_zeros n)
          ++ decimal (national_number n).

(** The library as seen by the callers: [parse text region] is [None]
    when the call raises; [is_valid_number] is the validity test. *)
Record Library : Type := mkLibrary {
  parse : str -> option str -> option PhoneNumber;
  is_valid_number : PhoneNumber -> bool
}.

(** A small stand-in for the library, used to run the model.  A text
    that starts with [+] is read as country code 44 or 1 followed by the
    national number; any other text is read, under a region, as a
    national number of country code 1; without [+] and without region
    the call raises.  Ten-digit national numbers are the valid ones. *)
Fixpoint digits_value (acc : N) (s : str) : N :=
  match s with
  | [] => acc
  | c :: t => digits_value (10 * acc + N.of_nat (code c - 48)) t
  end.

Definition sample_parse (text : str) (region : option str) : option PhoneNumber :=
  let d := digits_only text in
  if startswith (lit "+") text then
    if startswith (lit "44") d
    then Some (mkPhoneNumber 44 (digits_value 0 (skipn 2 d)) 0)
    else if startswith (lit "1") d
    then Some (mkPhoneNumber 1 (digits_value 0 (skipn 1 d)) 0)
    else None
  else
    match region, d with
    | Some _, _ :: _ => Some (mkPhoneNumber 1 (digits_value 0 d) 0)
    | _, _ => None
    end.

Definition sample_is_valid (n : PhoneNumber) : bool :=
  (N.eqb (country_code n) 1 || N.eqb (country_code n) 44)
  && N.leb 1000000000 (national_number n)
  && N.ltb (national_number n) 10000000000.

Definition sample : Library := mkLibrary sample_parse sample_is_valid.

End Phone.

Import Phone.


(** ** src/Workspace_customer_data.py *)

Module Main.

(** One entry of [user_identifiers]: a dict with exactly one of the
    keys [hashed_email], [hashed_phone_number], [address_info]. *)
Inductive Identifier : Type :=
| HashedEmail (h : digest)
| HashedPhoneNumber (h : digest)
| AddressInfo (hashed_first_name hashed_last_name : digest)
              (country_code postal_code : str).

(** One entry of [processed_operations]. *)
Record Operation : Type := mkOperation {
  user_identifiers : list Identifier;
  cust_no : option str;
  contact_guid : str;
  brand : str
}.

(** A row of the stored procedure: eight nullable text columns and an
    optional ninth (brand) column. *)
Record Row : Type := mkRow {
  col_cust_no : option str;
  col_first_name : option str;
  col_last_name : option str;
  col_contact_guid : option str;
  col_email : option str;
  col_phone : option str;
  col_zip : option str;
  col_state : option str;
  col_brand : option (option str)
}.

(** The counters and the output list of [GoogleAdsUploader]. *)
Record Uploader : Type := mkUploader {
  total_rows_processed : nat;
  email_processed_count : nat;
  phone_processed_count : nat;
  address_processed_count : nat;
  rows_with_any_id_count : nat;
  processed_operations : list Operation
}.

(** [__init__] *)
Definition init : Uploader := mkUploader 0 0 0 0 0 [].

Definition default_region : str := lit "US".

Definition problem_chars : list ascii :=
  ["/"; "&"; double_quote; ";"; ":"; "#"; "*"]%char.

(** [str(contact_guid)] *)
Definition str_of (x : option str) : str :=
  match x with Some s => s | None => lit "None" end.

(** "Process email" *)
Definition hashed_email (email_raw : option str) : option digest :=
  match email_raw with
  | Some e =>
      if truthy e && has_char "@" e && has_char "." e then
        let normalized_email := strip (lower e) in
        if (6 <=? List.length normalized_email)%nat
           && (count "@" normalized_email =? 1)%nat
        then Some (sha256_hex normalized_email)
        else None
      else None
  | None => None
  end.

(** "Process phone number" *)
Definition parse_phone (lib : Library) (clean_phone : str) : option PhoneNumber :=
  match parse lib clean_phone (Some default_region) with
  | Some n => Some n
  | None =>
      if startswith (lit "1") clean_phone
         && (10 <? List.length clean_phone)%nat
      then parse lib (lit "+" ++ clean_phone) None
      else None
  end.

Definition hashed_phone (lib : Library) (phone_raw : option str) : option digest :=
  match phone_raw with
  | Some p =>
      if truthy p && (10 <=? List.length p)%nat then
        let clean_phone := digits_only p in
        if truthy clean_phone then
          match parse_phone lib clean_phone with
          | Some phone_obj =>
              if is_valid_number lib phone_obj
              then Some (sha256_hex (format_number_E164 phone_obj))
              else None
          | None => None
          end
        else None
      else None
  | None => None
  end.

(** "Process name and address for improved matching":
    hashed first name, hashed last name, [has_valid_name],
    [skip_name_for_address]. *)
Definition hashed_names (first_name_raw last_name_raw : option str)
  : option digest * option digest * bool * bool :=
  match first_name_raw, last_name_raw with
  | Some f, Some l =>
      if truthy f && truthy l then
        let first_name := strip (lower f) in
        let last_name := strip (lower l) in
        let has_problem_chars :=
          existsb (fun c => has_char c (first_name ++ last_name)) problem_chars in
        if negb has_problem_chars
           && (2 <=? List.length first_name)%nat
           && (2 <=? List.length last_name)%nat
        then (Some (sha256_hex first_name), Some (sha256_hex last_name), true, false)
        else (None, None, false, true)
      else (None, None, false, false)
  | _, _ => (None, None, false, false)
  end.

(** "Process US address components (zip code and state)":
    [country_code_to_use], [postal_code_to_use]. *)
Definition us_address (zip_code_raw : option str) : option str * option str :=
  match zip_code_raw with
  | Some z =>
      if truthy z && (5 <=? List.length z)%nat then
        let clean_zip := slice (digits_only z) 0 5 in
        if (List.length clean_zip =? 5)%nat
        then (Some (lit "US"), Some clean_zip)
        else (Some (lit "US"), None)
      else (None, None)
  | None => (None, None)
  end.

(** "Add address identifier if all components are available" *)
Definition address_identifier
    (country postal : option str) (hf hl : option digest) (skip : bool)
  : list Identifier :=
  match country, postal, hf, hl with
  | Some c, Some p, Some f, Some l =>
      if truthy c && truthy p && negb skip then [AddressInfo f l c p] else []
  | _, _, _, _ => []
  end.

Definition opt_list {A B} (f : A -> B) (x : option A) : list B :=
  match x with Some a => [f a] | None => [] end.

Definition b2n (b : bool) : nat := if b then 1%nat else 0%nat.

Definition is_some {A} (x : option A) : bool :=
  match x with Some _ => true | None => false end.

(** The brand test at the top of [_process_customer_row]:
    [self.brand and self.brand != "default" and brand_raw and
     brand_raw != self.brand]. *)
Definition brand_mismatch (self_brand brand_raw : option str) : bool :=
  match self_brand, brand_raw with
  | Some b, Some r =>
      truthy b && negb (str_eqb b (lit "default"))
      && truthy r && negb (str_eqb r b)
  | _, _ => false
  end.

(** [_process_customer_row] *)
Definition process_customer_row
    (lib : Library) (self_brand : option str) (st : Uploader) (row : Row)
  : Uploader :=
  let cust_no := strip_or_none (col_cust_no row) in
  let first_name_raw := strip_or_none (col_first_name row) in
  let last_name_raw := strip_or_none (col_last_name row) in
  let contact_guid := col_contact_guid row in
  let email_raw := strip_or_none (col_email row) in
  let phone_raw := strip_or_none (col_phone row) in
  let zip_code_raw := strip_or_none (col_zip row) in
  let brand_raw :=
    match col_brand row with
    | Some (Some b) => if truthy b then Some (lower (strip b)) else None
    | _ => None
    end in
  if brand_mismatch self_brand brand_raw then st
  else
    let he := hashed_email email_raw in
    let hp := hashed_phone lib phone_raw in
    let '(hf, hl, has_valid_name, skip_name_for_address) :=
      hashed_names first_name_raw last_name_raw in
    let '(country_code_to_use, postal_code_to_use) := us_address zip_code_raw in
    let address_counted :=
      is_some postal_code_to_use && has_valid_name && negb skip_name_for_address in
    let ids :=
      opt_list HashedEmail he ++ opt_list HashedPhoneNumber hp
      ++ address_identifier country_code_to_use postal_code_to_use
                            hf hl skip_name_for_address in
    let any_id := match ids with [] => false | _ :: _ => true end in
    let brand_info :=
      if truthy_opt brand_raw then str_of brand_raw else lit "unspecified" in
    mkUploader
      (total_rows_processed st)
      (email_processed_count st + b2n (is_some he))
      (phone_processed_count st + b2n (is_some hp))
      (address_processed_count st + b2n address_counted)
      (rows_with_any_id_count st + b2n any_id)
      (if any_id
       then processed_operations st
            ++ [mkOperation ids cust_no (str_of contact_guid) brand_info]
       else processed_operations st).

Definition count_row (st : Uploader) : Uploader :=
  mkUploader (S (total_rows_processed st)) (email_processed_count st)
             (phone_processed_count st) (address_processed_count st)
             (rows_with_any_id_count st) (processed_operations st).

(** The body of [for row in customer_data_batch]. *)
Definition process_page
    (lib : Library) (self_brand : option str) (st : Uploader) (page : list Row)
  : Uploader :=
  fold_left (fun s row => process_customer_row lib self_brand (count_row s) row)
            page st.

(** The [while True] loop of [fetch_and_process_customer_data]: the
    cursor hands out pages until an empty one. *)
Fixpoint fetch_and_process_customer_data
    (lib : Library) (self_brand : option str) (st : Uploader)
    (pages : list (list Row)) : Uploader :=
  match pages with
  | [] => st
  | [] :: _ => st
  | page :: rest =>
      fetch_and_process_customer_data lib self_brand
        (process_page lib self_brand st page) rest
  end.

(** *** Upload *)

Inductive Reply : Type :=
| Returns
| Raises (message : str).

(** The remote service behind the client library: how each call ends.
    [add_operations_reply] tells how an attempt to add a batch ends, by
    batch number and attempt: it returns, or it raises, in the client
    library or in the service, with the text of the exception. *)
Record Service : Type := mkService {
  get_service_reply : Reply;
  create_job_reply : Reply;
  add_operations_reply : nat -> nat -> Reply;
  run_job_reply : Reply
}.

Record Config : Type := mkConfig {
  API_BATCH_SIZE : Z;
  API_RETRY_COUNT : Z
}.

Definition default_config : Config := mkConfig 2500 3.

(** What the uploader does with the service, in order: it creates the
    job, makes attempts to add a batch, and asks for the run.  An
    attempt is the body of the [try]: it builds the request from the
    batch and calls [add_operations]; when the attempt raises, the
    request may not have reached the service. *)
Inductive Event : Type :=
| CreateJob
| AddOperations (batch_num attempt : nat) (operations : list (list Identifier))
| RunJob.

Definition batches_count (operations_count batch_size : Z) : Z :=
  (operations_count + batch_size - 1) / batch_size.

Definition current_batch {A} (ops : list A) (batch_size : Z) (batch_num : nat)
  : list A :=
  let start_idx := Z.of_nat batch_num * batch_size in
  let end_idx := Z.min (start_idx + batch_size) (Z.of_nat (List.length ops)) in
  slice ops start_idx end_idx.

(** The batches in the order of [for batch_num in range(batches_count)]. *)
Definition batches {A} (ops : list A) (batch_size : Z) : list (list A) :=
  map (current_batch ops batch_size)
      (seq 0 (Z.to_nat (batches_count (Z.of_nat (List.length ops)) batch_size))).

Definition is_concurrent_modification (error_message : str) : bool :=
  contains (lit "ConcurrentModificationException") error_message.

(** [for attempt in range(API_RETRY_COUNT)]: the success flag and the
    attempts made. *)
Fixpoint add_with_retries (reply : nat -> Reply) (attempt remaining : nat)
  : bool * list nat :=
  match remaining with
  | O => (false, [])
  | S r =>
      match reply attempt with
      | Returns => (true, [attempt])
      | Raises error_message =>
          if is_concurrent_modification error_message
          then let '(ok, made) := add_with_retries reply (S attempt) r in
               (ok, attempt :: made)
          else (false, [attempt])
      end
  end.

Definition upload_batch
    (cfg : Config) (svc : Service) (batch_num : nat) (batch : list Operation)
  : bool * list Event :=
  let operations := map user_identifiers batch in
  let '(ok, made) :=
    add_with_retries (add_operations_reply svc batch_num) 0
                     (Z.to_nat (API_RETRY_COUNT cfg)) in
  (ok, map (fun attempt => AddOperations batch_num attempt operations) made).

Fixpoint upload_batches
    (cfg : Config) (svc : Service) (batch_num : nat) (bs : list (list Operation))
  : list (bool * list Event) :=
  match bs with
  | [] => []
  | b :: rest =>
      upload_batch cfg svc batch_num b :: upload_batches cfg svc (S batch_num) rest
  end.

(** [upload_to_google_ads]: the returned flag and the calls made.
    A zero batch size raises [ZeroDivisionError] inside the [try]. *)
Definition upload_to_google_ads
    (client_ok : bool) (cfg : Config) (svc : Service) (st : Uploader)
  : bool * list Event :=
  if negb client_ok then (false, [])
  else match processed_operations st with
  | [] => (true, [])
  | _ :: _ =>
    match get_service_reply svc with
    | Raises _ => (false, [])
    | Returns =>
      match create_job_reply svc with
      | Raises _ => (false, [CreateJob])
      | Returns =>
        if API_BATCH_SIZE cfg =? 0 then (false, [CreateJob])
        else
          let done :=
            upload_batches cfg svc 0
              (batches (processed_operations st) (API_BATCH_SIZE cfg)) in
          let calls := CreateJob :: List.concat (map snd done) ++ [RunJob] in
          match run_job_reply svc with
          | Raises _ => (false, calls)
          | Returns => (true, calls)
          end
      end
    end
  end.

(** Batches whose [success] flag ended up true. *)
Definition successful_batches
    (cfg : Config) (svc : Service) (st : Uploader) : nat :=
  List.length
    (filter fst (upload_batches cfg svc 0
                   (batches (processed_operations st) (API_BATCH_SIZE cfg)))).

(** *** Job monitoring *)

(** What [get_offline_user_data_job] answers: the number held by
    [job.status], or an exception.  The code compares the number with 5
    and with 4 and 6; the enumeration that names the numbers belongs to
    the client library. *)
Inductive Poll : Type :=
| Status (status : Z)
| PollRaises.

(** The log lines of [wait_for_job_completion]. *)
Inductive LogLine : Type :=
| ErrorClientNotInitialized
| InfoMonitoring
| InfoCurrentStatus (status : Z)
| InfoCompleted
| ErrorJobFailed (status : Z)
| WarningTimedOut (timeout_seconds : Q)
| ExceptionMonitoring.

Inductive Level : Type := INFO | WARNING | ERROR.

Definition level (l : LogLine) : Level :=
  match l with
  | ErrorClientNotInitialized | ErrorJobFailed _ | ExceptionMonitoring => ERROR
  | WarningTimedOut _ => WARNING
  | InfoMonitoring | InfoCurrentStatus _ | InfoCompleted => INFO
  end.

(** The surroundings of the monitor: whether [get_service] returns;
    [polls k], the answer to the [k]-th status request; and [elapsed k],
    the number computed by [time.time() - start_time] at the [k]-th test
    of the loop condition.  That number is a float, hence a rational;
    its comparison with the timeout is exact. *)
Record JobService : Type := mkJobService {
  get_service_returns : bool;
  polls : nat -> Poll;
  elapsed : nat -> Q
}.

(** The [while time.time() - start_time < timeout_seconds] loop, from
    its [k]-th test on. *)
Fixpoint wait_loop
    (fuel : nat) (svc : JobService) (k : nat)
    (timeout_seconds : Q) (log : list LogLine)
  : option (bool * list LogLine) :=
  match fuel with
  | O => None
  | S fuel' =>
      if Qlt_le_dec (elapsed svc k) timeout_seconds then
        match polls svc k with
        | PollRaises => Some (false, log ++ [ExceptionMonitoring])
        | Status status =>
            let log' := log ++ [InfoCurrentStatus status] in
            if status =? 5 then Some (true, log' ++ [InfoCompleted])
            else if (status =? 4) || (status =? 6)
            then Some (false, log' ++ [ErrorJobFailed status])
            else wait_loop fuel' svc (S k) timeout_seconds log'
        end
      else Some (false, log ++ [WarningTimedOut timeout_seconds])
  end.

(** Tests of the loop condition that suffice when each [time.sleep(10)]
    is measured as ten seconds or more: one per ten seconds of the
    timeout, and the one that sees it elapsed. *)
Definition enough_fuel (timeout_seconds : Q) : nat :=
  S (Z.to_nat (Qceiling (timeout_seconds / 10))).

Definition default_timeout : Q := 300%Q.

(** [wait_for_job_completion] *)
Definition wait_for_job_completion
    (fuel : nat) (client_ok : bool) (svc : JobService) (timeout_seconds : Q)
  : option (bool * list LogLine) :=
  if negb client_ok then Some (false, [ErrorClientNotInitialized])
  else if negb (get_service_returns svc)
  then Some (false, [InfoMonitoring; ExceptionMonitoring])
  else wait_loop fuel svc 0 timeout_seconds [InfoMonitoring].

End Main.

(** ** src/attached_assets/Workspace_customer_data.py *)

Module Attached.

(** A [UserIdentifier] message with one of its fields set. *)
Inductive UserIdentifier : Type :=
| HashedEmail (h : digest)
| HashedPhoneNumber (h : digest)
| AddressInfo (hashed_first_name hashed_last_name : digest)
              (country_code postal_code : str).

(** An [OfflineUserDataJobOperation]: [create.user_identifiers]. *)
Record Operation : Type := mkOperation {
  user_identifiers : list UserIdentifier
}.

Record Row : Type := mkRow {
  col_cust_no : option str;
  col_first_name : option str;
  col_last_name : option str;
  col_contact_guid : option str;
  col_email : option str;
  col_phone : option str;
  col_zip : option str;
  col_state : option str
}.

Record Uploader : Type := mkUploader {
  googleads_client : bool;
  total_rows_processed : nat;
  email_processed_count : nat;
  phone_processed_count : nat;
  address_processed_count : nat;
  rows_with_any_id_count : nat;
  processed_operations : list Operation
}.

(** [__init__], then the outcome of [initialize_google_ads_client]. *)
Definition init (client_ok : bool) : Uploader :=
  mkUploader client_ok 0 0 0 0 0 [].

Definition default_region : str := lit "US".

Definition problem_chars : list ascii :=
  ["/"; "&"; double_quote; ";"; ":"; "#"; "*"]%char.

(** [_process_email] *)
Definition process_email (email_raw : option str) : option digest :=
  match email_raw with
  | Some e =>
      if negb (truthy e) then None
      else
        let email_norm := strip (lower e) in
        if has_char "@" email_norm && has_char "." (last_piece "@" email_norm)
        then Some (sha256_hex email_norm)
        else None
  | None => None
  end.

(** [_process_phone] *)
Definition process_phone (lib : Library) (phone_raw : option str) : option digest :=
  match phone_raw with
  | Some p =>
      if negb (truthy p) then None
      else
        let digits := digits_only p in
        if (7 <=? List.length digits)%nat then
          match parse lib p (Some default_region) with
          | Some phone_parsed =>
              if is_valid_number lib phone_parsed then
                let phone_e164 := format_number_E164 phone_parsed in
                if truthy phone_e164 && startswith (lit "+") phone_e164
                then Some (sha256_hex phone_e164)
                else None
              else None
          | None => None
          end
        else None
  | None => None
  end.

(** [_process_name] *)
Definition process_name (name_raw : str) : option digest * bool :=
  let name_norm := strip (lower name_raw) in
  if existsb (fun c => has_char c name_norm) problem_chars
     || (List.length name_norm =? 0)%nat
  then (None, false)
  else (Some (sha256_hex name_norm), true).

(** "Process name fields": the two hashes and [skip_name_for_address]. *)
Definition process_names (first_name_raw last_name_raw : option str)
  : option digest * option digest * bool :=
  match first_name_raw, last_name_raw with
  | Some f, Some l =>
      if negb (truthy f) || negb (truthy l) then (None, None, true)
      else
        let '(hf, valid_f) := process_name f in
        let '(hl, valid_l) := process_name l in
        (hf, hl, negb valid_f || negb valid_l)
  | _, _ => (None, None, true)
  end.

(** "Process location data" *)
Definition country_code_to_use (state_code_raw : option str) : option str :=
  match state_code_raw with
  | Some s =>
      if truthy s then
        let state_processed := upper (strip s) in
        if (List.length state_processed =? 2)%nat then Some (lit "US") else None
      else None
  | None => None
  end.

Definition postal_code_to_use (zip_code_raw : option str) : option str :=
  match zip_code_raw with
  | Some z =>
      if truthy z then
        let zip_processed := digits_only z in
        if (5 <=? List.length zip_processed)%nat
        then Some (slice zip_processed 0 5)
        else None
      else None
  | None => None
  end.

Definition opt_list {A B} (f : A -> B) (x : option A) : list B :=
  match x with Some a => [f a] | None => [] end.

Definition b2n (b : bool) : nat := if b then 1%nat else 0%nat.

Definition is_some {A} (x : option A) : bool :=
  match x with Some _ => true | None => false end.

(** "Add address identifier if all components are valid" *)
Definition address_identifier
    (skip : bool) (hf hl : option digest) (country postal : option str)
  : list UserIdentifier :=
  match hf, hl, country, postal with
  | Some f, Some l, Some c, Some p =>
      if negb skip && truthy c && truthy p then [AddressInfo f l c p] else []
  | _, _, _, _ => []
  end.

(** The identifier list built by [_create_google_ads_operation]. *)
Definition build_identifiers
    (he hp hf hl : option digest) (country postal : option str) (skip : bool)
  : list UserIdentifier :=
  opt_list HashedEmail he ++ opt_list HashedPhoneNumber hp
  ++ address_identifier skip hf hl country postal.

(** What the client library does while [_create_google_ads_operation]
    builds the messages of one row ([get_type], the field assignments,
    [extend], [operation.create = user_data]): every call returns, or
    one raises while the identifiers are built, before a counter of the
    method has moved, or one raises while the operation is built, after
    the counters have moved and before the append.  The exception is
    caught in [_process_customer_row], which logs it and goes on. *)
Inductive ClientCalls : Type :=
| CallsReturn
| RaisesInIdentifiers
| RaisesInOperation.

(** The client library's behaviour, by row number. *)
Abbreviation Client := (nat -> ClientCalls).

Definition always_returns : Client := fun _ => CallsReturn.

(** [_process_customer_row] followed by [_create_google_ads_operation];
    the e-mail and phone counters move in [_process_email] and
    [_process_phone], before the client test.  No client call is made
    for a row without identifiers. *)
Definition process_customer_row
    (lib : Library) (client : Client) (st : Uploader) (row : Row)
  : Uploader :=
  let first_name_raw := strip_or_none (col_first_name row) in
  let last_name_raw := strip_or_none (col_last_name row) in
  let email_raw := strip_or_none (col_email row) in
  let phone_raw := strip_or_none (col_phone row) in
  let zip_code_raw := strip_or_none (col_zip row) in
  let state_code_raw := strip_or_none (col_state row) in
  let he := process_email email_raw in
  let hp := process_phone lib phone_raw in
  let '(hf, hl, skip_name_for_address) :=
    process_names first_name_raw last_name_raw in
  let country := country_code_to_use state_code_raw in
  let postal := postal_code_to_use zip_code_raw in
  let emails := (email_processed_count st + b2n (is_some he))%nat in
  let phones := (phone_processed_count st + b2n (is_some hp))%nat in
  let unchanged :=
    mkUploader (googleads_client st) (total_rows_processed st) emails phones
               (address_processed_count st) (rows_with_any_id_count st)
               (processed_operations st) in
  if negb (googleads_client st) then unchanged
  else
    let addr := address_identifier skip_name_for_address hf hl country postal in
    let ids := build_identifiers he hp hf hl country postal skip_name_for_address in
    match ids with
    | [] => unchanged
    | _ :: _ =>
        match client (total_rows_processed st) with
        | RaisesInIdentifiers => unchanged
        | RaisesInOperation =>
            mkUploader (googleads_client st) (total_rows_processed st)
                       emails phones
                       (address_processed_count st + List.length addr)
                       (S (rows_with_any_id_count st))
                       (processed_operations st)
        | CallsReturn =>
            mkUploader (googleads_client st) (total_rows_processed st)
                       emails phones
                       (address_processed_count st + List.length addr)
                       (S (rows_with_any_id_count st))
                       (processed_operations st ++ [mkOperation ids])
        end
    end.

(** [self.total_rows_processed += 1] *)
Definition count_row (st : Uploader) : Uploader :=
  mkUploader (googleads_client st) (S (total_rows_processed st))
             (email_processed_count st) (phone_processed_count st)
             (address_processed_count st) (rows_with_any_id_count st)
             (processed_operations st).

Definition process_page
    (lib : Library) (client : Client) (st : Uploader) (page : list Row)
  : Uploader :=
  fold_left (fun s row => process_customer_row lib client (count_row s) row)
            page st.

Fixpoint fetch_and_process_customer_data
    (lib : Library) (client : Client) (st : Uploader) (pages : list (list Row))
  : Uploader :=
  match pages with
  | [] => st
  | [] :: _ => st
  | page :: rest =>
      fetch_and_process_customer_data lib client
        (process_page lib client st page) rest
  end.

(** *** Upload *)

(** What [add_offline_user_data_job_operations] (with the code around
    it in the [try]) does on one attempt. *)
Inductive AddReply : Type :=
| Accepted (partial_failure : bool)
| GoogleAdsException (failure : str)
| OtherException.

Inductive Reply : Type :=
| Returns
| Raises.

Record Service : Type := mkService {
  create_job_reply : Reply;
  add_operations_reply : nat -> nat -> AddReply;
  run_job_reply : Reply
}.

Record Config : Type := mkConfig {
  API_BATCH_SIZE : Z;
  API_RETRY_COUNT : Z
}.

Definition default_config : Config := mkConfig 2500 3.

(** What the uploader does with the service, in order; an
    [AddOperations] entry is one attempt on a batch. *)
Inductive Event : Type :=
| CreateJob
| AddOperations (batch_index retry : nat) (operations : list Operation)
| RunJob.

(** [[ops[i:i + n] for i in range(0, len(ops), n)]] *)
Definition operation_batches {A} (ops : list A) (api_batch_size : Z)
  : list (list A) :=
  map (fun i => slice ops i (i + api_batch_size))
      (range 0 (Z.of_nat (List.length ops)) api_batch_size).

Definition is_concurrent_modification (error_msg : str) : bool :=
  contains (lit "CONCURRENT_MODIFICATION") error_msg.

(** [_upload_batch_with_retry]: the returned flag and the attempts
    made, for [retry] running through [range(max_retries + 1)]. *)
Fixpoint upload_batch_with_retry
    (reply : nat -> AddReply) (max_retries : Z) (retry remaining : nat)
  : bool * list nat :=
  match remaining with
  | O => (false, [])
  | S r =>
      match reply retry with
      | Accepted _ => (true, [retry])
      | GoogleAdsException failure =>
          if is_concurrent_modification failure && (Z.of_nat retry <? max_retries)
          then let '(ok, made) := upload_batch_with_retry reply max_retries (S retry) r in
               (ok, retry :: made)
          else (false, [retry])
      | OtherException =>
          if Z.of_nat retry <? max_retries
          then let '(ok, made) := upload_batch_with_retry reply max_retries (S retry) r in
               (ok, retry :: made)
          else (false, [retry])
      end
  end.

Definition upload_batch
    (cfg : Config) (svc : Service) (batch_index : nat) (batch : list Operation)
  : bool * list Event :=
  let max_retries := API_RETRY_COUNT cfg in
  let '(ok, made) :=
    upload_batch_with_retry (add_operations_reply svc batch_index) max_retries
                            0 (Z.to_nat (max_retries + 1)) in
  (ok, map (fun retry => AddOperations batch_index retry batch) made).

Fixpoint upload_batches
    (cfg : Config) (svc : Service) (i : nat) (bs : list (list Operation))
  : list (bool * list Event) :=
  match bs with
  | [] => []
  | b :: rest => upload_batch cfg svc i b :: upload_batches cfg svc (S i) rest
  end.

(** [batch_success_count] after the loop. *)
Definition batch_success_count
    (cfg : Config) (svc : Service) (st : Uploader) : nat :=
  List.length
    (filter fst (upload_batches cfg svc 0
                   (operation_batches (processed_operations st)
                                      (API_BATCH_SIZE cfg)))).

(** [upload_to_google_ads]; a zero step makes [range] raise
    [ValueError] inside the [try]. *)
Definition upload_to_google_ads
    (cfg : Config) (svc : Service) (st : Uploader) : bool * list Event :=
  match processed_operations st with
  | [] => (true, [])
  | _ :: _ =>
    if negb (googleads_client st) then (false, [])
    else
      match create_job_reply svc with
      | Raises => (false, [CreateJob])
      | Returns =>
        if API_BATCH_SIZE cfg =? 0 then (false, [CreateJob])
        else
          let done :=
            upload_batches cfg svc 0
              (operation_batches (processed_operations st) (API_BATCH_SIZE cfg)) in
          let calls := CreateJob :: List.concat (map snd done) ++ [RunJob] in
          match run_job_reply svc with
          | Raises => (false, calls)
          | Returns => ((0 <? batch_success_count cfg svc st)%nat, calls)
          end
      end
  end.

End Attached.

(** ** src/your_python_uploader.py *)

Module Csv.

(** A row of [csv.DictReader]: column name to text. *)
Abbreviation Customer := (gmap string str).

(** The [address_info] message; unset text fields are empty.  The
    country code is upper-cased text, held as its code points. *)
Record AddressInfo : Type := mkAddressInfo {
  hashed_first_name : option digest;
  hashed_last_name : option digest;
  country_code : list N;
  postal_code : str
}.

Inductive UserIdentifier : Type :=
| HashedEmail (h : option digest)
| HashedPhoneNumber (h : option digest)
| Address (address_info : AddressInfo).

(** A [UserDataOperation]: [create.user_identifiers]. *)
Record Operation : Type := mkOperation {
  user_identifiers : list UserIdentifier
}.

(** [hash_data]; the empty result is [None]. *)
Definition hash_data (data : str) : option digest :=
  if negb (truthy data) then None
  else Some (sha256_hex (lower (strip data))).

(** [customer.get(field)] as a truth value. *)
Definition present (customer : Customer) (field : string) : bool :=
  truthy_opt (customer !! field).

(** [customer[field]] where [customer.get(field)] is true. *)
Definition field_of (customer : Customer) (field : string) : str :=
  default [] (customer !! field).

Definition email_identifier (customer : Customer) : list UserIdentifier :=
  if present customer "email"
  then [HashedEmail (hash_data (field_of customer "email"))] else [].

Definition phone_identifier (customer : Customer) : list UserIdentifier :=
  if present customer "phone"
  then [HashedPhoneNumber (hash_data (field_of customer "phone"))] else [].

Definition address_identifier (customer : Customer) : list UserIdentifier :=
  if existsb (present customer) ["first_name"; "last_name"; "country"; "zip"]%string
  then
    [Address
       (mkAddressInfo
          (if present customer "first_name"
           then hash_data (field_of customer "first_name") else None)
          (if present customer "last_name"
           then hash_data (field_of customer "last_name") else None)
          (if present customer "country"
           then upper (field_of customer "country") else [])
          (if present customer "zip" then field_of customer "zip" else []))]
  else [].

(** The body of [for customer in customers]. *)
Definition create_operation (customer : Customer) : Operation :=
  mkOperation (email_identifier customer ++ phone_identifier customer
               ++ address_identifier customer).

(** [create_user_data_operations] *)
Definition create_user_data_operations (customers : list Customer)
  : list Operation :=
  map create_operation customers.

End Csv.


(** ** More Python primitives *)

Module PyMore.

(** [l[i]] with a possibly negative index; [None] is [IndexError]. *)
Definition item {A} (l : list A) (i : Z) : option A :=
  let n := Z.of_nat (List.length l) in
  let j := if i <? 0 then i + n else i in
  if (j <? 0) || (n <=? j) then None else nth_error l (Z.to_nat j).

(** [sep.join(pieces)] *)
Fixpoint join (sep : str) (pieces : list str) : str :=
  match pieces with
  | [] => []
  | [p] => p
  | p :: rest => p ++ sep ++ join sep rest
  end.

(** [s.title()], as code points: a character takes its title-case form
    when the character before it is not cased, and its lower-case form
    otherwise. *)
Fixpoint title_from (previous_is_cased : bool) (s : str) : list N :=
  match s with
  | [] => []
  | c :: t =>
      (if previous_is_cased then [N.of_nat (code (lower_char c))]
       else title_points c)
      ++ title_from (iscased c) t
  end.

Definition title (s : str) : list N := title_from false s.

End PyMore.

Import PyMore.

(** ** src/Workspace_customer_data.py: configuration and the whole run *)

Module MainSetup.

(** One entry of [config["BRANDS"]]; the description is held as code
    points, since [title()] can leave the range of [str]. *)
Record BrandConfig : Type := mkBrandConfig {
  USER_LIST_ID : str;
  DESCRIPTION : list N
}.

(** [load_config], the loop over [os.environ]: the brand named by an
    environment key, if the key is taken as a brand setting. *)
Definition brand_of_env_key (env_key : str) : option str :=
  let parts := split "_" env_key in
  if (3 <=? List.length parts)%nat
     && match item parts (-2), item parts (-1) with
        | Some a, Some b => str_eqb a (lit "USER") && str_eqb b (lit "LIST")
        | _, _ => false
        end
  then
    let brand_name := lower (join (lit "_") (slice parts 0 (-2))) in
    if truthy brand_name && negb (str_eqb brand_name (lit "default"))
    then Some brand_name
    else None
  else None.

(** The body of that loop for one variable. *)
Definition apply_brand_variable
    (brands : gmap (list ascii) BrandConfig) (variable : str * str)
  : gmap (list ascii) BrandConfig :=
  match brand_of_env_key (fst variable) with
  | Some brand_name =>
      match brands !! brand_name with
      | None =>
          <[brand_name :=
              mkBrandConfig (snd variable)
                            (title brand_name
                             ++ points (lit " Brand Customer List"))]> brands
      | Some entry =>
          <[brand_name := mkBrandConfig (snd variable) (DESCRIPTION entry)]> brands
      end
  | None => brands
  end.

Definition load_brand_variables
    (brands : gmap (list ascii) BrandConfig) (environ : list (str * str))
  : gmap (list ascii) BrandConfig :=
  fold_left apply_brand_variable environ brands.

(** What [__init__] settles about the brand. *)
Record BrandChoice : Type := mkBrandChoice {
  self_brand : option str;
  user_list_id : str
}.

(** [__init__], "Brand-specific configuration" and "Set user list ID
    based on brand". *)
Definition choose_brand
    (brands : gmap (list ascii) BrandConfig) (DEFAULT_USER_LIST_ID : str)
    (brand : option str) : BrandChoice :=
  match brand with
  | Some b =>
      if truthy b then
        match brands !! b with
        | Some entry => mkBrandChoice (Some b) (USER_LIST_ID entry)
        | None => mkBrandChoice (Some (lit "default")) DEFAULT_USER_LIST_ID
        end
      else mkBrandChoice (Some b) DEFAULT_USER_LIST_ID
  | None => mkBrandChoice None DEFAULT_USER_LIST_ID
  end.

(** [run_upload_process]: the two connections, the fetch and the
    upload, each ending the run when it fails.  The cursor is taken not
    to raise. *)
Definition run_upload_process
    (db_ok client_ok : bool) (lib : Library) (brand : option str)
    (cfg : Main.Config) (svc : Main.Service) (pages : list (list Main.Row))
  : bool * list Main.Event :=
  if negb db_ok then (false, [])
  else if negb client_ok then (false, [])
  else
    Main.upload_to_google_ads true cfg svc
      (Main.fetch_and_process_customer_data lib brand Main.init pages).

End MainSetup.

(** ** src/your_python_uploader.py: the upload *)

Module CsvUpload.

(** The client library, as far as the method depends on it:
    [builds_job] tells whether [get_service] and the construction of
    the job message return; [builds_request batch] tells whether the
    request for a batch can be built, that is, whether [get_type] and
    the assignments to the request, [request.operations = batch] among
    them, return for these messages. *)
Record Client : Type := mkClient {
  builds_job : bool;
  builds_request : list Csv.Operation -> bool
}.

(** What [add_offline_user_data_job_operations] answers for a batch. *)
Inductive AddReply : Type :=
| Added (partial_failure_error : bool)
| AddRaises.

Record Service : Type := mkService {
  create_job_ok : bool;
  add_reply : nat -> AddReply;
  run_job_ok : bool
}.

(** The calls made on the service, in order. *)
Inductive Event : Type :=
| CreateJob
| AddOperations (batch_num : Z) (batch : list Csv.Operation)
| RunJob.

Definition batch_size : Z := 10000.

(** The values of [i] in [for i in range(0, total_operations,
    batch_size)], each with its slice. *)
Definition batches {A} (operations : list A) : list (Z * list A) :=
  map (fun i => (i / batch_size + 1, slice operations i (i + batch_size)))
      (range 0 (Z.of_nat (List.length operations)) batch_size).

(** The loop: the first batch whose request cannot be built, or whose
    call raises, ends it. *)
Fixpoint add_batches
    (client : Client) (svc : Service) (k : nat)
    (bs : list (Z * list Csv.Operation))
  : bool * list Event :=
  match bs with
  | [] => (true, [])
  | (batch_num, batch) :: rest =>
      if negb (builds_request client batch) then (false, [])
      else
        match add_reply svc k with
        | Added _ =>
            let '(ok, calls) := add_batches client svc (S k) rest in
            (ok, AddOperations batch_num batch :: calls)
        | AddRaises => (false, [AddOperations batch_num batch])
        end
  end.

(** [upload_to_audience_list]: every exception ends in [return False]. *)
Definition upload_to_audience_list
    (client : Client) (svc : Service) (operations : list Csv.Operation)
  : bool * list Event :=
  if negb (builds_job client) then (false, [])
  else if negb (create_job_ok svc) then (false, [CreateJob])
  else
    let '(ok, calls) := add_batches client svc 0 (batches operations) in
    if negb ok then (false, CreateJob :: calls)
    else (run_job_ok svc, CreateJob :: calls ++ [RunJob]).

End CsvUpload.

(** ** Reference definitions

    Definitions that follow the wording of the specification; the
    properties below compare them with the code. *)

Module Spec.

(** "trim, lowercase" *)
Definition normalized (raw : str) : str := strip (lower raw).

(** Spec 4.1, Email: "Valid only if it contains exactly one [@] and the
    result is at least 6 characters with a [.] in the domain portion". *)
Definition email_rule (raw : str) : bool :=
  let n := normalized raw in
  (count "@" n =? 1)%nat && (6 <=? List.length n)%nat
  && has_char "." (last_piece "@" n).

(** Spec 4.1, Name: rejected "if the value contains any of a fixed
    blacklist of problematic characters or if length < 2". *)
Definition blacklist : list ascii :=
  ["/"; "&"; double_quote; ";"; ":"; "#"; "*"]%char.

Definition name_rule (raw : str) : bool :=
  let n := normalized raw in
  negb (existsb (fun c => has_char c n) blacklist) && (2 <=? List.length n)%nat.

(** Spec 4.1, Postal/country: a state code "only if it is exactly two
    letters". *)
Definition isalpha (c : ascii) : bool := isupper c || islower c.

Definition state_rule (raw : str) : bool :=
  let s := strip raw in
  (List.length s =? 2)%nat && forallb isalpha s.

(** "accept a postal code only if, after stripping non-digits, at least
    5 digits remain (truncate to first 5)". *)
Definition postal_rule (raw : str) : option str :=
  let d := digits_only raw in
  if (5 <=? List.length d)%nat then Some (firstn 5 d) else None.

(** Spec 4.1, Phone: "strip all non-digit characters.  Parse ... using a
    default region (US) with fallback to an explicit +-prefixed
    international parse attempt when the digit string looks
    internationally formatted (leading 1 with length > 10)". *)
Definition phone_parse (lib : Library) (raw : str) : option PhoneNumber :=
  let d := digits_only raw in
  match parse lib d (Some (lit "US")) with
  | Some n => Some n
  | None =>
      if startswith (lit "1") d && (10 <? List.length d)%nat
      then parse lib (lit "+" ++ d) None
      else None
  end.

End Spec.


(** ** Views of one row

    The identifier list that [_process_customer_row] builds for a row,
    named so that properties can speak about it. *)

Definition main_brand_raw (row : Main.Row) : option str :=
  match Main.col_brand row with
  | Some (Some b) => if truthy b then Some (lower (strip b)) else None
  | _ => None
  end.

Definition main_row_identifiers (lib : Library) (row : Main.Row)
  : list Main.Identifier :=
  let he := Main.hashed_email (strip_or_none (Main.col_email row)) in
  let hp := Main.hashed_phone lib (strip_or_none (Main.col_phone row)) in
  let '(hf, hl, _, skip) :=
    Main.hashed_names (strip_or_none (Main.col_first_name row))
                      (strip_or_none (Main.col_last_name row)) in
  let '(country, postal) := Main.us_address (strip_or_none (Main.col_zip row)) in
  Main.opt_list Main.HashedEmail he ++ Main.opt_list Main.HashedPhoneNumber hp
  ++ Main.address_identifier country postal hf hl skip.

Definition attached_row_identifiers (lib : Library) (row : Attached.Row)
  : list Attached.UserIdentifier :=
  let he := Attached.process_email (strip_or_none (Attached.col_email row)) in
  let hp := Attached.process_phone lib (strip_or_none (Attached.col_phone row)) in
  let '(hf, hl, skip) :=
    Attached.process_names (strip_or_none (Attached.col_first_name row))
                           (strip_or_none (Attached.col_last_name row)) in
  Attached.build_identifiers he hp hf hl
    (Attached.country_code_to_use (strip_or_none (Attached.col_state row)))
    (Attached.postal_code_to_use (strip_or_none (Attached.col_zip row))) skip.

(** Whether every client-library call made for a row returns, and
    whether the counters of [_create_google_ads_operation] are reached. *)
Definition attached_calls_return (c : Attached.ClientCalls) : bool :=
  match c with Attached.CallsReturn => true | _ => false end.

Definition attached_counters_reached (c : Attached.ClientCalls) : bool :=
  match c with Attached.RaisesInIdentifiers => false | _ => true end.

(** The name test of the attached pipeline's [_process_name]: no
    problem character and a non-empty normal form. *)
Definition attached_name_ok (raw : str) : bool :=
  let n := strip (lower raw) in
  negb (existsb (fun c => has_char c n) Attached.problem_chars)
  && negb (List.length n =? 0)%nat.

(** A row with its state column replaced. *)
Definition main_with_state (row : Main.Row) (state : option str) : Main.Row :=
  Main.mkRow (Main.col_cust_no row) (Main.col_first_name row)
             (Main.col_last_name row) (Main.col_contact_guid row)
             (Main.col_email row) (Main.col_phone row) (Main.col_zip row)
             state (Main.col_brand row).

Definition nonempty {A} (l : list A) : bool :=
  match l with [] => false | _ :: _ => true end.


(** * Properties *)

(** ** Facts about the Python string primitives *)

Module PyFacts.

Ltac each_char c :=
  destruct c as [[|] [|] [|] [|] [|] [|] [|] [|]]; vm_compute; try reflexivity;
  try discriminate; auto.

(** The classes, listed over all 256 code points. *)
Definition codes_where (p : ascii -> bool) : list nat :=
  filter (fun n => p (ascii_of_nat n)) (seq 0 256).

Lemma isspace_codes :
  codes_where isspace = [9; 10; 11; 12; 13; 28; 29; 30; 31; 32; 133; 160]%nat.
Proof. vm_compute. reflexivity. Qed.

Lemma isdigit_codes :
  codes_where isdigit = (seq 48 10 ++ [178; 179; 185])%nat.
Proof. vm_compute. reflexivity. Qed.

Lemma lower_codes :
  codes_where (fun c => negb (Ascii.eqb (lower_char c) c))
  = (seq 65 26 ++ seq 192 23 ++ seq 216 7)%nat
  /\ forall c, has_lower_form c = true -> code (lower_char c) = (code c + 32)%nat.
Proof. split; [vm_compute; reflexivity | intros c; each_char c]. Qed.

Lemma upper_codes :
  codes_where (fun c => negb (N.eqb (hd 0%N (upper_points c)) (N.of_nat (code c))))
  = (seq 97 26 ++ [181; 223] ++ seq 224 23 ++ seq 248 8)%nat
  /\ upper_points sharp_s = [83%N; 83%N]
  /\ upper_points (ascii_of_nat 181) = [924%N]
  /\ upper_points (ascii_of_nat 255) = [376%N].
Proof. vm_compute. repeat split. Qed.

Lemma isspace_lower_char c : isspace (lower_char c) = isspace c.
Proof. each_char c. Qed.

Lemma isspace_not_digit c : isspace c = true -> isdigit c = false.
Proof. each_char c. Qed.

Lemma at_lower_char c : Ascii.eqb "@" (lower_char c) = Ascii.eqb "@" c.
Proof. each_char c. Qed.

Lemma dot_lower_char c : Ascii.eqb "." (lower_char c) = Ascii.eqb "." c.
Proof. each_char c. Qed.

Lemma length_lstrip s : (List.length (lstrip s) <= List.length s)%nat.
Proof.
  induction s as [|c t IH]; simpl; [lia|].
  destruct (isspace c); simpl; lia.
Qed.

(** [lstrip] removes a run of white space from the front. *)
Lemma lstrip_split s :
  exists ws, s = ws ++ lstrip s /\ forallb isspace ws = true.
Proof.
  induction s as [|c t [ws [E F]]]; simpl.
  - exists []; auto.
  - destruct (isspace c) eqn:Hc.
    + exists (c :: ws); simpl; rewrite Hc, F; split; [congruence | reflexivity].
    + exists []; auto.
Qed.

Lemma lstrip_head s c t : lstrip s = c :: t -> isspace c = false.
Proof.
  induction s as [|x u IH]; simpl; [discriminate|].
  destruct (isspace x) eqn:Hx; [assumption|].
  intros E; injection E as <- _; assumption.
Qed.

Lemma lstrip_fixed s :
  match s with [] => True | c :: _ => isspace c = false end -> lstrip s = s.
Proof. destruct s as [|c t]; simpl; [reflexivity|]; intros ->; reflexivity. Qed.

Lemma lstrip_idem s : lstrip (lstrip s) = lstrip s.
Proof.
  apply lstrip_fixed. destruct (lstrip s) as [|c t] eqn:E; [exact I|].
  eapply lstrip_head; eassumption.
Qed.

(** [rstrip] removes a run of white space from the back. *)
Lemma rstrip_split s :
  exists ws, s = rstrip s ++ ws /\ forallb isspace ws = true.
Proof.
  unfold rstrip. destruct (lstrip_split (rev s)) as [ws [E F]].
  exists (rev ws). split.
  - rewrite <- rev_app_distr, <- E, rev_involutive. reflexivity.
  - rewrite forallb_forall in *. intros x Hx. apply F, in_rev, Hx.
Qed.

Lemma rstrip_idem s : rstrip (rstrip s) = rstrip s.
Proof. unfold rstrip. rewrite rev_involutive, lstrip_idem. reflexivity. Qed.

Lemma lstrip_rstrip_fixed s : lstrip s = s -> lstrip (rstrip s) = rstrip s.
Proof.
  intros Hs. apply lstrip_fixed.
  destruct (rstrip s) as [|c t] eqn:E; [exact I|].
  destruct (rstrip_split s) as [ws [Es _]]. rewrite E in Es.
  destruct (isspace c) eqn:Hc; [|reflexivity].
  exfalso. rewrite Es in Hs. simpl in Hs. rewrite Hc in Hs.
  pose proof (length_lstrip (t ++ ws)) as L. rewrite Hs in L. simpl in L. lia.
Qed.

Lemma strip_idem s : strip (strip s) = strip s.
Proof.
  unfold strip.
  rewrite (lstrip_rstrip_fixed (lstrip s) (lstrip_idem s)).
  apply rstrip_idem.
Qed.

Lemma lstrip_lower s : lstrip (lower s) = lower (lstrip s).
Proof.
  unfold lower. induction s as [|c t IH]; simpl; [reflexivity|].
  rewrite isspace_lower_char. destruct (isspace c); [exact IH | reflexivity].
Qed.

Lemma strip_lower s : strip (lower s) = lower (strip s).
Proof.
  unfold strip, rstrip. rewrite lstrip_lower.
  unfold lower at 1. rewrite <- map_rev.
  change (map lower_char (rev (lstrip s))) with (lower (rev (lstrip s))).
  rewrite lstrip_lower. unfold lower. rewrite map_rev. reflexivity.
Qed.

(** The normal form used by every e-mail and name path. *)
Lemma normalize_stripped s : strip (lower (strip s)) = strip (lower s).
Proof. rewrite !strip_lower, strip_idem. reflexivity. Qed.

Lemma length_lower s : List.length (lower s) = List.length s.
Proof. apply length_map. Qed.

Lemma lower_char_idem c : lower_char (lower_char c) = lower_char c.
Proof. each_char c. Qed.

Lemma lower_idem s : lower (lower s) = lower s.
Proof.
  unfold lower. rewrite map_map. apply map_ext. intros c. apply lower_char_idem.
Qed.

(** Upper-casing keeps the length of a text made of the letters A to Z
    and a to z; in general a character gives one or two code points. *)
Lemma upper_points_letter c :
  isupper c || islower c = true -> List.length (upper_points c) = 1%nat.
Proof. each_char c. Qed.

Lemma length_upper_points c :
  List.length (upper_points c) = (1 + List.length (filter (Ascii.eqb sharp_s) [c]))%nat.
Proof. each_char c. Qed.

Lemma length_upper s :
  List.length (upper s) = (List.length s + count sharp_s s)%nat.
Proof.
  unfold upper, count. induction s as [|c t IH]; [reflexivity|].
  cbn [flat_map]. rewrite length_app, IH, length_upper_points.
  cbn [filter]. destruct (Ascii.eqb sharp_s c); simpl; lia.
Qed.

Lemma length_upper_letters s :
  forallb (fun c => isupper c || islower c) s = true ->
  List.length (upper s) = List.length s.
Proof.
  unfold upper. induction s as [|c t IH]; [reflexivity|].
  cbn [forallb flat_map]. intros H. apply andb_prop in H as [Hc Ht].
  rewrite length_app, (upper_points_letter c Hc), (IH Ht). reflexivity.
Qed.

Lemma has_at_lower s : has_char "@" (lower s) = has_char "@" s.
Proof.
  unfold has_char, lower. induction s as [|c t IH]; [reflexivity|].
  cbn [map existsb]. rewrite at_lower_char, IH. reflexivity.
Qed.

Lemma has_dot_lower s : has_char "." (lower s) = has_char "." s.
Proof.
  unfold has_char, lower. induction s as [|c t IH]; [reflexivity|].
  cbn [map existsb]. rewrite dot_lower_char, IH. reflexivity.
Qed.

Lemma count_pos_has c s : (0 < count c s)%nat -> has_char c s = true.
Proof.
  unfold count, has_char. induction s as [|x t IH]; [simpl; lia|].
  cbn [filter existsb]. destruct (Ascii.eqb c x); simpl; auto.
Qed.

Lemma filter_spaces ws : forallb isspace ws = true -> filter isdigit ws = [].
Proof.
  induction ws as [|c t IH]; simpl; [reflexivity|].
  intros H. apply andb_prop in H as [Hc Ht].
  rewrite (isspace_not_digit c Hc). auto.
Qed.

Lemma digits_only_strip s : digits_only (strip s) = digits_only s.
Proof.
  unfold digits_only, strip.
  destruct (lstrip_split s) as [w1 [E1 F1]].
  destruct (rstrip_split (lstrip s)) as [w2 [E2 F2]].
  rewrite E1 at 2. rewrite E2 at 2.
  rewrite !filter_app, (filter_spaces w1 F1), (filter_spaces w2 F2), app_nil_r.
  reflexivity.
Qed.

Lemma truthy_length s : truthy s = (0 <? List.length s)%nat.
Proof. destruct s; reflexivity. Qed.

(** The last piece of a split is a suffix of the text. *)
Lemma split_nonempty sep s : split sep s <> [].
Proof.
  induction s as [|c t IH]; simpl; [discriminate|].
  destruct (Ascii.eqb c sep); [discriminate|].
  destruct (split sep t); [contradiction | discriminate].
Qed.

Lemma has_char_last_piece c sep s :
  has_char c (last_piece sep s) = true -> has_char c s = true.
Proof.
  unfold last_piece, has_char. induction s as [|x t IH]; [auto|].
  pose proof (split_nonempty sep t) as NE.
  cbn [split]. destruct (Ascii.eqb x sep).
  - destruct (split sep t) as [|p ps] eqn:E; [contradiction|].
    intros H. cbn [existsb]. rewrite (IH H). apply orb_true_r.
  - destruct (split sep t) as [|p ps] eqn:E; [contradiction|].
    destruct ps as [|q qs].
    + cbn [last existsb] in *. intros H.
      apply orb_prop in H as [H|H]; rewrite ?H, ?(IH H), ?orb_true_r; reflexivity.
    + intros H. cbn [existsb]. rewrite (IH H). apply orb_true_r.
Qed.

Lemma slice_prefix {A} (l : list A) (k : nat) :
  slice l 0 (Z.of_nat k) = firstn k l.
Proof.
  unfold slice, clamp_index. simpl.
  replace (Z.of_nat k <? 0) with false by (symmetry; apply Z.ltb_ge; lia).
  replace (Z.to_nat (Z.min 0 (Z.of_nat (List.length l)))) with 0%nat by lia.
  change (skipn 0 l) with l. rewrite Nat.sub_0_r.
  destruct (Z.min_spec (Z.of_nat k) (Z.of_nat (List.length l))) as [[H ->]|[H ->]].
  - rewrite Nat2Z.id. reflexivity.
  - rewrite Nat2Z.id, firstn_all. symmetry. apply firstn_all2. lia.
Qed.

End PyFacts.


(** ** The e-mail normalizer *)

Lemma if_none_some {A} (b : bool) (o : option A) (d : A) :
  (if b then o else None) = Some d <-> b = true /\ o = Some d.
Proof. destruct b; split; try tauto; try discriminate. intros [E _]; discriminate E. Qed.

Lemma some_eq_iff {A} (x d : A) : Some x = Some d <-> d = x.
Proof. split; [intros E; injection E; auto | intros ->; reflexivity]. Qed.

Ltac bool_to_prop :=
  repeat rewrite ?if_none_some, ?some_eq_iff, ?andb_true_iff, ?orb_true_iff,
    ?negb_true_iff, ?Nat.leb_le, ?Nat.eqb_eq, ?Nat.ltb_lt, ?Z.ltb_lt, ?Z.eqb_eq.

Lemma main_email_normal_form (raw : str) (d : digest) :
  Main.hashed_email (strip_or_none (Some raw)) = Some d <->
  d = sha256_hex (Spec.normalized raw)
  /\ (count "@" (Spec.normalized raw) = 1)%nat
  /\ (6 <= List.length (Spec.normalized raw))%nat
  /\ has_char "." (Spec.normalized raw) = true.
Proof.
  unfold Spec.normalized, Main.hashed_email, strip_or_none.
  destruct (truthy raw) eqn:Hraw.
  - rewrite PyFacts.normalize_stripped.
    assert (En : strip (lower raw) = lower (strip raw)) by apply PyFacts.strip_lower.
    rewrite <- (PyFacts.has_at_lower (strip raw)), <- (PyFacts.has_dot_lower (strip raw)).
    rewrite PyFacts.truthy_length, <- (PyFacts.length_lower (strip raw)), <- En.
    set (n := strip (lower raw)).
    bool_to_prop.
    split.
    + intros [[[H0 Ha] Hd] [[H6 H1] ->]]. auto.
    + intros (-> & H1 & H6 & Hd). repeat split; auto; try lia.
      apply PyFacts.count_pos_has. lia.
  - destruct raw; [|discriminate Hraw]. vm_compute.
    split; [discriminate | intros (_ & H & _); discriminate H].
Qed.

Lemma attached_email_normal_form (raw : str) (d : digest) :
  Attached.process_email (strip_or_none (Some raw)) = Some d <->
  d = sha256_hex (Spec.normalized raw)
  /\ has_char "@" (Spec.normalized raw) = true
  /\ has_char "." (last_piece "@" (Spec.normalized raw)) = true.
Proof.
  unfold Spec.normalized, Attached.process_email, strip_or_none.
  destruct (truthy raw) eqn:Hraw.
  - rewrite PyFacts.normalize_stripped.
    assert (En : strip (lower raw) = lower (strip raw)) by apply PyFacts.strip_lower.
    rewrite PyFacts.truthy_length, <- (PyFacts.length_lower (strip raw)), <- En.
    set (n := strip (lower raw)).
    destruct (0 <? List.length n)%nat eqn:H0; cbn [negb].
    + bool_to_prop. split.
      * intros [[Ha Hd] ->]. auto.
      * intros (-> & Ha & Hd). auto.
    + apply Nat.ltb_ge in H0. destruct n; [|simpl in H0; lia].
      split; [discriminate | intros (_ & H & _); discriminate H].
  - destruct raw; [|discriminate Hraw]. vm_compute.
    split; [discriminate | intros (_ & H & _); discriminate H].
Qed.

(** ** One row, seen from outside *)

Lemma main_row_operations lib b st row :
  Main.processed_operations (Main.process_customer_row lib b st row)
  = Main.processed_operations st
    ++ (if Main.brand_mismatch b (main_brand_raw row) then []
        else if nonempty (main_row_identifiers lib row)
        then [Main.mkOperation (main_row_identifiers lib row)
                (strip_or_none (Main.col_cust_no row))
                (Main.str_of (Main.col_contact_guid row))
                (if truthy_opt (main_brand_raw row)
                 then Main.str_of (main_brand_raw row) else lit "unspecified")]
        else []).
Proof.
  unfold Main.process_customer_row, main_row_identifiers.
  fold (main_brand_raw row).
  destruct (Main.brand_mismatch b (main_brand_raw row)); [symmetry; apply app_nil_r|].
  destruct (Main.hashed_names _ _) as [[[hf hl] v] sk].
  destruct (Main.us_address _) as [country postal].
  cbn [Main.processed_operations].
  match goal with |- context [nonempty ?l] => destruct l eqn:E end;
    cbn [nonempty]; [symmetry; apply app_nil_r | reflexivity].
Qed.

Lemma main_row_counters lib b st row :
  Main.brand_mismatch b (main_brand_raw row) = false ->
  Main.email_processed_count (Main.process_customer_row lib b st row)
  = (Main.email_processed_count st
     + Main.b2n (Main.is_some (Main.hashed_email (strip_or_none (Main.col_email row)))))%nat
  /\ Main.phone_processed_count (Main.process_customer_row lib b st row)
  = (Main.phone_processed_count st
     + Main.b2n (Main.is_some (Main.hashed_phone lib (strip_or_none (Main.col_phone row)))))%nat
  /\ Main.rows_with_any_id_count (Main.process_customer_row lib b st row)
  = (Main.rows_with_any_id_count st
     + Main.b2n (nonempty (main_row_identifiers lib row)))%nat.
Proof.
  intros Hb. unfold Main.process_customer_row, main_row_identifiers.
  fold (main_brand_raw row). rewrite Hb.
  destruct (Main.hashed_names _ _) as [[[hf hl] v] sk].
  destruct (Main.us_address _) as [country postal].
  cbn [Main.email_processed_count Main.phone_processed_count
       Main.rows_with_any_id_count].
  repeat split.
Qed.

Lemma main_row_skipped lib b st row :
  Main.brand_mismatch b (main_brand_raw row) = true ->
  Main.process_customer_row lib b st row = st.
Proof.
  intros Hb. unfold Main.process_customer_row. fold (main_brand_raw row).
  rewrite Hb. reflexivity.
Qed.

Lemma attached_row_operations lib client st row :
  Attached.processed_operations (Attached.process_customer_row lib client st row)
  = Attached.processed_operations st
    ++ (if Attached.googleads_client st
           && nonempty (attached_row_identifiers lib row)
           && attached_calls_return (client (Attached.total_rows_processed st))
        then [Attached.mkOperation (attached_row_identifiers lib row)] else []).
Proof.
  unfold Attached.process_customer_row, attached_row_identifiers.
  destruct (Attached.process_names _ _) as [[hf hl] sk].
  destruct (Attached.googleads_client st); cbn [negb andb Attached.processed_operations].
  - match goal with |- context [nonempty ?l] => destruct l eqn:E end;
      cbn [nonempty andb Attached.processed_operations];
      [symmetry; apply app_nil_r|].
    destruct (client (Attached.total_rows_processed st));
      cbn [attached_calls_return Attached.processed_operations];
      [reflexivity | symmetry; apply app_nil_r | symmetry; apply app_nil_r].
  - symmetry; apply app_nil_r.
Qed.

Lemma attached_row_counters lib client st row :
  Attached.email_processed_count (Attached.process_customer_row lib client st row)
  = (Attached.email_processed_count st
     + Attached.b2n (Attached.is_some
         (Attached.process_email (strip_or_none (Attached.col_email row)))))%nat
  /\ Attached.phone_processed_count (Attached.process_customer_row lib client st row)
  = (Attached.phone_processed_count st
     + Attached.b2n (Attached.is_some
         (Attached.process_phone lib (strip_or_none (Attached.col_phone row)))))%nat
  /\ Attached.rows_with_any_id_count (Attached.process_customer_row lib client st row)
  = (Attached.rows_with_any_id_count st
     + Attached.b2n (Attached.googleads_client st
                     && nonempty (attached_row_identifiers lib row)
                     && attached_counters_reached
                          (client (Attached.total_rows_processed st))))%nat
  /\ Attached.googleads_client (Attached.process_customer_row lib client st row)
  = Attached.googleads_client st
  /\ Attached.total_rows_processed (Attached.process_customer_row lib client st row)
  = Attached.total_rows_processed st.
Proof.
  unfold Attached.process_customer_row, attached_row_identifiers.
  destruct (Attached.process_names _ _) as [[hf hl] sk].
  destruct (Attached.googleads_client st) eqn:Ec; cbn [negb andb].
  - match goal with |- context [nonempty ?l] => destruct l eqn:E end;
      cbn [nonempty andb].
    + cbn [Attached.email_processed_count Attached.phone_processed_count
           Attached.rows_with_any_id_count Attached.googleads_client
           Attached.total_rows_processed Attached.b2n].
      repeat split; auto; lia.
    + destruct (client (Attached.total_rows_processed st));
        cbn [attached_counters_reached
             Attached.email_processed_count Attached.phone_processed_count
             Attached.rows_with_any_id_count Attached.googleads_client
             Attached.total_rows_processed Attached.b2n];
        repeat split; auto; lia.
  - cbn [Attached.email_processed_count Attached.phone_processed_count
         Attached.rows_with_any_id_count Attached.googleads_client
         Attached.total_rows_processed Attached.b2n].
    repeat split; auto; lia.
Qed.

(** C6, counterexample.  The stated rule is not the one either
    pipeline applies: the main pipeline hashes [a.b@cd], whose only dot
    is before the [@]; the attached pipeline hashes the five-character
    [a@b.c] and the two-[@] text [a@b@c.d]. *)
Lemma C6_email_rule_counterexample :
  (Main.hashed_email (strip_or_none (Some (lit "a.b@cd")))
   = Some (sha256_hex (lit "a.b@cd"))
   /\ Spec.email_rule (lit "a.b@cd") = false)
  /\ (Attached.process_email (strip_or_none (Some (lit "a@b.c")))
      = Some (sha256_hex (lit "a@b.c"))
      /\ Spec.email_rule (lit "a@b.c") = false)
  /\ (Attached.process_email (strip_or_none (Some (lit "a@b@c.d")))
      = Some (sha256_hex (lit "a@b@c.d"))
      /\ Spec.email_rule (lit "a@b@c.d") = false).
Proof. vm_compute. repeat split. Qed.

(** C6, as amended.  With [n] the trimmed, lower-cased text:
    the main pipeline hashes [n] exactly when [n] has one [@], at least
    six characters and a dot anywhere; the attached pipeline hashes [n]
    exactly when [n] has an [@] and a dot after its last [@]; a text
    that meets the stated rule is hashed by both; and the e-mail counter
    moves by one exactly when a digest was produced. *)
Theorem C6_email_normalizer (raw : str) :
  let n := Spec.normalized raw in
  (forall d, Main.hashed_email (strip_or_none (Some raw)) = Some d <->
     d = sha256_hex n /\ (count "@" n = 1)%nat /\ (6 <= List.length n)%nat
     /\ has_char "." n = true)
  /\ (forall d, Attached.process_email (strip_or_none (Some raw)) = Some d <->
     d = sha256_hex n /\ has_char "@" n = true
     /\ has_char "." (last_piece "@" n) = true)
  /\ (Spec.email_rule raw = true ->
      Main.hashed_email (strip_or_none (Some raw)) = Some (sha256_hex n)
      /\ Attached.process_email (strip_or_none (Some raw)) = Some (sha256_hex n))
  /\ (forall lib b st row,
        Main.col_email row = Some raw ->
        Main.brand_mismatch b (main_brand_raw row) = false ->
        Main.email_processed_count (Main.process_customer_row lib b st row)
        = (Main.email_processed_count st
           + Main.b2n (Main.is_some (Main.hashed_email (strip_or_none (Some raw)))))%nat)
  /\ (forall lib client st row,
        Attached.col_email row = Some raw ->
        Attached.email_processed_count
          (Attached.process_customer_row lib client st row)
        = (Attached.email_processed_count st
           + Attached.b2n (Attached.is_some
               (Attached.process_email (strip_or_none (Some raw)))))%nat).
Proof.
  intros n. split; [|split; [|split; [|split]]].
  - intros d. apply main_email_normal_form.
  - intros d. apply attached_email_normal_form.
  - unfold Spec.email_rule. fold n. bool_to_prop. intros [[H1 H6] Hd]. split.
    + apply main_email_normal_form. repeat split; auto.
      eapply PyFacts.has_char_last_piece; eassumption.
    + apply attached_email_normal_form. repeat split; auto.
      apply PyFacts.count_pos_has. fold n. lia.
  - intros lib b st row E Hb. rewrite <- E.
    apply (main_row_counters lib b st row Hb).
  - intros lib client st row E. rewrite <- E.
    apply (attached_row_counters lib client st row).
Qed.

(** ** The output list and its counter *)

Section MainInvariant.

Variable lib : Library.
Variable self_brand : option str.

(** What one row does to the output list and to its counter. *)
Lemma main_row_step st row :
  let st' := Main.process_customer_row lib self_brand st row in
  (Main.rows_with_any_id_count st' = Main.rows_with_any_id_count st
   /\ Main.processed_operations st' = Main.processed_operations st)
  \/ (Main.rows_with_any_id_count st' = S (Main.rows_with_any_id_count st)
      /\ exists op, Main.processed_operations st' = Main.processed_operations st ++ [op]
                    /\ Main.user_identifiers op <> []).
Proof.
  cbv zeta. destruct (Main.brand_mismatch self_brand (main_brand_raw row)) eqn:Hb.
  - left. rewrite (main_row_skipped lib self_brand st row Hb). auto.
  - destruct (main_row_counters lib self_brand st row Hb) as (_ & _ & Hc).
    rewrite Hc, main_row_operations, Hb.
    destruct (main_row_identifiers lib row) as [|i ids] eqn:E; cbn [nonempty Main.b2n].
    + left. rewrite app_nil_r. split; [lia | reflexivity].
    + right. split; [lia|]. eexists. split; [reflexivity|]. simpl. discriminate.
Qed.

Definition main_invariant (st : Main.Uploader) : Prop :=
  Main.rows_with_any_id_count st = List.length (Main.processed_operations st)
  /\ Forall (fun op => Main.user_identifiers op <> []) (Main.processed_operations st).

Lemma main_invariant_row st row :
  main_invariant st ->
  main_invariant (Main.process_customer_row lib self_brand (Main.count_row st) row).
Proof.
  intros [Hc Hf]. unfold main_invariant.
  destruct (main_row_step (Main.count_row st) row) as [[E1 E2]|[E1 (op & E2 & Hop)]];
    cbv zeta in *; rewrite E1, E2; cbn [Main.count_row Main.rows_with_any_id_count
                                       Main.processed_operations].
  - auto.
  - rewrite length_app, Forall_app. simpl. split; [lia|]. split; auto.
Qed.

Lemma main_invariant_page page : forall st,
  main_invariant st -> main_invariant (Main.process_page lib self_brand st page).
Proof.
  unfold Main.process_page. induction page as [|row rest IH]; intros st H; simpl.
  - exact H.
  - apply IH, main_invariant_row, H.
Qed.

Lemma main_invariant_fetch pages : forall st,
  main_invariant st ->
  main_invariant (Main.fetch_and_process_customer_data lib self_brand st pages).
Proof.
  induction pages as [|page rest IH]; intros st H; simpl; [exact H|].
  destruct page as [|row page']; [exact H|].
  apply IH, main_invariant_page, H.
Qed.

Lemma main_invariant_init : main_invariant Main.init.
Proof. split; [reflexivity | constructor]. Qed.

End MainInvariant.

Section AttachedInvariant.

Variable lib : Library.
Variable client : Attached.Client.

(** What one row does to the output list and to its counter: nothing,
    one more of each, or, when the client library raises while the
    operation is built, one more on the counter alone. *)
Lemma attached_row_step st row :
  let st' := Attached.process_customer_row lib client st row in
  (Attached.rows_with_any_id_count st' = Attached.rows_with_any_id_count st
   /\ Attached.processed_operations st' = Attached.processed_operations st)
  \/ (Attached.rows_with_any_id_count st' = S (Attached.rows_with_any_id_count st)
      /\ client (Attached.total_rows_processed st) = Attached.CallsReturn
      /\ exists op, Attached.processed_operations st'
                    = Attached.processed_operations st ++ [op]
                    /\ Attached.user_identifiers op <> [])
  \/ (Attached.rows_with_any_id_count st' = S (Attached.rows_with_any_id_count st)
      /\ client (Attached.total_rows_processed st) = Attached.RaisesInOperation
      /\ Attached.processed_operations st' = Attached.processed_operations st).
Proof.
  cbv zeta. destruct (attached_row_counters lib client st row) as (_ & _ & Hc & _).
  rewrite Hc, attached_row_operations.
  destruct (Attached.googleads_client st); cbn [andb].
  - destruct (attached_row_identifiers lib row) as [|i ids] eqn:E;
      cbn [nonempty andb Attached.b2n].
    + left. rewrite app_nil_r. split; [lia | reflexivity].
    + destruct (client (Attached.total_rows_processed st)) eqn:Ek;
        cbn [attached_counters_reached attached_calls_return Attached.b2n].
      * right; left. split; [lia|]. split; [reflexivity|].
        eexists. split; [reflexivity|]. simpl. discriminate.
      * left. rewrite app_nil_r. split; [lia | reflexivity].
      * right; right. rewrite app_nil_r. split; [lia|]. split; reflexivity.
  - left. rewrite app_nil_r. cbn [Attached.b2n]. split; [lia | reflexivity].
Qed.

(** The counter never falls behind the list, and no prepared operation
    is empty. *)
Definition attached_invariant (st : Attached.Uploader) : Prop :=
  (List.length (Attached.processed_operations st)
   <= Attached.rows_with_any_id_count st)%nat
  /\ Forall (fun op => Attached.user_identifiers op <> [])
            (Attached.processed_operations st).

Lemma attached_invariant_row st row :
  attached_invariant st ->
  attached_invariant
    (Attached.process_customer_row lib client (Attached.count_row st) row).
Proof.
  intros [Hc Hf]. unfold attached_invariant.
  destruct (attached_row_step (Attached.count_row st) row)
    as [[E1 E2]|[(E1 & _ & op & E2 & Hop)|(E1 & _ & E2)]];
    cbv zeta in *; rewrite E1, E2;
    cbn [Attached.count_row Attached.rows_with_any_id_count
         Attached.processed_operations].
  - auto.
  - rewrite length_app, Forall_app. simpl. split; [lia|]. split; auto.
  - split; [lia | exact Hf].
Qed.

Lemma attached_invariant_page page : forall st,
  attached_invariant st ->
  attached_invariant (Attached.process_page lib client st page).
Proof.
  unfold Attached.process_page. induction page as [|row rest IH]; intros st H; simpl.
  - exact H.
  - apply IH, attached_invariant_row, H.
Qed.

Lemma attached_invariant_fetch pages : forall st,
  attached_invariant st ->
  attached_invariant (Attached.fetch_and_process_customer_data lib client st pages).
Proof.
  induction pages as [|page rest IH]; intros st H; simpl; [exact H|].
  destruct page as [|row page']; [exact H|].
  apply IH, attached_invariant_page, H.
Qed.

Lemma attached_invariant_init client_ok : attached_invariant (Attached.init client_ok).
Proof. split; [simpl; lia | constructor]. Qed.

(** When no call raises while an operation is built, the counter and
    the list move together. *)
Hypothesis operations_built : forall n, client n <> Attached.RaisesInOperation.

Definition attached_in_step (st : Attached.Uploader) : Prop :=
  Attached.rows_with_any_id_count st
  = List.length (Attached.processed_operations st).

Lemma attached_in_step_row st row :
  attached_in_step st ->
  attached_in_step
    (Attached.process_customer_row lib client (Attached.count_row st) row).
Proof.
  unfold attached_in_step. intros Hc.
  destruct (attached_row_step (Attached.count_row st) row)
    as [[E1 E2]|[(E1 & _ & op & E2 & Hop)|(E1 & Ek & E2)]];
    cbv zeta in *.
  - rewrite E1, E2. exact Hc.
  - rewrite E1, E2, length_app. cbn [Attached.count_row
      Attached.rows_with_any_id_count Attached.processed_operations] in *.
    simpl. lia.
  - destruct (operations_built _ Ek).
Qed.

Lemma attached_in_step_page page : forall st,
  attached_in_step st -> attached_in_step (Attached.process_page lib client st page).
Proof.
  unfold Attached.process_page. induction page as [|row rest IH]; intros st H; simpl.
  - exact H.
  - apply IH, attached_in_step_row, H.
Qed.

Lemma attached_in_step_fetch pages : forall st,
  attached_in_step st ->
  attached_in_step (Attached.fetch_and_process_customer_data lib client st pages).
Proof.
  induction pages as [|page rest IH]; intros st H; simpl; [exact H|].
  destruct page as [|row page']; [exact H|].
  apply IH, attached_in_step_page, H.
Qed.

End AttachedInvariant.

(** A row of the attached pipeline with a valid e-mail address only. *)
Definition attached_email_row : Attached.Row :=
  Attached.mkRow (Some (lit "C7")) None None (Some (lit "guid"))
                 (Some (lit "jane@example.com")) None None None.

(** A client library whose calls raise while the operation is built. *)
Definition operation_raises : Attached.Client :=
  fun _ => Attached.RaisesInOperation.

(** C10, counterexample.  In the attached pipeline the counter is
    incremented before the messages of the operation are built by the
    client library; when one of these calls raises, the exception is
    caught by the row handler, and the row has been counted without an
    operation being appended. *)
Lemma C10_attached_counter_counterexample :
  let st := Attached.fetch_and_process_customer_data sample operation_raises
              (Attached.init true) [[attached_email_row]] in
  Attached.rows_with_any_id_count st = 1%nat
  /\ Attached.processed_operations st = [].
Proof. vm_compute. split; reflexivity. Qed.

(** C10, as amended.  In the main pipeline, after any pages of rows the
    counter of rows with an identifier equals the length of the list of
    prepared operations, and each row either appends one operation and
    adds one to the counter or leaves both as they were.  In the
    attached pipeline the same holds as long as no client-library call
    raises while an operation is built; in general the counter is at
    least the length of the list, and a row leaves both as they were,
    or appends one operation and adds one to the counter, or, when such
    a call raises, adds one to the counter alone. *)
Theorem C10_counter_equals_operations :
  (forall lib b pages,
     let st := Main.fetch_and_process_customer_data lib b Main.init pages in
     Main.rows_with_any_id_count st = List.length (Main.processed_operations st))
  /\ (forall lib b st row,
     let st' := Main.process_customer_row lib b st row in
     (Main.rows_with_any_id_count st' = Main.rows_with_any_id_count st
      /\ Main.processed_operations st' = Main.processed_operations st)
     \/ (Main.rows_with_any_id_count st' = S (Main.rows_with_any_id_count st)
         /\ exists op, Main.processed_operations st'
                       = Main.processed_operations st ++ [op]))
  /\ (forall lib client client_ok pages,
     (forall n, client n <> Attached.RaisesInOperation) ->
     let st := Attached.fetch_and_process_customer_data lib client
                 (Attached.init client_ok) pages in
     Attached.rows_with_any_id_count st
     = List.length (Attached.processed_operations st))
  /\ (forall lib client client_ok pages,
     let st := Attached.fetch_and_process_customer_data lib client
                 (Attached.init client_ok) pages in
     (List.length (Attached.processed_operations st)
      <= Attached.rows_with_any_id_count st)%nat)
  /\ (forall lib client st row,
     let st' := Attached.process_customer_row lib client st row in
     (Attached.rows_with_any_id_count st' = Attached.rows_with_any_id_count st
      /\ Attached.processed_operations st' = Attached.processed_operations st)
     \/ (Attached.rows_with_any_id_count st' = S (Attached.rows_with_any_id_count st)
         /\ client (Attached.total_rows_processed st) = Attached.CallsReturn
         /\ exists op, Attached.processed_operations st'
                       = Attached.processed_operations st ++ [op])
     \/ (Attached.rows_with_any_id_count st' = S (Attached.rows_with_any_id_count st)
         /\ client (Attached.total_rows_processed st) = Attached.RaisesInOperation
         /\ Attached.processed_operations st' = Attached.processed_operations st)).
Proof.
  split; [|split; [|split; [|split]]].
  - intros lib b pages.
    apply (main_invariant_fetch lib b pages Main.init), main_invariant_init.
  - intros lib b st row.
    destruct (main_row_step lib b st row) as [H|[H1 (op & H2 & _)]];
      [left; exact H | right; eauto].
  - intros lib client client_ok pages Hc.
    apply (attached_in_step_fetch lib client Hc pages (Attached.init client_ok)).
    reflexivity.
  - intros lib client client_ok pages.
    apply (attached_invariant_fetch lib client pages (Attached.init client_ok)),
          attached_invariant_init.
  - intros lib client st row.
    destruct (attached_row_step lib client st row)
      as [H|[(H1 & Hk & op & H2 & _)|H]];
      [left; exact H | right; left; eauto | right; right; exact H].
Qed.

(** ** Records that reach the service *)

Lemma in_firstn_list {A} (n : nat) (l : list A) (x : A) :
  In x (firstn n l) -> In x l.
Proof.
  intros H. rewrite <- (firstn_skipn n l). apply in_or_app. left; exact H.
Qed.

Lemma in_skipn_list {A} (n : nat) (l : list A) (x : A) :
  In x (skipn n l) -> In x l.
Proof.
  intros H. rewrite <- (firstn_skipn n l). apply in_or_app. right; exact H.
Qed.

Lemma slice_incl {A} (l : list A) (a b : Z) (x : A) :
  In x (slice l a b) -> In x l.
Proof.
  unfold slice. intros H.
  eapply in_skipn_list, in_firstn_list, H.
Qed.

Lemma main_batches_incl {A} (ops : list A) (bs : Z) (batch : list A) (x : A) :
  In batch (Main.batches ops bs) -> In x batch -> In x ops.
Proof.
  unfold Main.batches. rewrite in_map_iff. intros (k & <- & _).
  apply slice_incl.
Qed.

Lemma attached_batches_incl {A} (ops : list A) (bs : Z) (batch : list A) (x : A) :
  In batch (Attached.operation_batches ops bs) -> In x batch -> In x ops.
Proof.
  unfold Attached.operation_batches. rewrite in_map_iff. intros (k & <- & _).
  apply slice_incl.
Qed.

Lemma main_upload_batches_events cfg svc bs : forall j i k operations,
  In (Main.AddOperations i k operations)
     (List.concat (map snd (Main.upload_batches cfg svc j bs))) ->
  exists batch, In batch bs /\ operations = map Main.user_identifiers batch.
Proof.
  induction bs as [|b rest IH]; intros j i k operations; simpl; [tauto|].
  rewrite in_app_iff. intros [H|H].
  - exists b. split; [left; reflexivity|].
    unfold Main.upload_batch in H.
    destruct (Main.add_with_retries _ _ _) as [ok made]. simpl in H.
    apply in_map_iff in H as (a & E & _). injection E as _ _ ->. reflexivity.
  - destruct (IH _ _ _ _ H) as (batch & Hin & E). exists batch. auto.
Qed.

Lemma attached_upload_batches_events cfg svc bs : forall j i k operations,
  In (Attached.AddOperations i k operations)
     (List.concat (map snd (Attached.upload_batches cfg svc j bs))) ->
  In operations bs.
Proof.
  induction bs as [|b rest IH]; intros j i k operations; simpl; [tauto|].
  rewrite in_app_iff. intros [H|H].
  - left. unfold Attached.upload_batch in H.
    destruct (Attached.upload_batch_with_retry _ _ _ _) as [ok made]. simpl in H.
    apply in_map_iff in H as (a & E & _). injection E as _ _ ->. reflexivity.
  - right. eapply IH; eassumption.
Qed.

(** Every record the main pipeline submits carries an identifier. *)
Lemma main_uploaded_records_have_identifier lib b pages client_ok cfg svc :
  forall i k operations,
    In (Main.AddOperations i k operations)
       (snd (Main.upload_to_google_ads client_ok cfg svc
               (Main.fetch_and_process_customer_data lib b Main.init pages))) ->
    Forall (fun ids => ids <> []) operations.
Proof.
  intros i k operations.
  pose proof (main_invariant_fetch lib b pages Main.init (main_invariant_init)) as [_ Hf].
  set (st := Main.fetch_and_process_customer_data lib b Main.init pages) in *.
  unfold Main.upload_to_google_ads.
  destruct client_ok; cbn [negb]; [|simpl; tauto].
  destruct (Main.processed_operations st) as [|o os] eqn:Eo; [simpl; tauto|].
  destruct (Main.get_service_reply svc); [|simpl; tauto].
  destruct (Main.create_job_reply svc); [|simpl; intros [H|[]]; discriminate H].
  destruct (Main.API_BATCH_SIZE cfg =? 0); [simpl; intros [H|[]]; discriminate H|].
  assert (forall calls, In (Main.AddOperations i k operations)
            (Main.CreateJob :: calls ++ [Main.RunJob]) ->
            In (Main.AddOperations i k operations) calls) as Hcalls.
  { intros calls [H|H]; [discriminate H|].
    apply in_app_iff in H as [H|[H|[]]]; [exact H | discriminate H]. }
  intros H.
  assert (In (Main.AddOperations i k operations)
            (List.concat (map snd (Main.upload_batches cfg svc 0
               (Main.batches (o :: os) (Main.API_BATCH_SIZE cfg)))))) as Hin.
  { destruct (Main.run_job_reply svc); apply Hcalls, H. }
  destruct (main_upload_batches_events _ _ _ _ _ _ _ Hin) as (batch & Hb & ->).
  rewrite Forall_forall. intros ids Hids.
  apply in_map_iff in Hids as (op & <- & Hop).
  rewrite Forall_forall in Hf. apply Hf.
  eapply main_batches_incl; eassumption.
Qed.

(** Every record the attached pipeline submits carries an identifier. *)
Lemma attached_uploaded_records_have_identifier lib client pages client_ok cfg svc :
  forall i k operations,
    In (Attached.AddOperations i k operations)
       (snd (Attached.upload_to_google_ads cfg svc
               (Attached.fetch_and_process_customer_data lib client
                  (Attached.init client_ok) pages))) ->
    Forall (fun op => Attached.user_identifiers op <> []) operations.
Proof.
  intros i k operations.
  pose proof (attached_invariant_fetch lib client pages (Attached.init client_ok)
                (attached_invariant_init client_ok)) as [_ Hf].
  set (st := Attached.fetch_and_process_customer_data lib client _ pages) in *.
  unfold Attached.upload_to_google_ads.
  destruct (Attached.processed_operations st) as [|o os] eqn:Eo; [simpl; tauto|].
  destruct (Attached.googleads_client st); cbn [negb]; [|simpl; tauto].
  destruct (Attached.create_job_reply svc); [|simpl; intros [H|[]]; discriminate H].
  destruct (Attached.API_BATCH_SIZE cfg =? 0); [simpl; intros [H|[]]; discriminate H|].
  assert (forall calls, In (Attached.AddOperations i k operations)
            (Attached.CreateJob :: calls ++ [Attached.RunJob]) ->
            In (Attached.AddOperations i k operations) calls) as Hcalls.
  { intros calls [H|H]; [discriminate H|].
    apply in_app_iff in H as [H|[H|[]]]; [exact H | discriminate H]. }
  intros H.
  assert (In (Attached.AddOperations i k operations)
            (List.concat (map snd (Attached.upload_batches cfg svc 0
               (Attached.operation_batches (o :: os) (Attached.API_BATCH_SIZE cfg))))))
    as Hin.
  { destruct (Attached.run_job_reply svc); apply Hcalls, H. }
  apply attached_upload_batches_events in Hin.
  rewrite Forall_forall. intros op Hop.
  rewrite Forall_forall in Hf. apply Hf.
  eapply attached_batches_incl; eassumption.
Qed.

(** A line of the CSV file whose fields are all empty. *)
Definition csv_blank_line : gmap string str :=
  <["email" := []]> (<["phone" := []]> (<["first_name" := []]>
    (<["last_name" := []]> (<["country" := []]> (<["zip" := []]> ∅))))).

(** C1, at the failing input.  The CSV uploader builds one operation
    for every customer, also for a line with no usable field: that
    operation has an empty identifier list and is handed to the upload
    with the others. *)
Theorem C1_csv_blank_line_uploaded :
  Csv.create_user_data_operations [csv_blank_line] = [Csv.mkOperation []]
  /\ forall customers,
       List.length (Csv.create_user_data_operations customers)
       = List.length customers.
Proof.
  split; [vm_compute; reflexivity|].
  intros customers. unfold Csv.create_user_data_operations. apply length_map.
Qed.


(** ** Names, state and postal code *)

Lemma postal_rule_some raw p :
  Spec.postal_rule raw = Some p <->
  (5 <= List.length (digits_only raw))%nat /\ p = firstn 5 (digits_only raw).
Proof. unfold Spec.postal_rule. bool_to_prop. tauto. Qed.

Lemma length_digits_only s : (List.length (digits_only s) <= List.length s)%nat.
Proof.
  unfold digits_only. induction s as [|c t IH]; simpl; [lia|].
  destruct (isdigit c); simpl; lia.
Qed.

Lemma main_us_address_stripped z :
  Main.us_address (Some (strip z))
  = (if (5 <=? List.length (strip z))%nat then Some (lit "US") else None,
     Spec.postal_rule z).
Proof.
  unfold Main.us_address, Spec.postal_rule.
  rewrite PyFacts.digits_only_strip.
  change 5 with (Z.of_nat 5). rewrite PyFacts.slice_prefix.
  pose proof (length_digits_only (strip z)) as Hd.
  rewrite PyFacts.digits_only_strip in Hd.
  rewrite PyFacts.truthy_length.
  destruct (5 <=? List.length (strip z))%nat eqn:H5.
  - apply Nat.leb_le in H5.
    replace (0 <? List.length (strip z))%nat with true
      by (symmetry; apply Nat.ltb_lt; lia).
    cbn [andb]. rewrite length_firstn.
    destruct (5 <=? List.length (digits_only z))%nat eqn:Hd5.
    + apply Nat.leb_le in Hd5.
      replace (Nat.min 5 (List.length (digits_only z)) =? 5)%nat with true
        by (symmetry; apply Nat.eqb_eq; lia).
      reflexivity.
    + apply Nat.leb_gt in Hd5.
      replace (Nat.min 5 (List.length (digits_only z)) =? 5)%nat with false
        by (symmetry; apply Nat.eqb_neq; lia).
      reflexivity.
  - apply Nat.leb_gt in H5. rewrite andb_false_r.
    replace (5 <=? List.length (digits_only z))%nat with false
      by (symmetry; apply Nat.leb_gt; lia).
    reflexivity.
Qed.

(** The main pipeline: country and postal code come from the zip column
    alone. *)
Lemma main_us_address_column col :
  Main.us_address (strip_or_none col)
  = match col with
    | Some z => (if (5 <=? List.length (strip z))%nat then Some (lit "US") else None,
                 Spec.postal_rule z)
    | None => (None, None)
    end.
Proof.
  destruct col as [z|]; [|reflexivity]. unfold strip_or_none.
  destruct (truthy z) eqn:Hz; [apply main_us_address_stripped|].
  destruct z; [reflexivity | discriminate Hz].
Qed.

Lemma attached_postal_column col :
  Attached.postal_code_to_use (strip_or_none col)
  = match col with Some z => Spec.postal_rule z | None => None end.
Proof.
  destruct col as [z|]; [|reflexivity]. unfold strip_or_none.
  destruct (truthy z) eqn:Hz; [|destruct z; [reflexivity | discriminate Hz]].
  unfold Attached.postal_code_to_use, Spec.postal_rule.
  rewrite PyFacts.digits_only_strip.
  change 5 with (Z.of_nat 5). rewrite PyFacts.slice_prefix.
  pose proof (length_digits_only (strip z)) as Hd.
  rewrite PyFacts.digits_only_strip in Hd.
  destruct (5 <=? List.length (digits_only z))%nat eqn:H5.
  - apply Nat.leb_le in H5. destruct (strip z); [simpl in Hd; lia | reflexivity].
  - destruct (truthy (strip z)); reflexivity.
Qed.

Lemma attached_country_column col c :
  Attached.country_code_to_use (strip_or_none col) = Some c <->
  c = lit "US" /\ exists s, col = Some s /\ List.length (upper (strip s)) = 2%nat.
Proof.
  destruct col as [s|]; simpl.
  2:{ split; [discriminate | intros (_ & s & E & _); discriminate E]. }
  destruct (truthy s) eqn:Hs.
  - unfold Attached.country_code_to_use.
    rewrite PyFacts.strip_idem.
    destruct (List.length (upper (strip s)) =? 2)%nat eqn:H2.
    + apply Nat.eqb_eq in H2.
      destruct (strip s) eqn:Es; [discriminate H2|]. cbn [truthy].
      split.
      * intros E; injection E as <-. split; [reflexivity|].
        exists s. rewrite Es. auto.
      * intros (-> & s' & E & _). reflexivity.
    + apply Nat.eqb_neq in H2.
      destruct (truthy (strip s));
        (split; [discriminate|]; intros (_ & s' & E & H'); injection E as <-; lia).
  - destruct s; [|discriminate Hs].
    split; [discriminate|]. intros (_ & s' & E & H'). injection E as <-.
    vm_compute in H'. discriminate H'.
Qed.

Lemma has_char_app c a b : has_char c (a ++ b) = has_char c a || has_char c b.
Proof. unfold has_char. apply existsb_app. Qed.

Lemma existsb_orb {A} (f g : A -> bool) (l : list A) :
  existsb (fun x => f x || g x) l = existsb f l || existsb g l.
Proof.
  induction l as [|x t IH]; simpl; [reflexivity|]. rewrite IH.
  destruct (f x), (g x), (existsb f t), (existsb g t); reflexivity.
Qed.

Lemma problem_chars_app a b :
  existsb (fun c => has_char c (a ++ b)) Main.problem_chars
  = existsb (fun c => has_char c a) Main.problem_chars
    || existsb (fun c => has_char c b) Main.problem_chars.
Proof.
  rewrite <- existsb_orb.
  induction Main.problem_chars as [|c t IH]; simpl; [reflexivity|].
  rewrite has_char_app, IH. reflexivity.
Qed.

Lemma strip_or_none_some col e :
  strip_or_none col = Some e -> exists raw, col = Some raw /\ e = strip raw.
Proof.
  destruct col as [raw|]; simpl; [|discriminate].
  destruct (truthy raw); [|discriminate].
  intros E; injection E as <-. eauto.
Qed.

(** Main pipeline: the names are hashed exactly when both pass the
    name rule, and then they are the digests of the normal forms. *)
Lemma main_names_hashed cf cl hf hl v sk :
  Main.hashed_names (strip_or_none cf) (strip_or_none cl) = (hf, hl, v, sk) ->
  (exists fr lr, cf = Some fr /\ cl = Some lr
     /\ Spec.name_rule fr = true /\ Spec.name_rule lr = true
     /\ hf = Some (sha256_hex (Spec.normalized fr))
     /\ hl = Some (sha256_hex (Spec.normalized lr))
     /\ v = true /\ sk = false)
  \/ (hf = None /\ hl = None /\ v = false).
Proof.
  unfold Main.hashed_names.
  destruct (strip_or_none cf) as [f|] eqn:Ef;
    [|intros E; injection E as <- <- <- <-; right; auto].
  destruct (strip_or_none cl) as [l|] eqn:El;
    [|intros E; injection E as <- <- <- <-; right; auto].
  apply strip_or_none_some in Ef as (fr & -> & ->).
  apply strip_or_none_some in El as (lr & -> & ->).
  rewrite !PyFacts.normalize_stripped, problem_chars_app.
  destruct (truthy (strip fr) && truthy (strip lr));
    [|intros E; injection E as <- <- <- <-; right; auto].
  fold (Spec.normalized fr). fold (Spec.normalized lr).
  set (pf := existsb (fun c => has_char c (Spec.normalized fr)) Main.problem_chars).
  set (pl := existsb (fun c => has_char c (Spec.normalized lr)) Main.problem_chars).
  assert (Rf : Spec.name_rule fr
               = negb pf && (2 <=? List.length (Spec.normalized fr))%nat) by reflexivity.
  assert (Rl : Spec.name_rule lr
               = negb pl && (2 <=? List.length (Spec.normalized lr))%nat) by reflexivity.
  destruct pf, pl, (2 <=? List.length (Spec.normalized fr))%nat,
           (2 <=? List.length (Spec.normalized lr))%nat;
    cbn [negb andb orb] in *; intros E; injection E as <- <- <- <-;
    first [ right; repeat split; reflexivity
          | left; exists fr, lr; repeat split; assumption ].
Qed.

Lemma main_names_accepted fr lr :
  Spec.name_rule fr = true -> Spec.name_rule lr = true ->
  Main.hashed_names (strip_or_none (Some fr)) (strip_or_none (Some lr))
  = (Some (sha256_hex (Spec.normalized fr)), Some (sha256_hex (Spec.normalized lr)),
     true, false).
Proof.
  unfold Spec.name_rule. bool_to_prop. intros [Pf Lf] [Pl Ll].
  assert (Hf : truthy fr = true).
  { destruct fr; [vm_compute in Lf; lia | reflexivity]. }
  assert (Hl : truthy lr = true).
  { destruct lr; [vm_compute in Ll; lia | reflexivity]. }
  unfold strip_or_none. rewrite Hf, Hl. unfold Main.hashed_names.
  rewrite !PyFacts.normalize_stripped, problem_chars_app.
  fold (Spec.normalized fr). fold (Spec.normalized lr).
  change Main.problem_chars with Spec.blacklist. rewrite Pf, Pl.
  assert (Tf : truthy (strip fr) = true).
  { rewrite PyFacts.truthy_length, <- PyFacts.length_lower, <- PyFacts.strip_lower.
    apply Nat.ltb_lt. unfold Spec.normalized in Lf. lia. }
  assert (Tl : truthy (strip lr) = true).
  { rewrite PyFacts.truthy_length, <- PyFacts.length_lower, <- PyFacts.strip_lower.
    apply Nat.ltb_lt. unfold Spec.normalized in Ll. lia. }
  rewrite Tf, Tl. cbn [andb orb negb].
  apply Nat.leb_le in Lf, Ll. rewrite Lf, Ll. reflexivity.
Qed.

(** Attached pipeline: [skip_name_for_address] stays false exactly when
    both names pass [_process_name]. *)
Lemma attached_names_hashed cf cl hf hl :
  Attached.process_names (strip_or_none cf) (strip_or_none cl) = (hf, hl, false) ->
  exists fr lr, cf = Some fr /\ cl = Some lr
     /\ attached_name_ok fr = true /\ attached_name_ok lr = true
     /\ hf = Some (sha256_hex (Spec.normalized fr))
     /\ hl = Some (sha256_hex (Spec.normalized lr)).
Proof.
  unfold Attached.process_names.
  destruct (strip_or_none cf) as [f|] eqn:Ef; [|discriminate].
  destruct (strip_or_none cl) as [l|] eqn:El; [|discriminate].
  apply strip_or_none_some in Ef as (fr & -> & ->).
  apply strip_or_none_some in El as (lr & -> & ->).
  destruct (negb (truthy (strip fr)) || negb (truthy (strip lr))); [discriminate|].
  unfold Attached.process_name. rewrite !PyFacts.normalize_stripped.
  unfold attached_name_ok, Spec.normalized. cbv zeta.
  destruct (existsb (fun c => has_char c (strip (lower fr))) Attached.problem_chars) eqn:Pf;
  destruct (existsb (fun c => has_char c (strip (lower lr))) Attached.problem_chars) eqn:Pl;
  destruct (List.length (strip (lower fr)) =? 0)%nat eqn:Zf;
  destruct (List.length (strip (lower lr)) =? 0)%nat eqn:Zl;
    cbn [negb andb orb]; intros E; try discriminate E;
    injection E as <- <-; exists fr, lr; rewrite Pf, Pl, Zf, Zl;
    repeat split; reflexivity.
Qed.

(** ** The address identifier *)

Lemma main_address_in_row lib row f l c p :
  In (Main.AddressInfo f l c p) (main_row_identifiers lib row) ->
  exists hf_valid,
    Main.hashed_names (strip_or_none (Main.col_first_name row))
                      (strip_or_none (Main.col_last_name row))
    = (Some f, Some l, hf_valid, false)
    /\ Main.us_address (strip_or_none (Main.col_zip row)) = (Some c, Some p).
Proof.
  unfold main_row_identifiers.
  destruct (Main.hashed_names _ _) as [[[hf hl] v] sk].
  destruct (Main.us_address _) as [country postal].
  rewrite !in_app_iff. intros [H|[H|H]].
  - destruct (Main.hashed_email _); simpl in H; [destruct H as [H|[]]; discriminate H | tauto].
  - destruct (Main.hashed_phone _ _); simpl in H; [destruct H as [H|[]]; discriminate H | tauto].
  - unfold Main.address_identifier in H.
    destruct country as [c'|], postal as [p'|], hf as [f'|], hl as [l'|];
      try (simpl in H; tauto).
    destruct sk; [rewrite !andb_false_r in H; simpl in H; tauto|].
    destruct (truthy c' && truthy p' && negb false); [|simpl in H; tauto].
    destruct H as [H|[]]. injection H as -> -> -> ->. eauto.
Qed.

Lemma attached_address_in_row lib row f l c p :
  In (Attached.AddressInfo f l c p) (attached_row_identifiers lib row) ->
  Attached.process_names (strip_or_none (Attached.col_first_name row))
                         (strip_or_none (Attached.col_last_name row))
  = (Some f, Some l, false)
  /\ Attached.country_code_to_use (strip_or_none (Attached.col_state row)) = Some c
  /\ Attached.postal_code_to_use (strip_or_none (Attached.col_zip row)) = Some p.
Proof.
  unfold attached_row_identifiers, Attached.build_identifiers.
  destruct (Attached.process_names _ _) as [[hf hl] sk].
  rewrite !in_app_iff. intros [H|[H|H]].
  - destruct (Attached.process_email _); simpl in H;
      [destruct H as [H|[]]; discriminate H | tauto].
  - destruct (Attached.process_phone _ _); simpl in H;
      [destruct H as [H|[]]; discriminate H | tauto].
  - unfold Attached.address_identifier in H.
    destruct hf as [f'|], hl as [l'|],
             (Attached.country_code_to_use _) as [c'|],
             (Attached.postal_code_to_use _) as [p'|];
      try (simpl in H; tauto).
    destruct sk; [simpl in H; tauto|].
    destruct (negb false && truthy c' && truthy p'); [|simpl in H; tauto].
    destruct H as [H|[]]. injection H as -> -> -> ->. auto.
Qed.

Lemma main_email_in_row lib row d :
  Main.hashed_email (strip_or_none (Main.col_email row)) = Some d ->
  In (Main.HashedEmail d) (main_row_identifiers lib row).
Proof.
  unfold main_row_identifiers. intros ->.
  destruct (Main.hashed_names _ _) as [[[hf hl] v] sk].
  destruct (Main.us_address _) as [country postal].
  left. reflexivity.
Qed.

Lemma main_phone_in_row lib row d :
  Main.hashed_phone lib (strip_or_none (Main.col_phone row)) = Some d ->
  In (Main.HashedPhoneNumber d) (main_row_identifiers lib row).
Proof.
  unfold main_row_identifiers. intros ->.
  destruct (Main.hashed_names _ _) as [[[hf hl] v] sk].
  destruct (Main.us_address _) as [country postal].
  rewrite !in_app_iff. right; left. left; reflexivity.
Qed.

Lemma attached_email_in_row lib row d :
  Attached.process_email (strip_or_none (Attached.col_email row)) = Some d ->
  In (Attached.HashedEmail d) (attached_row_identifiers lib row).
Proof.
  unfold attached_row_identifiers, Attached.build_identifiers. intros ->.
  destruct (Attached.process_names _ _) as [[hf hl] sk].
  left. reflexivity.
Qed.

Lemma attached_phone_in_row lib row d :
  Attached.process_phone lib (strip_or_none (Attached.col_phone row)) = Some d ->
  In (Attached.HashedPhoneNumber d) (attached_row_identifiers lib row).
Proof.
  unfold attached_row_identifiers, Attached.build_identifiers. intros ->.
  destruct (Attached.process_names _ _) as [[hf hl] sk].
  rewrite !in_app_iff. right; left. left; reflexivity.
Qed.

(** *** From the row to the list of prepared operations *)

(** Main pipeline: the operation a row appends carries the identifiers
    of that row, and a row with an identifier that passes the brand
    filter appends one. *)
Lemma main_row_appended lib b st row op :
  Main.processed_operations (Main.process_customer_row lib b st row)
  = Main.processed_operations st ++ [op] ->
  Main.user_identifiers op = main_row_identifiers lib row
  /\ Main.brand_mismatch b (main_brand_raw row) = false.
Proof.
  rewrite main_row_operations. intros E. apply app_inv_head in E.
  destruct (Main.brand_mismatch b (main_brand_raw row)); [discriminate E|].
  destruct (nonempty (main_row_identifiers lib row)); [|discriminate E].
  injection E as <-. split; reflexivity.
Qed.

Lemma main_row_appends lib b st row i :
  Main.brand_mismatch b (main_brand_raw row) = false ->
  In i (main_row_identifiers lib row) ->
  exists op,
    Main.processed_operations (Main.process_customer_row lib b st row)
    = Main.processed_operations st ++ [op]
    /\ In i (Main.user_identifiers op).
Proof.
  intros Hb Hi. rewrite main_row_operations, Hb.
  destruct (main_row_identifiers lib row) as [|x t] eqn:E; [destruct Hi|].
  cbn [nonempty]. eexists. split; [reflexivity|]. exact Hi.
Qed.

(** Attached pipeline: the same, for a row processed with a client
    whose calls return. *)
Lemma attached_row_appended lib client st row op :
  Attached.processed_operations (Attached.process_customer_row lib client st row)
  = Attached.processed_operations st ++ [op] ->
  Attached.user_identifiers op = attached_row_identifiers lib row
  /\ Attached.googleads_client st = true
  /\ client (Attached.total_rows_processed st) = Attached.CallsReturn.
Proof.
  rewrite attached_row_operations. intros E. apply app_inv_head in E.
  destruct (Attached.googleads_client st); [|discriminate E].
  destruct (nonempty (attached_row_identifiers lib row)); [|discriminate E].
  destruct (client (Attached.total_rows_processed st)); try discriminate E.
  injection E as <-. repeat split; reflexivity.
Qed.

Lemma attached_row_appends lib client st row i :
  Attached.googleads_client st = true ->
  client (Attached.total_rows_processed st) = Attached.CallsReturn ->
  In i (attached_row_identifiers lib row) ->
  exists op,
    Attached.processed_operations (Attached.process_customer_row lib client st row)
    = Attached.processed_operations st ++ [op]
    /\ In i (Attached.user_identifiers op).
Proof.
  intros Hc Hk Hi. rewrite attached_row_operations, Hc, Hk.
  destruct (attached_row_identifiers lib row) as [|x t] eqn:E; [destruct Hi|].
  cbn [nonempty andb attached_calls_return]. eexists. split; [reflexivity|]. exact Hi.
Qed.

(** What an address identifier of the main pipeline says about its row. *)
Lemma main_address_complete lib row f l c p :
  In (Main.AddressInfo f l c p) (main_row_identifiers lib row) ->
  exists fr lr z,
    Main.col_first_name row = Some fr /\ Main.col_last_name row = Some lr
    /\ Main.col_zip row = Some z
    /\ Spec.name_rule fr = true /\ Spec.name_rule lr = true
    /\ f = sha256_hex (Spec.normalized fr) /\ l = sha256_hex (Spec.normalized lr)
    /\ c = lit "US" /\ Spec.postal_rule z = Some p.
Proof.
  intros H. apply main_address_in_row in H as (v & Hn & Hz).
  destruct (main_names_hashed _ _ _ _ _ _ Hn)
    as [(fr & lr & Ef & El & Rf & Rl & Hf & Hl & _)|(Hf & _)]; [|discriminate Hf].
  rewrite main_us_address_column in Hz.
  destruct (Main.col_zip row) as [z|]; [|discriminate Hz].
  injection Hf as ->. injection Hl as ->.
  exists fr, lr, z.
  destruct (5 <=? List.length (strip z))%nat; [|discriminate Hz].
  injection Hz as <- Hp. repeat split; auto.
Qed.

(** What an address identifier of the attached pipeline says about its
    row. *)
Lemma attached_address_complete lib row f l c p :
  In (Attached.AddressInfo f l c p) (attached_row_identifiers lib row) ->
  exists fr lr s z,
    Attached.col_first_name row = Some fr /\ Attached.col_last_name row = Some lr
    /\ Attached.col_state row = Some s /\ Attached.col_zip row = Some z
    /\ attached_name_ok fr = true /\ attached_name_ok lr = true
    /\ f = sha256_hex (Spec.normalized fr) /\ l = sha256_hex (Spec.normalized lr)
    /\ c = lit "US" /\ List.length (upper (strip s)) = 2%nat
    /\ Spec.postal_rule z = Some p.
Proof.
  intros H. apply attached_address_in_row in H as (Hn & Hc & Hz).
  apply attached_names_hashed in Hn as (fr & lr & Ef & El & Rf & Rl & Hf & Hl).
  apply attached_country_column in Hc as (-> & s & Es & Hs).
  rewrite attached_postal_column in Hz.
  destruct (Attached.col_zip row) as [z|]; [|discriminate Hz].
  injection Hf as ->. injection Hl as ->.
  exists fr, lr, s, z. repeat split; auto.
Qed.

(** C2, counterexample.  The CSV uploader emits an address identifier
    for a customer whose only address field is the zip: the names and
    the country are left empty. *)
Lemma C2_csv_partial_address_counterexample :
  Csv.user_identifiers (Csv.create_operation {[ "zip"%string := lit "98101" ]})
  = [Csv.Address (Csv.mkAddressInfo None None [] (lit "98101"))].
Proof. vm_compute. reflexivity. Qed.

(** C2, as amended.  In both database pipelines an operation appended
    for a row carries an address identifier only when the first and
    last name of the row pass the pipeline's name test, the country
    code was set and the postal code has five digits; the identifier
    then carries all four components.  A row with a valid e-mail
    address or phone number appends an operation with that digest
    whatever its address columns hold, provided the row passes the brand
    filter (main pipeline), or the client is initialised and its calls
    return (attached pipeline).  The CSV uploader puts an address
    identifier into the operation of a customer as soon as one of the
    four address fields is non-empty. *)
Theorem C2_address_all_or_nothing :
  (forall lib b st row op f l c p,
     Main.processed_operations (Main.process_customer_row lib b st row)
     = Main.processed_operations st ++ [op] ->
     In (Main.AddressInfo f l c p) (Main.user_identifiers op) ->
     exists fr lr z,
       Main.col_first_name row = Some fr /\ Main.col_last_name row = Some lr
       /\ Main.col_zip row = Some z
       /\ Spec.name_rule fr = true /\ Spec.name_rule lr = true
       /\ f = sha256_hex (Spec.normalized fr) /\ l = sha256_hex (Spec.normalized lr)
       /\ c = lit "US" /\ Spec.postal_rule z = Some p)
  /\ (forall lib b st row d,
        Main.brand_mismatch b (main_brand_raw row) = false ->
        (Main.hashed_email (strip_or_none (Main.col_email row)) = Some d ->
         exists op,
           Main.processed_operations (Main.process_customer_row lib b st row)
           = Main.processed_operations st ++ [op]
           /\ In (Main.HashedEmail d) (Main.user_identifiers op))
        /\ (Main.hashed_phone lib (strip_or_none (Main.col_phone row)) = Some d ->
            exists op,
              Main.processed_operations (Main.process_customer_row lib b st row)
              = Main.processed_operations st ++ [op]
              /\ In (Main.HashedPhoneNumber d) (Main.user_identifiers op)))
  /\ (forall lib client st row op f l c p,
     Attached.processed_operations (Attached.process_customer_row lib client st row)
     = Attached.processed_operations st ++ [op] ->
     In (Attached.AddressInfo f l c p) (Attached.user_identifiers op) ->
     exists fr lr s z,
       Attached.col_first_name row = Some fr /\ Attached.col_last_name row = Some lr
       /\ Attached.col_state row = Some s /\ Attached.col_zip row = Some z
       /\ attached_name_ok fr = true /\ attached_name_ok lr = true
       /\ f = sha256_hex (Spec.normalized fr) /\ l = sha256_hex (Spec.normalized lr)
       /\ c = lit "US" /\ List.length (upper (strip s)) = 2%nat
       /\ Spec.postal_rule z = Some p)
  /\ (forall lib client st row d,
        Attached.googleads_client st = true ->
        client (Attached.total_rows_processed st) = Attached.CallsReturn ->
        (Attached.process_email (strip_or_none (Attached.col_email row)) = Some d ->
         exists op,
           Attached.processed_operations
             (Attached.process_customer_row lib client st row)
           = Attached.processed_operations st ++ [op]
           /\ In (Attached.HashedEmail d) (Attached.user_identifiers op))
        /\ (Attached.process_phone lib (strip_or_none (Attached.col_phone row)) = Some d ->
            exists op,
              Attached.processed_operations
                (Attached.process_customer_row lib client st row)
              = Attached.processed_operations st ++ [op]
              /\ In (Attached.HashedPhoneNumber d) (Attached.user_identifiers op)))
  /\ (forall customer : gmap string str,
        (exists a, In (Csv.Address a)
                      (Csv.user_identifiers (Csv.create_operation customer))) <->
        (Csv.present customer "first_name" = true
         \/ Csv.present customer "last_name" = true
         \/ Csv.present customer "country" = true
         \/ Csv.present customer "zip" = true)).
Proof.
  split; [|split; [|split; [|split]]].
  - intros lib b st row op f l c p E H.
    apply main_row_appended in E as [E _]. rewrite E in H.
    apply (main_address_complete lib row f l c p H).
  - intros lib b st row d Hb. split; intros H.
    + apply (main_row_appends lib b st row _ Hb), main_email_in_row, H.
    + apply (main_row_appends lib b st row _ Hb), main_phone_in_row, H.
  - intros lib client st row op f l c p E H.
    apply attached_row_appended in E as [E _]. rewrite E in H.
    apply (attached_address_complete lib row f l c p H).
  - intros lib client st row d Hc Hk. split; intros H.
    + apply (attached_row_appends lib client st row _ Hc Hk),
            attached_email_in_row, H.
    + apply (attached_row_appends lib client st row _ Hc Hk),
            attached_phone_in_row, H.
  - intros customer.
    unfold Csv.create_operation, Csv.email_identifier, Csv.phone_identifier,
           Csv.address_identifier.
    cbn [Csv.user_identifiers existsb].
    destruct (Csv.present customer "email"), (Csv.present customer "phone"),
             (Csv.present customer "first_name"),
             (Csv.present customer "last_name"),
             (Csv.present customer "country"),
             (Csv.present customer "zip"); cbn [orb app];
      (split;
       [ intros [a Ha]; simpl in Ha;
         first [ tauto
               | repeat (destruct Ha as [Ha|Ha]; try discriminate Ha);
                 try destruct Ha; tauto ]
       | intros H;
         first [ eexists; simpl; eauto 6; fail
               | exfalso; destruct H as [H|[H|[H|H]]]; discriminate H ] ]).
Qed.


(** ** State and postal code *)

(** A row with names and a zip, and no state code. *)
Definition row_without_state : Main.Row :=
  Main.mkRow None (Some (lit "Jane")) (Some (lit "Doe")) None None None
             (Some (lit "98101")) None None.

(** C5, counterexample.  The main pipeline sets the country code and
    emits the address for a row that has no state code at all; the
    attached pipeline accepts the two digits [12] as a state code. *)
Lemma C5_state_code_counterexample :
  (Main.col_state row_without_state = None
   /\ main_row_identifiers sample row_without_state
      = [Main.AddressInfo (sha256_hex (lit "jane")) (sha256_hex (lit "doe"))
                          (lit "US") (lit "98101")])
  /\ (Spec.state_rule (lit "12") = false
      /\ Attached.country_code_to_use (strip_or_none (Some (lit "12")))
         = Some (lit "US")).
Proof. vm_compute. repeat split. Qed.

(** C5, as amended.  Attached pipeline: the country code is set to US
    exactly when the trimmed state code, once upper-cased, has two
    characters, whatever they are; upper-casing keeps the length of a
    text of code points below 256 except that a sharp s becomes two
    letters, so every code of two letters is accepted, and so are two
    digits; the postal code is the first five digits of the zip when it
    has at least five; an operation with an address identifier is
    appended only for a row with both.  Main
    pipeline: the state column is not consulted; the country code is
    set to US when the trimmed zip has at least five characters, the
    postal code is the first five digits when there are at least five,
    and an operation with an address identifier is appended only for a
    row with both. *)
Theorem C5_state_and_postal :
  (forall col c,
     Attached.country_code_to_use (strip_or_none col) = Some c <->
     c = lit "US"
     /\ exists s, col = Some s /\ List.length (upper (strip s)) = 2%nat)
  /\ (forall s : str,
        List.length (upper s) = (List.length s + count sharp_s s)%nat)
  /\ (forall s, Spec.state_rule s = true ->
        Attached.country_code_to_use (strip_or_none (Some s)) = Some (lit "US"))
  /\ (forall col,
        Attached.postal_code_to_use (strip_or_none col)
        = match col with Some z => Spec.postal_rule z | None => None end)
  /\ (forall lib client st row op f l c p,
        Attached.processed_operations
          (Attached.process_customer_row lib client st row)
        = Attached.processed_operations st ++ [op] ->
        In (Attached.AddressInfo f l c p) (Attached.user_identifiers op) ->
        Attached.country_code_to_use (strip_or_none (Attached.col_state row)) = Some c
        /\ Attached.postal_code_to_use (strip_or_none (Attached.col_zip row)) = Some p)
  /\ (forall col,
        Main.us_address (strip_or_none col)
        = match col with
          | Some z => (if (5 <=? List.length (strip z))%nat
                       then Some (lit "US") else None,
                       Spec.postal_rule z)
          | None => (None, None)
          end)
  /\ (forall lib b st row state,
        Main.processed_operations
          (Main.process_customer_row lib b st (main_with_state row state))
        = Main.processed_operations (Main.process_customer_row lib b st row))
  /\ (forall lib b st row op f l c p,
        Main.processed_operations (Main.process_customer_row lib b st row)
        = Main.processed_operations st ++ [op] ->
        In (Main.AddressInfo f l c p) (Main.user_identifiers op) ->
        Main.us_address (strip_or_none (Main.col_zip row)) = (Some c, Some p)).
Proof.
  split; [|split; [|split; [|split; [|split; [|split; [|split]]]]]].
  - apply attached_country_column.
  - apply PyFacts.length_upper.
  - intros s. unfold Spec.state_rule. bool_to_prop. intros [H2 Ha].
    apply attached_country_column. split; [reflexivity|]. exists s.
    split; [reflexivity|]. rewrite PyFacts.length_upper_letters; assumption.
  - apply attached_postal_column.
  - intros lib client st row op f l c p E H.
    apply attached_row_appended in E as [E _]. rewrite E in H.
    apply attached_address_in_row in H as (_ & Hc & Hp). auto.
  - apply main_us_address_column.
  - intros lib b st row state. reflexivity.
  - intros lib b st row op f l c p E H.
    apply main_row_appended in E as [E _]. rewrite E in H.
    apply main_address_in_row in H as (v & _ & Hz). exact Hz.
Qed.


(** ** The phone normalizer *)

Lemma e164_starts_with_plus n :
  exists rest, format_number_E164 n = "+"%char :: rest.
Proof. unfold format_number_E164. simpl. eauto. Qed.

Lemma main_phone_normal_form lib raw h :
  Main.hashed_phone lib (strip_or_none (Some raw)) = Some h <->
  (10 <= List.length (strip raw))%nat /\ digits_only raw <> []
  /\ exists n, Spec.phone_parse lib raw = Some n
              /\ is_valid_number lib n = true
              /\ h = sha256_hex (format_number_E164 n).
Proof.
  unfold strip_or_none.
  destruct (truthy raw) eqn:Hraw.
  - unfold Main.hashed_phone, Spec.phone_parse.
    rewrite PyFacts.digits_only_strip.
    change (Main.parse_phone lib (digits_only raw))
      with (Spec.phone_parse lib raw).
    unfold Spec.phone_parse.
    set (found := match parse lib (digits_only raw) (Some (lit "US")) with
                  | Some n => Some n
                  | None => if startswith (lit "1") (digits_only raw)
                               && (10 <? List.length (digits_only raw))%nat
                            then parse lib (lit "+" ++ digits_only raw) None
                            else None
                  end).
    rewrite if_none_some, andb_true_iff, Nat.leb_le, if_none_some.
    split.
    + intros [[_ H10] [Hd Hf]].
      split; [exact H10|]. split; [destruct (digits_only raw); [discriminate Hd | discriminate]|].
      destruct found as [n|]; [|discriminate Hf].
      exists n. apply if_none_some in Hf as [Hv Hh].
      injection Hh as <-. auto.
    + intros (H10 & Hd & n & Hf & Hv & ->).
      split; [split; [|exact H10]|].
      * destruct (strip raw); [simpl in H10; lia | reflexivity].
      * split; [destruct (digits_only raw); [contradiction | reflexivity]|].
        rewrite Hf, Hv. reflexivity.
  - destruct raw; [|discriminate Hraw]. simpl.
    split; [discriminate|]. intros (H & _). vm_compute in H. lia.
Qed.

Lemma attached_phone_normal_form lib raw h :
  Attached.process_phone lib (strip_or_none (Some raw)) = Some h <->
  raw <> [] /\ strip raw <> []
  /\ (7 <= List.length (digits_only raw))%nat
  /\ exists n, parse lib (strip raw) (Some (lit "US")) = Some n
              /\ is_valid_number lib n = true
              /\ h = sha256_hex (format_number_E164 n).
Proof.
  unfold strip_or_none.
  destruct raw as [|c t]; cbn [truthy].
  { split; [discriminate | intros (H & _); contradiction]. }
  set (raw := c :: t).
  unfold Attached.process_phone. rewrite PyFacts.digits_only_strip.
  change Attached.default_region with (lit "US").
  destruct (strip raw) as [|c' t'] eqn:Es; cbn [truthy negb].
  { split; [discriminate | intros (_ & H & _); contradiction]. }
  rewrite if_none_some, Nat.leb_le.
  split.
  - intros [H7 Hp]. repeat split; try discriminate; auto.
    destruct (parse lib (c' :: t') (Some (lit "US"))) as [n|]; [|discriminate Hp].
    exists n. apply if_none_some in Hp as [Hv Hp].
    destruct (e164_starts_with_plus n) as [rest E]. rewrite E in Hp.
    simpl in Hp. injection Hp as <-. rewrite E. auto.
  - intros (_ & _ & H7 & n & Hp & Hv & ->). split; [exact H7|].
    rewrite Hp, Hv.
    destruct (e164_starts_with_plus n) as [rest E]. rewrite E. reflexivity.
Qed.

(** The CSV uploader hashes a phone field as it stands, trimmed and
    lower-cased. *)
Lemma csv_phone_hashed_as_given (customer : gmap string str) (raw : str) :
  customer !! "phone"%string = Some raw -> raw <> [] ->
  Csv.phone_identifier customer
  = [Csv.HashedPhoneNumber (Some (sha256_hex (lower (strip raw))))].
Proof.
  intros E Hraw.
  unfold Csv.phone_identifier, Csv.present, Csv.field_of, Csv.hash_data.
  rewrite E. simpl. destruct raw; [contradiction | reflexivity].
Qed.

(** C7, counterexample.  The attached pipeline parses the text of the
    column, not its digits: for [+44 20 7946 0958] it hashes
    [+442079460958], while the digits parsed under region US, as the
    claim has it, are the number [+1442079460958].  The CSV uploader
    hashes [555-1234] itself, which is the E.164 form of no number. *)
Lemma C7_phone_paths_counterexample :
  (Attached.process_phone sample (strip_or_none (Some (lit "+44 20 7946 0958")))
   = Some (sha256_hex (lit "+442079460958"))
   /\ option_map format_number_E164
        (Spec.phone_parse sample (lit "+44 20 7946 0958"))
      = Some (lit "+1442079460958"))
  /\ (Csv.phone_identifier {[ "phone"%string := lit "555-1234" ]}
      = [Csv.HashedPhoneNumber (Some (sha256_hex (lit "555-1234")))]
      /\ forall n, sha256_hex (format_number_E164 n) <> sha256_hex (lit "555-1234")).
Proof.
  split; [split; vm_compute; reflexivity|].
  split; [vm_compute; reflexivity|].
  intros n E. destruct (e164_starts_with_plus n) as [rest R].
  rewrite R in E. discriminate E.
Qed.

Lemma main_no_phone_in_row lib row h :
  Main.hashed_phone lib (strip_or_none (Main.col_phone row)) = None ->
  ~ In (Main.HashedPhoneNumber h) (main_row_identifiers lib row).
Proof.
  unfold main_row_identifiers. intros ->.
  destruct (Main.hashed_names _ _) as [[[hf hl] v] sk].
  destruct (Main.us_address _) as [country postal].
  rewrite !in_app_iff. intros [H|[H|H]].
  - destruct (Main.hashed_email _); simpl in H;
      [destruct H as [H|[]]; discriminate H | exact H].
  - exact H.
  - unfold Main.address_identifier in H.
    repeat match type of H with
           | In _ (match ?x with _ => _ end) => destruct x
           end;
      simpl in H; try exact H; destruct H as [H|[]]; discriminate H.
Qed.

Lemma attached_no_phone_in_row lib row h :
  Attached.process_phone lib (strip_or_none (Attached.col_phone row)) = None ->
  ~ In (Attached.HashedPhoneNumber h) (attached_row_identifiers lib row).
Proof.
  unfold attached_row_identifiers, Attached.build_identifiers. intros ->.
  destruct (Attached.process_names _ _) as [[hf hl] sk].
  rewrite !in_app_iff. intros [H|[H|H]].
  - destruct (Attached.process_email _); simpl in H;
      [destruct H as [H|[]]; discriminate H | exact H].
  - exact H.
  - unfold Attached.address_identifier in H.
    repeat match type of H with
           | In _ (match ?x with _ => _ end) => destruct x
           end;
      simpl in H; try exact H; destruct H as [H|[]]; discriminate H.
Qed.

(** C7, as amended.  Main pipeline: a phone column of at least ten
    characters (trimmed) with at least one digit yields the digest of
    the E.164 form of the number obtained from its digits, parsed under
    region US with the +-prefixed second attempt, when that number is
    valid; otherwise nothing.  Attached pipeline: a phone column with at
    least seven digits yields the digest of the E.164 form of the number
    parsed from the trimmed text itself under region US, with no second
    attempt.  CSV uploader: every non-empty phone field yields the
    digest of the field itself, trimmed and lower-cased, with no parse
    and no validity test.  In both database pipelines a phone that
    yields nothing does not abort the row: a row with a valid e-mail
    address still appends its operation, with the e-mail digest and
    without a phone identifier. *)
Theorem C7_phone_normalizer :
  (forall lib raw h,
     Main.hashed_phone lib (strip_or_none (Some raw)) = Some h <->
     (10 <= List.length (strip raw))%nat /\ digits_only raw <> []
     /\ exists n, Spec.phone_parse lib raw = Some n
                 /\ is_valid_number lib n = true
                 /\ h = sha256_hex (format_number_E164 n))
  /\ (forall lib raw h,
     Attached.process_phone lib (strip_or_none (Some raw)) = Some h <->
     raw <> [] /\ strip raw <> []
     /\ (7 <= List.length (digits_only raw))%nat
     /\ exists n, parse lib (strip raw) (Some (lit "US")) = Some n
                 /\ is_valid_number lib n = true
                 /\ h = sha256_hex (format_number_E164 n))
  /\ (forall (customer : gmap string str) raw,
        customer !! "phone"%string = Some raw -> raw <> [] ->
        In (Csv.HashedPhoneNumber (Some (sha256_hex (lower (strip raw)))))
           (Csv.user_identifiers (Csv.create_operation customer)))
  /\ (forall lib b st row d,
        Main.brand_mismatch b (main_brand_raw row) = false ->
        Main.hashed_phone lib (strip_or_none (Main.col_phone row)) = None ->
        Main.hashed_email (strip_or_none (Main.col_email row)) = Some d ->
        exists op,
          Main.processed_operations (Main.process_customer_row lib b st row)
          = Main.processed_operations st ++ [op]
          /\ In (Main.HashedEmail d) (Main.user_identifiers op)
          /\ forall h, ~ In (Main.HashedPhoneNumber h) (Main.user_identifiers op))
  /\ (forall lib client st row d,
        Attached.googleads_client st = true ->
        client (Attached.total_rows_processed st) = Attached.CallsReturn ->
        Attached.process_phone lib (strip_or_none (Attached.col_phone row)) = None ->
        Attached.process_email (strip_or_none (Attached.col_email row)) = Some d ->
        exists op,
          Attached.processed_operations
            (Attached.process_customer_row lib client st row)
          = Attached.processed_operations st ++ [op]
          /\ In (Attached.HashedEmail d) (Attached.user_identifiers op)
          /\ forall h, ~ In (Attached.HashedPhoneNumber h)
                            (Attached.user_identifiers op)).
Proof.
  split; [|split; [|split; [|split]]].
  - apply main_phone_normal_form.
  - apply attached_phone_normal_form.
  - intros customer raw E Hraw.
    unfold Csv.create_operation. cbn [Csv.user_identifiers].
    rewrite (csv_phone_hashed_as_given customer raw E Hraw).
    rewrite !in_app_iff. right; left. left; reflexivity.
  - intros lib b st row d Hb Hp He.
    destruct (main_row_appends lib b st row _ Hb (main_email_in_row lib row d He))
      as (op & E & Hin).
    exists op. split; [exact E|]. split; [exact Hin|].
    apply main_row_appended in E as [E _]. rewrite E.
    intros h. apply main_no_phone_in_row, Hp.
  - intros lib client st row d Hc Hk Hp He.
    destruct (attached_row_appends lib client st row _ Hc Hk
                (attached_email_in_row lib row d He)) as (op & E & Hin).
    exists op. split; [exact E|]. split; [exact Hin|].
    apply attached_row_appended in E as [E _]. rewrite E.
    intros h. apply attached_no_phone_in_row, Hp.
Qed.

(** ** Batches *)

Section Batches.

Context {A : Type}.
Implicit Types (ops : list A) (b k : nat).

(** The [k]-th consecutive slice of width [b]. *)
Definition chunk ops b k : list A := firstn b (skipn (k * b) ops).

Lemma firstn_plus ops : forall a c,
  firstn (a + c) ops = firstn a ops ++ firstn c (skipn a ops).
Proof.
  induction ops as [|x t IH]; intros a c.
  - rewrite skipn_nil, !firstn_nil. reflexivity.
  - destruct a as [|a]; [reflexivity|]. simpl. f_equal. apply IH.
Qed.

Lemma concat_chunks ops b : forall j,
  List.concat (map (chunk ops b) (seq 0 j)) = firstn (j * b) ops.
Proof.
  induction j as [|j IH]; [reflexivity|].
  rewrite seq_S, map_app, concat_app, IH. simpl.
  rewrite app_nil_r. unfold chunk.
  rewrite <- firstn_plus. f_equal. lia.
Qed.

Lemma length_chunk ops b k :
  List.length (chunk ops b k) = Nat.min b (List.length ops - k * b).
Proof. unfold chunk. rewrite length_firstn, length_skipn. reflexivity. Qed.

Lemma slice_window ops (start width : Z) :
  0 <= start -> 0 <= width ->
  slice ops start (start + width)
  = firstn (Z.to_nat width) (skipn (Z.to_nat start) ops).
Proof.
  intros Hs Hw. unfold slice, clamp_index.
  set (n := List.length ops).
  replace (start <? 0) with false by (symmetry; apply Z.ltb_ge; lia).
  replace (start + width <? 0) with false by (symmetry; apply Z.ltb_ge; lia).
  destruct (Z_le_gt_dec start (Z.of_nat n)) as [Hle|Hgt].
  - replace (Z.to_nat (Z.min start (Z.of_nat n))) with (Z.to_nat start) by lia.
    assert (Hl : List.length (skipn (Z.to_nat start) ops) = (n - Z.to_nat start)%nat)
      by apply length_skipn.
    destruct (Z_le_gt_dec (start + width) (Z.of_nat n)) as [Hle2|Hgt2].
    + f_equal. lia.
    + replace (Z.to_nat (Z.min (start + width) (Z.of_nat n)) - Z.to_nat start)%nat
        with (n - Z.to_nat start)%nat by lia.
      rewrite <- Hl, firstn_all. symmetry. apply firstn_all2. lia.
  - replace (Z.to_nat (Z.min start (Z.of_nat n))) with n by lia.
    replace (Z.to_nat (Z.min (start + width) (Z.of_nat n)) - n)%nat
      with 0%nat by lia.
    rewrite (skipn_all2 (n := Z.to_nat start) ops) by (fold n; lia).
    rewrite firstn_nil. reflexivity.
Qed.

(** Clamping the end of a slice to the length changes nothing. *)
Lemma slice_min_length ops (start stop : Z) :
  0 <= stop ->
  slice ops start (Z.min stop (Z.of_nat (List.length ops))) = slice ops start stop.
Proof.
  intros Hs. unfold slice. f_equal. f_equal. unfold clamp_index.
  replace (stop <? 0) with false by (symmetry; apply Z.ltb_ge; lia).
  replace (Z.min stop (Z.of_nat (List.length ops)) <? 0) with false
    by (symmetry; apply Z.ltb_ge; lia).
  f_equal. lia.
Qed.

(** The slice taken by the main pipeline is the [k]-th chunk. *)
Lemma main_current_batch ops (batch_size : Z) k :
  0 < batch_size ->
  Main.current_batch ops batch_size k = chunk ops (Z.to_nat batch_size) k.
Proof.
  intros Hb. unfold Main.current_batch, chunk.
  assert (Hs : 0 <= Z.of_nat k * batch_size) by nia.
  rewrite slice_min_length by lia.
  rewrite slice_window by lia. f_equal. f_equal. nia.
Qed.

Lemma main_batches_chunks ops (batch_size : Z) :
  0 < batch_size ->
  Main.batches ops batch_size
  = map (chunk ops (Z.to_nat batch_size))
        (seq 0 (Z.to_nat ((Z.of_nat (List.length ops) + batch_size - 1) / batch_size))).
Proof.
  intros Hb. unfold Main.batches, Main.batches_count.
  apply map_ext. intros k. apply main_current_batch, Hb.
Qed.

(** The list comprehension of the attached pipeline takes the same
    slices. *)
Lemma attached_batches_chunks ops (batch_size : Z) :
  0 < batch_size ->
  Attached.operation_batches ops batch_size
  = map (chunk ops (Z.to_nat batch_size))
        (seq 0 (Z.to_nat ((Z.of_nat (List.length ops) + batch_size - 1) / batch_size))).
Proof.
  intros Hb. unfold Attached.operation_batches, range, range_length.
  replace (0 <? batch_size) with true by (symmetry; apply Z.ltb_lt; lia).
  set (n := Z.of_nat (List.length ops)).
  assert (El : (if n <=? 0 then 0%nat else Z.to_nat ((n - 0 - 1) / batch_size + 1))
               = Z.to_nat ((n + batch_size - 1) / batch_size)).
  { destruct (n <=? 0) eqn:Hn.
    - apply Z.leb_le in Hn. assert (n = 0) as -> by (unfold n in *; lia).
      rewrite Z.div_small by lia. reflexivity.
    - f_equal. replace (n + batch_size - 1) with (n - 0 - 1 + 1 * batch_size) by lia.
      rewrite Z_div_plus by lia. reflexivity. }
  rewrite El, map_map. apply map_ext. intros k.
  assert (Hs : 0 <= Z.of_nat k * batch_size) by nia.
  rewrite Z.add_0_l, slice_window by lia.
  unfold chunk. f_equal. f_equal. nia.
Qed.

End Batches.

(** C8, counterexample.  12,001 records with batch size 2,500 make
    five batches, and the last one holds 2,001 records, not 1,001: the
    sizes stated add up to 11,001. *)
Lemma C8_scenario_counterexample :
  map (fun b => Z.of_nat (List.length b))
      (Main.batches (repeat tt (Z.to_nat 12001)) 2500)
  = [2500; 2500; 2500; 2500; 2001]
  /\ map (fun b => Z.of_nat (List.length b))
         (Main.batches (repeat tt (Z.to_nat 12001)) 2500)
     <> [2500; 2500; 2500; 2500; 1001].
Proof.
  assert (E : map (fun b => Z.of_nat (List.length b))
                  (Main.batches (repeat tt (Z.to_nat 12001)) 2500)
              = [2500; 2500; 2500; 2500; 2001]) by (vm_compute; reflexivity).
  split; [exact E|]. rewrite E. discriminate.
Qed.

(** C8, as amended.  For a positive batch size the main pipeline cuts
    the list of records into ceiling(count / size) batches, the [k]-th
    being the [k]-th consecutive slice of that width, so that the
    batches put end to end are the list; the attached pipeline makes the
    same batches; and 12,001 records with batch size 2,500 give five
    batches of sizes 2500, 2500, 2500, 2500 and 2001. *)
Theorem C8_batch_partition (A : Type) (ops : list A) (batch_size : Z) :
  0 < batch_size ->
  let n := Z.of_nat (List.length ops) in
  let bs := Main.batches ops batch_size in
  let m := Z.of_nat (List.length bs) in
  (n <= m * batch_size < n + batch_size)
  /\ (forall k, (k < List.length bs)%nat ->
        nth k bs [] = firstn (Z.to_nat batch_size)
                             (skipn (k * Z.to_nat batch_size) ops))
  /\ List.concat bs = ops
  /\ Attached.operation_batches ops batch_size = bs
  /\ (n = 12001 -> batch_size = 2500 ->
      map (fun b => Z.of_nat (List.length b)) bs = [2500; 2500; 2500; 2500; 2001]).
Proof.
  intros Hb n bs m.
  assert (Ebs : bs = map (chunk ops (Z.to_nat batch_size))
                         (seq 0 (Z.to_nat ((n + batch_size - 1) / batch_size))))
    by (apply main_batches_chunks, Hb).
  assert (Hq : 0 <= (n + batch_size - 1) / batch_size)
    by (apply Z.div_pos; unfold n; lia).
  assert (Em : m = (n + batch_size - 1) / batch_size).
  { unfold m. rewrite Ebs, length_map, length_seq. lia. }
  assert (Hceil : n <= m * batch_size < n + batch_size).
  { rewrite Em.
    pose proof (Z.div_mod (n + batch_size - 1) batch_size ltac:(lia)) as Hd.
    pose proof (Z.mod_pos_bound (n + batch_size - 1) batch_size Hb) as Hr.
    nia. }
  split; [exact Hceil|]. split; [|split; [|split]].
  - intros k Hk. rewrite Ebs in *. rewrite length_map, length_seq in Hk.
    rewrite (nth_indep _ [] (chunk ops (Z.to_nat batch_size) 0))
      by (rewrite length_map, length_seq; exact Hk).
    rewrite map_nth, seq_nth by exact Hk. reflexivity.
  - rewrite Ebs, concat_chunks. apply firstn_all2.
    unfold n in *. nia.
  - rewrite Ebs. apply attached_batches_chunks, Hb.
  - intros Hlen ->. rewrite Ebs, Hlen.
    change (Z.to_nat ((12001 + 2500 - 1) / 2500)) with 5%nat.
    cbn [seq map]. rewrite !length_chunk. unfold n in Hlen.
    repeat (f_equal; [lia|]). f_equal. lia.
Qed.

(** C8 at five records and batch size two. *)
Lemma C8_batch_partition_witness :
  0 < 2
  /\ Main.batches [1; 2; 3; 4; 5]%nat 2 = [[1; 2]; [3; 4]; [5]]%nat
  /\ List.concat (Main.batches [1; 2; 3; 4; 5]%nat 2) = [1; 2; 3; 4; 5]%nat
  /\ Attached.operation_batches [1; 2; 3; 4; 5]%nat 2
     = Main.batches [1; 2; 3; 4; 5]%nat 2.
Proof.
  split; [lia|]. split; [reflexivity|].
  pose proof (C8_batch_partition nat [1; 2; 3; 4; 5]%nat 2 ltac:(lia)) as H.
  cbv zeta in H. destruct H as (_ & _ & Hc & Ha & _). split; assumption.
Defined.

(** ** The result of an upload run *)

(** Main pipeline: the flag returned does not look at the batches. *)
Lemma main_upload_result client_ok cfg svc st :
  Main.processed_operations st <> [] ->
  (fst (Main.upload_to_google_ads client_ok cfg svc st) = true <->
   client_ok = true
   /\ Main.get_service_reply svc = Main.Returns
   /\ Main.create_job_reply svc = Main.Returns
   /\ Main.API_BATCH_SIZE cfg <> 0
   /\ Main.run_job_reply svc = Main.Returns).
Proof.
  intros Hops. unfold Main.upload_to_google_ads.
  destruct client_ok; cbn [negb]; [|simpl; intuition discriminate].
  destruct (Main.processed_operations st) as [|o os]; [contradiction|].
  destruct (Main.get_service_reply svc); [|simpl; intuition discriminate].
  destruct (Main.create_job_reply svc); [|simpl; intuition discriminate].
  destruct (Main.API_BATCH_SIZE cfg =? 0) eqn:Hb.
  - apply Z.eqb_eq in Hb. simpl. intuition (try discriminate; try lia).
  - apply Z.eqb_neq in Hb.
    destruct (Main.run_job_reply svc); simpl; intuition (try discriminate).
Qed.


(** One prepared record, and a service that refuses every batch with an
    error that is not a concurrent modification. *)
Definition one_record : Main.Uploader :=
  Main.mkUploader 1 1 0 0 1
    [Main.mkOperation [Main.HashedEmail (sha256_hex (lit "jane.doe@example.com"))]
                      (Some (lit "C1")) (lit "None") (lit "unspecified")].

Definition refusing_service : Main.Service :=
  Main.mkService Main.Returns Main.Returns
                 (fun _ _ => Main.Raises (lit "INVALID_ARGUMENT"))
                 Main.Returns.

(** C3, at the failing input.  In the main pipeline the only batch is
    refused, no batch succeeds, the job is run, and the upload returns
    success. *)
Theorem C3_main_success_without_batches :
  Main.upload_to_google_ads true Main.default_config refusing_service one_record
  = (true,
     [Main.CreateJob;
      Main.AddOperations 0 0
        [[Main.HashedEmail (sha256_hex (lit "jane.doe@example.com"))]];
      Main.RunJob])
  /\ Main.successful_batches Main.default_config refusing_service one_record = 0%nat.
Proof. vm_compute. split; reflexivity. Qed.

(** ** Retries *)

Section MainRetries.

Variable reply : nat -> Main.Reply.


(** Attempts are numbered consecutively from the first one. *)
Lemma main_attempts_consecutive : forall r a,
  exists len, (len <= r)%nat /\ snd (Main.add_with_retries reply a r) = seq a len.
Proof.
  induction r as [|r IH]; intros a; simpl.
  - exists 0%nat. split; [lia | reflexivity].
  - destruct (reply a) as [|msg].
    + exists 1%nat. split; [lia | reflexivity].
    + destruct (Main.is_concurrent_modification msg).
      * destruct (IH (S a)) as (len & Hl & E).
        destruct (Main.add_with_retries reply (S a) r) as [ok made].
        simpl in *. exists (S len). split; [lia|]. simpl. f_equal. exact E.
      * exists 1%nat. split; [lia | reflexivity].
Qed.



End MainRetries.

Section AttachedRetries.

Variable reply : nat -> Attached.AddReply.
Variable max_retries : Z.





End AttachedRetries.

(** Every batch is handled, whatever happened to the ones before. *)
Lemma main_upload_batches_length cfg svc bs : forall i,
  List.length (Main.upload_batches cfg svc i bs) = List.length bs.
Proof. induction bs as [|b rest IH]; intros i; simpl; [reflexivity | f_equal; apply IH]. Qed.





(** ** The job monitor *)

Section Monitor.

Variable svc : Main.JobService.
Variable timeout_seconds : Q.

(** A turn of the loop that leads to another one: the timeout has not
    elapsed and the status read is none of 5, 4 and 6. *)
Definition goes_on (j : nat) : Prop :=
  (Main.elapsed svc j < timeout_seconds)%Q
  /\ exists status, Main.polls svc j = Main.Status status
                    /\ status <> 5 /\ status <> 4 /\ status <> 6.

(** The four ways the loop can end at its [n]-th test, with the value
    returned and the last log line. *)
Inductive ending (n : nat) : bool -> Main.LogLine -> Prop :=
| EndTimedOut :
    (timeout_seconds <= Main.elapsed svc n)%Q ->
    ending n false (Main.WarningTimedOut timeout_seconds)
| EndCompleted :
    (Main.elapsed svc n < timeout_seconds)%Q ->
    Main.polls svc n = Main.Status 5 ->
    ending n true Main.InfoCompleted
| EndFailed status :
    (Main.elapsed svc n < timeout_seconds)%Q ->
    status = 4 \/ status = 6 ->
    Main.polls svc n = Main.Status status ->
    ending n false (Main.ErrorJobFailed status)
| EndException :
    (Main.elapsed svc n < timeout_seconds)%Q ->
    Main.polls svc n = Main.PollRaises ->
    ending n false Main.ExceptionMonitoring.

(** The loop leaves at the latest when the timeout is seen elapsed. *)
Lemma wait_loop_returns : forall f k log,
  (timeout_seconds <= Main.elapsed svc (k + f))%Q ->
  exists r, Main.wait_loop (S f) svc k timeout_seconds log = Some r.
Proof.
  induction f as [|f IH]; intros k log Hend; cbn [Main.wait_loop].
  - rewrite Nat.add_0_r in Hend.
    destruct (Qlt_le_dec (Main.elapsed svc k) timeout_seconds) as [Hlt|Hge];
      [|eauto].
    exfalso. apply (Qlt_not_le _ _ Hlt), Hend.
  - destruct (Qlt_le_dec (Main.elapsed svc k) timeout_seconds) as [Hlt|Hge];
      [|eauto].
    destruct (Main.polls svc k) as [status|]; [|eauto].
    destruct (status =? 5); [eauto|].
    destruct ((status =? 4) || (status =? 6)); [eauto|].
    apply IH. replace (S k + f)%nat with (k + S f)%nat by lia. exact Hend.
Qed.

(** How a run of the loop ends, and what came before. *)
Lemma wait_loop_ending : forall fuel k log r log',
  Main.wait_loop fuel svc k timeout_seconds log = Some (r, log') ->
  exists pre last n,
    log' = pre ++ [last] /\ (k <= n < k + fuel)%nat
    /\ (forall j, (k <= j < n)%nat -> goes_on j)
    /\ ending n r last.
Proof.
  induction fuel as [|fuel IH]; intros k log r log'; [discriminate|].
  cbn [Main.wait_loop].
  destruct (Qlt_le_dec (Main.elapsed svc k) timeout_seconds) as [Hlt|Hge].
  - destruct (Main.polls svc k) as [status|] eqn:Ek.
    + destruct (status =? 5) eqn:E5.
      * intros E; injection E as <- <-. apply Z.eqb_eq in E5. subst status.
        eexists _, _, k. split; [reflexivity|]. split; [lia|].
        split; [intros j Hj; lia|]. constructor; assumption.
      * destruct ((status =? 4) || (status =? 6)) eqn:E46.
        -- intros E; injection E as <- <-.
           eexists _, _, k. split; [reflexivity|]. split; [lia|].
           split; [intros j Hj; lia|]. constructor; try assumption.
           apply orb_prop in E46 as [E|E]; apply Z.eqb_eq in E; auto.
        -- intros E. apply IH in E as (pre & last & n & El & Hn & Hpre & Hend).
           exists pre, last, n. split; [exact El|]. split; [lia|].
           split; [|exact Hend].
           intros j Hj. destruct (Nat.eq_dec j k) as [->|Hne].
           ++ split; [exact Hlt|]. exists status. split; [exact Ek|].
              apply Z.eqb_neq in E5. apply orb_false_elim in E46 as [E4 E6].
              apply Z.eqb_neq in E4, E6. auto.
           ++ apply Hpre. lia.
    + intros E; injection E as <- <-.
      eexists _, _, k. split; [reflexivity|]. split; [lia|].
      split; [intros j Hj; lia|]. constructor; assumption.
  - intros E; injection E as <- <-.
    eexists _, _, k. split; [reflexivity|]. split; [lia|].
    split; [intros j Hj; lia|]. constructor; assumption.
Qed.

(** With sleeps measured as ten seconds or more, the timeout is seen
    elapsed by the test counted by [enough_fuel]. *)
Lemma enough_fuel_covers :
  (forall k, (10 * inject_Z (Z.of_nat k) <= Main.elapsed svc k)%Q) ->
  (timeout_seconds
   <= Main.elapsed svc (Z.to_nat (Qceiling (timeout_seconds / 10))))%Q.
Proof.
  intros Hsleep.
  pose proof (Hsleep (Z.to_nat (Qceiling (timeout_seconds / 10)))) as Hk.
  pose proof (Qle_ceiling (timeout_seconds / 10)) as Hc.
  assert (Hz : (inject_Z (Qceiling (timeout_seconds / 10))
                <= inject_Z (Z.of_nat (Z.to_nat (Qceiling (timeout_seconds / 10)))))%Q).
  { rewrite <- Zle_Qle. lia. }
  assert (Hd : (timeout_seconds == 10 * (timeout_seconds / 10))%Q) by (field).
  lra.
Qed.

End Monitor.

(** A job whose status stays 2, and one whose status is 4, with a
    clock that shows ten more seconds at every test of the loop. *)
Definition ten_seconds_a_turn (k : nat) : Q := (10 * inject_Z (Z.of_nat k))%Q.

Definition still_running : Main.JobService :=
  Main.mkJobService true (fun _ => Main.Status 2) ten_seconds_a_turn.

Definition status_four_job : Main.JobService :=
  Main.mkJobService true (fun _ => Main.Status 4) ten_seconds_a_turn.

(** C9, counterexample.  The monitor returns the same value, false,
    when it gives up after the timeout on a job whose status stays 2
    and when the status read is 4, which the code takes for a failed
    job; the two runs differ in their last log line only. *)
Lemma C9_timeout_value_counterexample :
  exists log_timeout log_failed,
    Main.wait_for_job_completion (Main.enough_fuel Main.default_timeout) true
      still_running Main.default_timeout = Some (false, log_timeout)
    /\ List.last log_timeout Main.InfoMonitoring
       = Main.WarningTimedOut Main.default_timeout
    /\ Main.wait_for_job_completion (Main.enough_fuel Main.default_timeout) true
         status_four_job Main.default_timeout = Some (false, log_failed)
    /\ List.last log_failed Main.InfoMonitoring = Main.ErrorJobFailed 4.
Proof.
  eexists _, _. split; [vm_compute; reflexivity|].
  split; [vm_compute; reflexivity|].
  split; [vm_compute; reflexivity|]. vm_compute; reflexivity.
Qed.

(** C9, as amended.  When the elapsed time measured at some test [K] of
    the loop condition has reached the timeout, the monitor returns, by
    that test at the latest, and it ends in one of these ways:
    [get_service] raised (an error line, value false); or, after status
    requests that all answered a number other than 5, 4 and 6 before
    the timeout, the timeout is seen elapsed (a warning line, value
    false), the next request answers 5 (an info line, value true), it
    answers 4 or 6 (an error line, value false), or it raises (an error
    line, value false).  The value is true only after an answer 5; the
    timeout is told apart from the answers 4 and 6 by its log line and
    level, not by the value returned.  With sleeps measured as ten
    seconds or more the timeout is reached by test number
    ceiling(timeout / 10), which is 30 for the default of 300 seconds. *)
Theorem C9_monitor_outcomes (svc : Main.JobService) (timeout_seconds : Q) (K : nat) :
  (timeout_seconds <= Main.elapsed svc K)%Q ->
  (exists r pre last,
     Main.wait_for_job_completion (S K) true svc timeout_seconds
     = Some (r, pre ++ [last])
     /\ ((Main.get_service_returns svc = false
          /\ r = false /\ last = Main.ExceptionMonitoring)
         \/ (Main.get_service_returns svc = true
             /\ exists n,
                  (n <= K)%nat
                  /\ (forall j, (j < n)%nat ->
                        (Main.elapsed svc j < timeout_seconds)%Q
                        /\ exists status,
                             Main.polls svc j = Main.Status status
                             /\ status <> 5 /\ status <> 4 /\ status <> 6)
                  /\ ((r = false
                       /\ last = Main.WarningTimedOut timeout_seconds
                       /\ (timeout_seconds <= Main.elapsed svc n)%Q)
                      \/ ((Main.elapsed svc n < timeout_seconds)%Q
                          /\ ((r = true /\ last = Main.InfoCompleted
                               /\ Main.polls svc n = Main.Status 5)
                              \/ (r = false
                                  /\ exists status,
                                       (status = 4 \/ status = 6)
                                       /\ last = Main.ErrorJobFailed status
                                       /\ Main.polls svc n = Main.Status status)
                              \/ (r = false /\ last = Main.ExceptionMonitoring
                                  /\ Main.polls svc n = Main.PollRaises)))))))
  /\ Main.level (Main.WarningTimedOut timeout_seconds) = Main.WARNING
  /\ (forall status, Main.level (Main.ErrorJobFailed status) = Main.ERROR)
  /\ Main.level Main.ExceptionMonitoring = Main.ERROR
  /\ ((forall k, (10 * inject_Z (Z.of_nat k) <= Main.elapsed svc k)%Q) ->
      (timeout_seconds
       <= Main.elapsed svc (Nat.pred (Main.enough_fuel timeout_seconds)))%Q)
  /\ Main.enough_fuel Main.default_timeout = 31%nat.
Proof.
  intros Hend. split; [|split; [|split; [|split; [|split]]]]; try reflexivity.
  2:{ intros Hsleep. cbn [Main.enough_fuel Nat.pred].
      apply enough_fuel_covers, Hsleep. }
  unfold Main.wait_for_job_completion. cbn [negb].
  destruct (Main.get_service_returns svc) eqn:Eg; cbn [negb].
  2:{ exists false, [Main.InfoMonitoring], Main.ExceptionMonitoring.
      split; [reflexivity|]. left. auto. }
  destruct (wait_loop_returns svc timeout_seconds K 0 [Main.InfoMonitoring] Hend)
    as [[r log] E].
  destruct (wait_loop_ending svc timeout_seconds _ _ _ _ _ E)
    as (pre & last & n & -> & Hn & Hpre & Hlast).
  exists r, pre, last. split; [exact E|]. right. split; [reflexivity|].
  exists n. split; [lia|]. split.
  - intros j Hj. apply (Hpre j). lia.
  - destruct Hlast as [Hge|Hlt E5|status Hlt H46 Es|Hlt Er].
    + left. auto.
    + right. split; [exact Hlt|]. left. auto.
    + right. split; [exact Hlt|]. right; left. split; [reflexivity|].
      exists status. auto.
    + right. split; [exact Hlt|]. right; right. auto.
Qed.

(** C9 on a job whose status stays 2 for the default five minutes. *)
Lemma C9_monitor_outcomes_witness :
  (Main.default_timeout <= Main.elapsed still_running 30)%Q
  /\ exists r pre last,
       Main.wait_for_job_completion 31 true still_running Main.default_timeout
       = Some (r, pre ++ [last]).
Proof.
  assert (H : (Main.default_timeout <= Main.elapsed still_running 30)%Q)
    by (vm_compute; discriminate).
  split; [exact H|].
  destruct (C9_monitor_outcomes still_running Main.default_timeout 30%nat H)
    as [(r & pre & last & E & _) _].
  exists r, pre, last. exact E.
Defined.

(** ** Scenarios of the specification *)

Definition jane_row : Main.Row :=
  Main.mkRow (Some (lit "C1")) (Some (lit "Jane")) (Some (lit "Doe"))
             (Some (lit "guid")) (Some (lit "JANE.DOE@Example.com"))
             (Some (lit "(555) 123-4567")) (Some (lit "98101-1"))
             (Some (lit "WA")) None.

Definition short_phone_row : Main.Row :=
  Main.mkRow (Some (lit "C2")) None None None (Some []) (Some (lit "123"))
             None None None.

Example scenario_full_row :
  main_row_identifiers sample jane_row
  = [Main.HashedEmail (sha256_hex (lit "jane.doe@example.com"));
     Main.HashedPhoneNumber (sha256_hex (lit "+15551234567"));
     Main.AddressInfo (sha256_hex (lit "jane")) (sha256_hex (lit "doe"))
                      (lit "US") (lit "98101")].
Proof. vm_compute. reflexivity. Qed.

Example scenario_dropped_row :
  Main.process_page sample None Main.init [short_phone_row]
  = Main.mkUploader 1 0 0 0 0 [].
Proof. vm_compute. reflexivity. Qed.

(** * Further properties of the code *)

(** ** Splitting and joining *)

(** ** Text beyond the letters and digits of the seven-bit range *)

Definition no_break_space : ascii := ascii_of_nat 160.
Definition superscript_two : ascii := ascii_of_nat 178.
Definition capital_e_acute : ascii := ascii_of_nat 201.
Definition small_e_acute : ascii := ascii_of_nat 233.

(** A trailing no-break space is trimmed from an e-mail address, and an
    accented capital is lower-cased before hashing. *)
Example email_with_no_break_space :
  Main.hashed_email (strip_or_none (Some (lit "a@b.co" ++ [no_break_space])))
  = Some (sha256_hex (lit "a@b.co"))
  /\ Attached.process_email
       (strip_or_none (Some (capital_e_acute :: lit "@b.co")))
     = Some (sha256_hex (small_e_acute :: lit "@b.co")).
Proof. vm_compute. split; reflexivity. Qed.

(** A superscript two counts as a digit of the zip. *)
Example zip_with_superscript :
  Spec.postal_rule (lit "9810" ++ [superscript_two])
  = Some (lit "9810" ++ [superscript_two])
  /\ Attached.postal_code_to_use
       (strip_or_none (Some (lit "9810" ++ [superscript_two])))
     = Some (lit "9810" ++ [superscript_two]).
Proof. vm_compute. split; reflexivity. Qed.

(** A lone sharp s is a state code of two characters once upper-cased;
    with a letter after it there are three. *)
Example state_with_sharp_s :
  Attached.country_code_to_use (strip_or_none (Some [sharp_s])) = Some (lit "US")
  /\ Attached.country_code_to_use (strip_or_none (Some (sharp_s :: lit "a")))
     = None.
Proof. vm_compute. split; reflexivity. Qed.

(** A name of one letter and a no-break space is too short. *)
Example name_with_no_break_space :
  Spec.name_rule (lit "J" ++ [no_break_space]) = false
  /\ Main.hashed_names (strip_or_none (Some (lit "J" ++ [no_break_space])))
                       (strip_or_none (Some (lit "Doe")))
     = (None, None, false, true).
Proof. vm_compute. split; reflexivity. Qed.


Lemma split_app_sep sep a b :
  split sep (a ++ sep :: b) = split sep a ++ split sep b.
Proof.
  induction a as [|c t IH]; cbn [app split].
  - rewrite Ascii.eqb_refl. reflexivity.
  - destruct (Ascii.eqb c sep).
    + rewrite IH. reflexivity.
    + rewrite IH. pose proof (PyFacts.split_nonempty sep t) as NE.
      destruct (split sep t) as [|p ps]; [contradiction | reflexivity].
Qed.

Lemma join_cons sep p q rest :
  join sep (p :: q :: rest) = p ++ sep ++ join sep (q :: rest).
Proof. reflexivity. Qed.

(** Joining the pieces of a split with the separator gives the text
    back. *)
Lemma join_split sep s : join [sep] (split sep s) = s.
Proof.
  induction s as [|c t IH]; [reflexivity|].
  pose proof (PyFacts.split_nonempty sep t) as NE.
  cbn [split]. destruct (Ascii.eqb c sep) eqn:E.
  - apply Ascii.eqb_eq in E. subst c.
    destruct (split sep t) as [|p ps]; [contradiction|].
    rewrite join_cons, IH. reflexivity.
  - destruct (split sep t) as [|p ps]; [contradiction|].
    destruct ps as [|q qs].
    + change (join [sep] [p]) with p in IH. subst t. reflexivity.
    + rewrite join_cons. rewrite join_cons in IH. rewrite <- IH. reflexivity.
Qed.

Lemma item_from_end {A} (l tail : list A) (i : nat) x :
  (0 < i <= List.length tail)%nat ->
  nth_error tail (List.length tail - i) = Some x ->
  item (l ++ tail) (- Z.of_nat i) = Some x.
Proof.
  intros Hi Hx. unfold item. rewrite length_app.
  replace (- Z.of_nat i <? 0) with true by (symmetry; apply Z.ltb_lt; lia).
  set (j := - Z.of_nat i + Z.of_nat (List.length l + List.length tail)).
  replace (j <? 0) with false by (symmetry; apply Z.ltb_ge; unfold j; lia).
  replace (Z.of_nat (List.length l + List.length tail) <=? j) with false
    by (symmetry; apply Z.leb_gt; unfold j; lia).
  cbn [orb].
  replace (Z.to_nat j) with (List.length l + (List.length tail - i))%nat
    by (unfold j; lia).
  rewrite nth_error_app2 by lia.
  replace (List.length l + (List.length tail - i) - List.length l)%nat
    with (List.length tail - i)%nat by lia.
  exact Hx.
Qed.

Lemma slice_drop_last {A} (l : list A) (x : A) (tail' : list A) :
  slice (l ++ x :: tail') 0 (- Z.of_nat (List.length (x :: tail'))) = l.
Proof.
  unfold slice, clamp_index. rewrite length_app.
  cbn [Z.ltb Z.compare].
  replace (- Z.of_nat (List.length (x :: tail')) <? 0) with true
    by (symmetry; apply Z.ltb_lt; simpl; lia).
  replace (Z.to_nat (Z.min 0 (Z.of_nat (List.length l + List.length (x :: tail')))))
    with 0%nat by lia.
  rewrite Nat.sub_0_r. change (skipn 0 (l ++ x :: tail')) with (l ++ x :: tail').
  replace (Z.to_nat
             (Z.max (- Z.of_nat (List.length (x :: tail'))
                     + Z.of_nat (List.length l + List.length (x :: tail'))) 0))
    with (List.length l + 0)%nat by lia.
  rewrite firstn_app_2. simpl. apply app_nil_r.
Qed.

(** ** Brand settings *)

Lemma str_eqb_eq a : forall b, str_eqb a b = true <-> a = b.
Proof.
  induction a as [|x a IH]; intros [|y b]; simpl; split; try discriminate; auto.
  - rewrite andb_true_iff, Ascii.eqb_eq, IH. intros [-> ->]. reflexivity.
  - intros E. injection E as -> ->. rewrite Ascii.eqb_refl.
    apply (proj2 (IH b)). reflexivity.
Qed.

Lemma str_eqb_neq a b : a <> b -> str_eqb a b = false.
Proof.
  intros H. destruct (str_eqb a b) eqn:E; [|reflexivity].
  apply str_eqb_eq in E. contradiction.
Qed.

Lemma env_key_parts (b suffix : str) :
  split "_" (b ++ "_"%char :: suffix) = split "_" b ++ split "_" suffix.
Proof. apply split_app_sep. Qed.

(** An environment variable named [<BRAND>_USER_LIST] is taken as the
    list of the brand [<brand>], in lower case. *)
Theorem env_brand_key_accepted (b : str) :
  b <> [] -> lower b <> lit "default" ->
  MainSetup.brand_of_env_key (b ++ lit "_USER_LIST") = Some (lower b).
Proof.
  intros Hb Hd. unfold MainSetup.brand_of_env_key.
  change (b ++ lit "_USER_LIST") with (b ++ "_"%char :: lit "USER_LIST").
  rewrite env_key_parts.
  change (split "_" (lit "USER_LIST")) with [lit "USER"; lit "LIST"].
  pose proof (PyFacts.split_nonempty "_" b) as NE.
  pose proof (item_from_end (split "_" b) [lit "USER"; lit "LIST"] 2 (lit "USER")
                ltac:(simpl; lia) eq_refl) as I2.
  pose proof (item_from_end (split "_" b) [lit "USER"; lit "LIST"] 1 (lit "LIST")
                ltac:(simpl; lia) eq_refl) as I1.
  pose proof (slice_drop_last (split "_" b) (lit "USER") [lit "LIST"]) as Sl.
  change (- Z.of_nat 2) with (-2) in I2. change (- Z.of_nat 1) with (-1) in I1.
  change (- Z.of_nat (List.length [lit "USER"; lit "LIST"])) with (-2) in Sl.
  rewrite I2, I1, Sl.
  change (lit "_") with ["_"%char]. rewrite join_split.
  rewrite length_app.
  replace (3 <=? List.length (split "_" b) + List.length [lit "USER"; lit "LIST"])%nat
    with true
    by (symmetry; apply Nat.leb_le; destruct (split "_" b); [contradiction | simpl; lia]).
  change (str_eqb (lit "USER") (lit "USER") && str_eqb (lit "LIST") (lit "LIST"))
    with true.
  cbn [andb]. rewrite (str_eqb_neq _ _ Hd).
  destruct b as [|c t]; [contradiction | reflexivity].
Qed.

Lemma env_brand_key_accepted_witness :
  lit "ACME" <> [] /\ lower (lit "ACME") <> lit "default"
  /\ MainSetup.brand_of_env_key (lit "ACME_USER_LIST") = Some (lit "acme").
Proof.
  assert (H1 : lit "ACME" <> []) by (vm_compute; discriminate).
  assert (H2 : lower (lit "ACME") <> lit "default") by (vm_compute; discriminate).
  split; [exact H1|]. split; [exact H2|].
  exact (env_brand_key_accepted (lit "ACME") H1 H2).
Defined.

(** An environment variable named [<BRAND>_USER_LIST_ID], the format
    the comment in [load_config] gives, is not taken as a brand
    setting. *)
Theorem env_brand_key_with_id_ignored (b : str) :
  MainSetup.brand_of_env_key (b ++ lit "_USER_LIST_ID") = None.
Proof.
  unfold MainSetup.brand_of_env_key.
  change (b ++ lit "_USER_LIST_ID") with (b ++ "_"%char :: lit "USER_LIST_ID").
  rewrite env_key_parts.
  change (split "_" (lit "USER_LIST_ID")) with [lit "USER"; lit "LIST"; lit "ID"].
  pose proof (item_from_end (split "_" b) [lit "USER"; lit "LIST"; lit "ID"] 2
                (lit "LIST") ltac:(simpl; lia) eq_refl) as I2.
  pose proof (item_from_end (split "_" b) [lit "USER"; lit "LIST"; lit "ID"] 1
                (lit "ID") ltac:(simpl; lia) eq_refl) as I1.
  change (- Z.of_nat 2) with (-2) in I2. change (- Z.of_nat 1) with (-1) in I1.
  rewrite I2, I1.
  change (str_eqb (lit "LIST") (lit "USER") && str_eqb (lit "ID") (lit "LIST"))
    with false.
  rewrite andb_false_r. reflexivity.
Qed.

(** A recognised variable sets the list of its brand and of no other
    brand, and keeps the description of a brand that was configured. *)
Theorem brand_variable_sets_list
    (brands : gmap (list ascii) MainSetup.BrandConfig) (key value name : str) :
  MainSetup.brand_of_env_key key = Some name ->
  (exists entry,
     MainSetup.apply_brand_variable brands (key, value) !! name = Some entry
     /\ MainSetup.USER_LIST_ID entry = value
     /\ (forall old, brands !! name = Some old ->
           MainSetup.DESCRIPTION entry = MainSetup.DESCRIPTION old))
  /\ (forall other, other <> name ->
        MainSetup.apply_brand_variable brands (key, value) !! other
        = brands !! other).
Proof.
  intros Hk. unfold MainSetup.apply_brand_variable. cbn [fst snd]. rewrite Hk.
  destruct (brands !! name) as [old|] eqn:Eo.
  - split.
    + eexists. rewrite lookup_insert_eq. split; [reflexivity|].
      split; [reflexivity|]. intros old' E. injection E as <-. reflexivity.
    + intros other Hne. apply lookup_insert_ne. congruence.
  - split.
    + eexists. rewrite lookup_insert_eq. split; [reflexivity|].
      split; [reflexivity|]. intros old' E. discriminate E.
    + intros other Hne. apply lookup_insert_ne. congruence.
Qed.

Lemma brand_variable_sets_list_witness :
  MainSetup.brand_of_env_key (lit "ACME_USER_LIST") = Some (lit "acme")
  /\ forall other, other <> lit "acme" ->
       MainSetup.apply_brand_variable ∅ (lit "ACME_USER_LIST", lit "123") !! other
       = (∅ : gmap (list ascii) MainSetup.BrandConfig) !! other.
Proof.
  assert (H : MainSetup.brand_of_env_key (lit "ACME_USER_LIST") = Some (lit "acme"))
    by (vm_compute; reflexivity).
  split; [exact H|].
  exact (proj2 (brand_variable_sets_list ∅ (lit "ACME_USER_LIST") (lit "123")
                  (lit "acme") H)).
Defined.

(** ** The brand filter *)

Lemma row_kept_without_mismatch lib b st row :
  Main.brand_mismatch b (main_brand_raw row) = false ->
  Main.process_customer_row lib b st row = Main.process_customer_row lib None st row.
Proof.
  intros H. unfold Main.process_customer_row. fold (main_brand_raw row).
  rewrite H. reflexivity.
Qed.

(** A brand that is not configured becomes [default]: the run uses the
    default list and no row is left out by its brand label. *)
Theorem unknown_brand_uploads_every_row
    (brands : gmap (list ascii) MainSetup.BrandConfig) (default_list b : str)
    lib st row :
  b <> [] -> brands !! b = None ->
  MainSetup.choose_brand brands default_list (Some b)
  = MainSetup.mkBrandChoice (Some (lit "default")) default_list
  /\ Main.process_customer_row lib
       (MainSetup.self_brand (MainSetup.choose_brand brands default_list (Some b)))
       st row
     = Main.process_customer_row lib None st row.
Proof.
  intros Hb Hn.
  assert (E : MainSetup.choose_brand brands default_list (Some b)
              = MainSetup.mkBrandChoice (Some (lit "default")) default_list).
  { unfold MainSetup.choose_brand. rewrite Hn.
    destruct b; [contradiction | reflexivity]. }
  split; [exact E|]. rewrite E. cbn [MainSetup.self_brand].
  apply row_kept_without_mismatch.
  unfold Main.brand_mismatch. destruct (main_brand_raw row); reflexivity.
Qed.

Lemma unknown_brand_uploads_every_row_witness :
  lit "acme" <> []
  /\ (∅ : gmap (list ascii) MainSetup.BrandConfig) !! lit "acme" = None
  /\ MainSetup.choose_brand ∅ (lit "9027934773") (Some (lit "acme"))
     = MainSetup.mkBrandChoice (Some (lit "default")) (lit "9027934773").
Proof.
  assert (H1 : lit "acme" <> []) by (vm_compute; discriminate).
  assert (H2 : (∅ : gmap (list ascii) MainSetup.BrandConfig) !! lit "acme" = None)
    by reflexivity.
  split; [exact H1|]. split; [exact H2|].
  exact (proj1 (unknown_brand_uploads_every_row ∅ (lit "9027934773") (lit "acme")
                  sample Main.init
                  (Main.mkRow None None None None None None None None None) H1 H2)).
Defined.

(** A row with no brand column, a NULL label or a blank label passes
    every brand filter. *)
Theorem unlabelled_row_passes_filter lib b st row :
  match Main.col_brand row with
  | Some (Some label) => strip label = []
  | _ => True
  end ->
  Main.process_customer_row lib b st row = Main.process_customer_row lib None st row.
Proof.
  intros H. apply row_kept_without_mismatch.
  unfold Main.brand_mismatch, main_brand_raw.
  destruct b as [b|]; [|reflexivity].
  destruct (Main.col_brand row) as [[label|]|]; try reflexivity.
  destruct (truthy label); [|reflexivity].
  rewrite H. cbn [lower map truthy]. rewrite andb_false_r. reflexivity.
Qed.

Lemma unlabelled_row_passes_filter_witness :
  True
  /\ Main.process_customer_row sample (Some (lit "acme")) Main.init jane_row
     = Main.process_customer_row sample None Main.init jane_row.
Proof.
  split; [exact I|].
  exact (unlabelled_row_passes_filter sample (Some (lit "acme")) Main.init jane_row I).
Defined.

(** Labels are lower-cased before the comparison and [self.brand] is
    not: when the requested brand is configured under a name that
    lower-casing changes, [__init__] keeps it as it is and every row
    that carries a non-blank label is left out. *)
Theorem capitalised_brand_drops_labelled_rows
    (brands : gmap (list ascii) MainSetup.BrandConfig) (default_list b : str)
    entry lib st row label :
  brands !! b = Some entry ->
  lower b <> b ->
  Main.col_brand row = Some (Some label) -> strip label <> [] ->
  MainSetup.self_brand (MainSetup.choose_brand brands default_list (Some b))
  = Some b
  /\ Main.process_customer_row lib
       (MainSetup.self_brand (MainSetup.choose_brand brands default_list (Some b)))
       st row
     = st.
Proof.
  intros Hcfg Hu Hc Hl.
  assert (Tb : truthy b = true).
  { destruct b; [exfalso; apply Hu; reflexivity | reflexivity]. }
  assert (E : MainSetup.self_brand
                (MainSetup.choose_brand brands default_list (Some b)) = Some b).
  { unfold MainSetup.choose_brand. rewrite Tb, Hcfg. reflexivity. }
  split; [exact E|]. rewrite E.
  apply main_row_skipped.
  unfold main_brand_raw, Main.brand_mismatch. rewrite Hc.
  assert (Tl : truthy label = true).
  { destruct label; [exfalso; apply Hl; reflexivity | reflexivity]. }
  rewrite Tl.
  assert (Tr : truthy (lower (strip label)) = true).
  { destruct (strip label); [contradiction | reflexivity]. }
  rewrite Tb, Tr.
  rewrite (str_eqb_neq b (lit "default")).
  2:{ intros ->. apply Hu. reflexivity. }
  rewrite (str_eqb_neq (lower (strip label)) b).
  2:{ intros E'. apply Hu. rewrite <- E'. apply PyFacts.lower_idem. }
  reflexivity.
Qed.

(** A brand configured as [Acme], and a row labelled [ACME]. *)
Definition acme_brands : gmap (list ascii) MainSetup.BrandConfig :=
  {[ lit "Acme" := MainSetup.mkBrandConfig (lit "123") (points (lit "Acme list")) ]}.

Definition acme_row : Main.Row :=
  Main.mkRow None None None None (Some (lit "a.b@cd.ef")) None None None
             (Some (Some (lit "ACME"))).

Lemma capitalised_brand_drops_labelled_rows_witness :
  acme_brands !! lit "Acme"
  = Some (MainSetup.mkBrandConfig (lit "123") (points (lit "Acme list")))
  /\ lower (lit "Acme") <> lit "Acme"
  /\ Main.process_customer_row sample
       (MainSetup.self_brand
          (MainSetup.choose_brand acme_brands (lit "9027934773") (Some (lit "Acme"))))
       Main.init acme_row
     = Main.init.
Proof.
  assert (H1 : acme_brands !! lit "Acme"
               = Some (MainSetup.mkBrandConfig (lit "123") (points (lit "Acme list"))))
    by (apply lookup_singleton_eq).
  assert (H2 : lower (lit "Acme") <> lit "Acme") by (vm_compute; discriminate).
  assert (H3 : Main.col_brand acme_row = Some (Some (lit "ACME"))) by reflexivity.
  assert (H4 : strip (lit "ACME") <> []) by (vm_compute; discriminate).
  split; [exact H1|]. split; [exact H2|].
  exact (proj2 (capitalised_brand_drops_labelled_rows acme_brands
                  (lit "9027934773") (lit "Acme") _ sample Main.init acme_row
                  (lit "ACME") H1 H2 H3 H4)).
Defined.

(** ** Counters of the main pipeline *)

(** The rows the cursor hands out before its first empty page. *)
Fixpoint rows_fetched {R} (pages : list (list R)) : list R :=
  match pages with
  | [] => []
  | [] :: _ => []
  | page :: rest => page ++ rows_fetched rest
  end.

Definition main_step lib b (st : Main.Uploader) (row : Main.Row) : Main.Uploader :=
  Main.process_customer_row lib b (Main.count_row st) row.

Lemma main_fetch_fold lib b pages : forall st,
  Main.fetch_and_process_customer_data lib b st pages
  = fold_left (main_step lib b) (rows_fetched pages) st.
Proof.
  induction pages as [|page rest IH]; intros st; [reflexivity|].
  destruct page as [|row page']; [reflexivity|].
  cbn [Main.fetch_and_process_customer_data rows_fetched].
  rewrite IH. unfold Main.process_page. rewrite fold_left_app. reflexivity.
Qed.

Definition is_email (i : Main.Identifier) : bool :=
  match i with Main.HashedEmail _ => true | _ => false end.

Definition is_phone (i : Main.Identifier) : bool :=
  match i with Main.HashedPhoneNumber _ => true | _ => false end.

Definition is_address (i : Main.Identifier) : bool :=
  match i with Main.AddressInfo _ _ _ _ => true | _ => false end.

(** Identifiers of one kind over all prepared operations. *)
Definition count_kind (kind : Main.Identifier -> bool) (ops : list Main.Operation)
  : nat :=
  List.length (filter kind (List.concat (map Main.user_identifiers ops))).

Lemma count_kind_app kind ops ops' :
  count_kind kind (ops ++ ops')
  = (count_kind kind ops + count_kind kind ops')%nat.
Proof.
  unfold count_kind. rewrite map_app, concat_app, filter_app, length_app.
  reflexivity.
Qed.

Lemma postal_rule_truthy z p : Spec.postal_rule z = Some p -> truthy p = true.
Proof.
  intros H. apply postal_rule_some in H as [H5 ->].
  destruct (digits_only z) as [|d ds]; [simpl in H5; lia | reflexivity].
Qed.

(** The address counter moves exactly when an address identifier is
    built. *)
Lemma main_address_counted cf cl cz hf hl v sk country postal :
  Main.hashed_names (strip_or_none cf) (strip_or_none cl) = (hf, hl, v, sk) ->
  Main.us_address (strip_or_none cz) = (country, postal) ->
  filter is_address (Main.address_identifier country postal hf hl sk)
  = Main.address_identifier country postal hf hl sk
  /\ List.length (Main.address_identifier country postal hf hl sk)
     = Main.b2n (Main.is_some postal && v && negb sk).
Proof.
  intros Hn Hz. rewrite main_us_address_column in Hz.
  assert (Hp : forall p, postal = Some p -> country = Some (lit "US") /\ truthy p = true).
  { intros p ->. destruct cz as [z|]; [|discriminate Hz].
    destruct (5 <=? List.length (strip z))%nat eqn:E5; injection Hz as Hc Hr.
    - split; [symmetry; exact Hc | eapply postal_rule_truthy; eassumption].
    - exfalso. apply postal_rule_some in Hr as [H5 _].
      pose proof (length_digits_only (strip z)) as Hd.
      rewrite PyFacts.digits_only_strip in Hd.
      apply Nat.leb_gt in E5. lia. }
  unfold Main.address_identifier.
  destruct (main_names_hashed _ _ _ _ _ _ Hn)
    as [(fr & lr & _ & _ & _ & _ & -> & -> & -> & ->)|(-> & -> & ->)].
  - destruct postal as [p|]; cbn [Main.is_some andb negb Main.b2n].
    + destruct (Hp p eq_refl) as [-> Tp]. rewrite Tp. split; reflexivity.
    + destruct country; split; reflexivity.
  - rewrite andb_false_r. cbn [andb Main.b2n].
    destruct country, postal; split; reflexivity.
Qed.

Lemma filter_opt_list_same {A} (f : A -> Main.Identifier) kind (x : option A) :
  (forall a, kind (f a) = true) ->
  filter kind (Main.opt_list f x) = Main.opt_list f x.
Proof. intros H. destruct x; simpl; [rewrite H|]; reflexivity. Qed.

Lemma filter_opt_list_other {A} (f : A -> Main.Identifier) kind (x : option A) :
  (forall a, kind (f a) = false) ->
  filter kind (Main.opt_list f x) = [].
Proof. intros H. destruct x; simpl; [rewrite H|]; reflexivity. Qed.

Lemma length_opt_list {A B} (f : A -> B) (x : option A) :
  List.length (Main.opt_list f x) = Main.b2n (Main.is_some x).
Proof. destruct x; reflexivity. Qed.

Lemma main_address_identifier_shape country postal hf hl sk :
  Main.address_identifier country postal hf hl sk = []
  \/ exists f l c p,
       Main.address_identifier country postal hf hl sk = [Main.AddressInfo f l c p].
Proof.
  unfold Main.address_identifier.
  destruct country, postal, hf, hl; auto.
  destruct (truthy _ && truthy _ && negb sk); eauto 6.
Qed.

(** What one row that is not left out adds to each counter. *)
Lemma main_row_kind_counters lib b st row :
  Main.brand_mismatch b (main_brand_raw row) = false ->
  let st' := Main.process_customer_row lib b st row in
  let ids := main_row_identifiers lib row in
  Main.email_processed_count st'
  = (Main.email_processed_count st + List.length (filter is_email ids))%nat
  /\ Main.phone_processed_count st'
     = (Main.phone_processed_count st + List.length (filter is_phone ids))%nat
  /\ Main.address_processed_count st'
     = (Main.address_processed_count st + List.length (filter is_address ids))%nat
  /\ Main.total_rows_processed st' = Main.total_rows_processed st.
Proof.
  intros Hb. cbv zeta.
  unfold Main.process_customer_row, main_row_identifiers.
  fold (main_brand_raw row). rewrite Hb.
  destruct (Main.hashed_names _ _) as [[[hf hl] v] sk] eqn:En.
  destruct (Main.us_address _) as [country postal] eqn:Ez.
  destruct (main_address_counted _ _ _ _ _ _ _ _ _ En Ez) as [Fa La].
  cbn [Main.email_processed_count Main.phone_processed_count
       Main.address_processed_count Main.total_rows_processed].
  rewrite !filter_app.
  rewrite (filter_opt_list_same Main.HashedEmail is_email) by reflexivity.
  rewrite (filter_opt_list_other Main.HashedPhoneNumber is_email) by reflexivity.
  rewrite (filter_opt_list_other Main.HashedEmail is_phone) by reflexivity.
  rewrite (filter_opt_list_same Main.HashedPhoneNumber is_phone) by reflexivity.
  rewrite (filter_opt_list_other Main.HashedEmail is_address) by reflexivity.
  rewrite (filter_opt_list_other Main.HashedPhoneNumber is_address) by reflexivity.
  rewrite Fa.
  assert (Ne : filter is_email (Main.address_identifier country postal hf hl sk) = []).
  { destruct (main_address_identifier_shape country postal hf hl sk)
      as [->|(f & l & c & p & ->)]; reflexivity. }
  assert (Np : filter is_phone (Main.address_identifier country postal hf hl sk) = []).
  { destruct (main_address_identifier_shape country postal hf hl sk)
      as [->|(f & l & c & p & ->)]; reflexivity. }
  rewrite Ne, Np, !app_nil_r. cbn [app].
  rewrite !length_opt_list, La. repeat split.
Qed.

Lemma main_kind_at_most_one lib row :
  let ids := main_row_identifiers lib row in
  (List.length (filter is_email ids) <= Main.b2n (nonempty ids))%nat
  /\ (List.length (filter is_phone ids) <= Main.b2n (nonempty ids))%nat
  /\ (List.length (filter is_address ids) <= Main.b2n (nonempty ids))%nat.
Proof.
  cbv zeta. unfold main_row_identifiers.
  destruct (Main.hashed_names _ _) as [[[hf hl] v] sk].
  destruct (Main.us_address _) as [country postal].
  destruct (main_address_identifier_shape country postal hf hl sk)
    as [->|(f & l & c & p & ->)];
    destruct (Main.hashed_email _), (Main.hashed_phone _ _); simpl; lia.
Qed.

(** What the counters and the output list satisfy together. *)
Record main_accounts (rows : nat) (st : Main.Uploader) : Prop := {
  acc_total : Main.total_rows_processed st = rows;
  acc_email : Main.email_processed_count st
              = count_kind is_email (Main.processed_operations st);
  acc_phone : Main.phone_processed_count st
              = count_kind is_phone (Main.processed_operations st);
  acc_address : Main.address_processed_count st
                = count_kind is_address (Main.processed_operations st);
  acc_any : (Main.rows_with_any_id_count st <= rows)%nat;
  acc_email_le : (Main.email_processed_count st <= Main.rows_with_any_id_count st)%nat;
  acc_phone_le : (Main.phone_processed_count st <= Main.rows_with_any_id_count st)%nat;
  acc_address_le :
    (Main.address_processed_count st <= Main.rows_with_any_id_count st)%nat
}.

Lemma main_accounts_step lib b rows st row :
  main_accounts rows st -> main_accounts (S rows) (main_step lib b st row).
Proof.
  intros [Ht Ee Ep Ea Hany Le Lp La]. unfold main_step.
  destruct (Main.brand_mismatch b (main_brand_raw row)) eqn:Hb.
  - rewrite (main_row_skipped lib b _ row Hb).
    constructor; cbn [Main.count_row Main.total_rows_processed
      Main.email_processed_count Main.phone_processed_count
      Main.address_processed_count Main.rows_with_any_id_count
      Main.processed_operations]; auto; lia.
  - destruct (main_row_kind_counters lib b (Main.count_row st) row Hb)
      as (Ke & Kp & Ka & Kt).
    destruct (main_row_counters lib b (Main.count_row st) row Hb) as (_ & _ & Kany).
    destruct (main_kind_at_most_one lib row) as (Be & Bp & Ba).
    cbv zeta in *.
    cbn [Main.count_row Main.total_rows_processed Main.email_processed_count
         Main.phone_processed_count Main.address_processed_count
         Main.rows_with_any_id_count] in Ke, Kp, Ka, Kt, Kany.
    assert (Hops : forall kind,
      count_kind kind (Main.processed_operations
                         (Main.process_customer_row lib b (Main.count_row st) row))
      = (count_kind kind (Main.processed_operations st)
         + List.length (filter kind (main_row_identifiers lib row)))%nat).
    { intros kind. rewrite main_row_operations, Hb.
      cbn [Main.count_row Main.processed_operations].
      rewrite count_kind_app. f_equal.
      destruct (main_row_identifiers lib row) as [|i ids]; [reflexivity|].
      cbn [nonempty]. unfold count_kind. cbn [map Main.user_identifiers List.concat].
      rewrite app_nil_r. reflexivity. }
    assert (B1 : (Main.b2n (nonempty (main_row_identifiers lib row)) <= 1)%nat)
      by (destruct (nonempty _); simpl; lia).
    constructor; rewrite ?Hops; try lia.
Qed.

Lemma main_accounts_rows lib b rows : forall n st,
  main_accounts n st ->
  main_accounts (n + List.length rows) (fold_left (main_step lib b) rows st).
Proof.
  induction rows as [|row rest IH]; intros n st H; simpl.
  - rewrite Nat.add_0_r. exact H.
  - replace (n + S (List.length rest))%nat with (S n + List.length rest)%nat by lia.
    apply IH, main_accounts_step, H.
Qed.

Lemma main_accounts_init : main_accounts 0 Main.init.
Proof. constructor; simpl; auto. Qed.

(** After a run of the main pipeline each of the three counters is the
    number of identifiers of its kind in the prepared operations. *)
Theorem main_counters_count_identifiers lib b pages :
  let st := Main.fetch_and_process_customer_data lib b Main.init pages in
  Main.email_processed_count st
  = count_kind is_email (Main.processed_operations st)
  /\ Main.phone_processed_count st
     = count_kind is_phone (Main.processed_operations st)
  /\ Main.address_processed_count st
     = count_kind is_address (Main.processed_operations st).
Proof.
  cbv zeta. rewrite main_fetch_fold.
  destruct (main_accounts_rows lib b (rows_fetched pages) 0 Main.init
              main_accounts_init); auto.
Qed.

(** The row counter is the number of rows handed out before the first
    empty page, and no other counter exceeds the counter of rows with an
    identifier, which does not exceed the row counter. *)
Theorem main_counter_bounds lib b pages :
  let st := Main.fetch_and_process_customer_data lib b Main.init pages in
  Main.total_rows_processed st = List.length (rows_fetched pages)
  /\ (Main.rows_with_any_id_count st <= Main.total_rows_processed st)%nat
  /\ (Main.email_processed_count st <= Main.rows_with_any_id_count st)%nat
  /\ (Main.phone_processed_count st <= Main.rows_with_any_id_count st)%nat
  /\ (Main.address_processed_count st <= Main.rows_with_any_id_count st)%nat.
Proof.
  cbv zeta. rewrite main_fetch_fold.
  destruct (main_accounts_rows lib b (rows_fetched pages) 0 Main.init
              main_accounts_init) as [Ht Ee Ep Ea Hany Le Lp La].
  simpl in Ht. repeat split; auto; lia.
Qed.

(** ** Attempts on one batch, main pipeline *)

Lemma main_attempts_start reply a r :
  exists ok rest, Main.add_with_retries reply a (S r) = (ok, a :: rest)
                  /\ Forall (fun k => (a < k)%nat) rest.
Proof.
  destruct (main_attempts_consecutive reply (S r) a) as (len & Hl & E).
  cbn [Main.add_with_retries] in *.
  destruct (reply a) as [|msg].
  - exists true, []. split; [reflexivity | constructor].
  - destruct (Main.is_concurrent_modification msg).
    + destruct (main_attempts_consecutive reply r (S a)) as (len' & Hl' & E').
      destruct (Main.add_with_retries reply (S a) r) as [ok made].
      exists ok, made. split; [reflexivity|].
      simpl in E'. rewrite E'. apply Forall_forall. intros k Hk.
      apply in_seq in Hk. lia.
    + exists false, []. split; [reflexivity | constructor].
Qed.






(** ** What an upload of the main pipeline submits *)

(** The records carried by the first attempt on each batch, in the
    order of the calls. *)
Definition first_attempts (calls : list Main.Event) : list (list Main.Identifier) :=
  List.concat
    (map (fun e => match e with
                   | Main.AddOperations _ O operations => operations
                   | _ => []
                   end) calls).

Lemma first_attempts_app a b :
  first_attempts (a ++ b) = first_attempts a ++ first_attempts b.
Proof. unfold first_attempts. rewrite map_app, concat_app. reflexivity. Qed.

Lemma first_attempts_later i ops rest :
  Forall (fun k => (0 < k)%nat) rest ->
  first_attempts (map (fun attempt => Main.AddOperations i attempt ops) rest) = [].
Proof.
  induction 1 as [|k rest Hk _ IH]; [reflexivity|].
  unfold first_attempts in *. cbn [map List.concat].
  destruct k; [lia|]. exact IH.
Qed.

Lemma main_batches_concat {A} (ops : list A) (batch_size : Z) :
  0 < batch_size -> List.concat (Main.batches ops batch_size) = ops.
Proof.
  intros Hb. rewrite main_batches_chunks by exact Hb.
  rewrite concat_chunks. apply firstn_all2.
  set (n := Z.of_nat (List.length ops)).
  pose proof (Z.div_mod (n + batch_size - 1) batch_size ltac:(lia)) as Hd.
  pose proof (Z.mod_pos_bound (n + batch_size - 1) batch_size Hb) as Hr.
  assert (0 <= (n + batch_size - 1) / batch_size)
    by (apply Z.div_pos; unfold n; lia).
  unfold n in *. nia.
Qed.

Lemma main_first_attempts_batches cfg svc bs : forall i,
  0 < Main.API_RETRY_COUNT cfg ->
  first_attempts (List.concat (map snd (Main.upload_batches cfg svc i bs)))
  = List.concat (map (map Main.user_identifiers) bs).
Proof.
  induction bs as [|b rest IH]; intros i Hr; [reflexivity|].
  cbn [Main.upload_batches map List.concat].
  rewrite first_attempts_app, IH by exact Hr. f_equal.
  unfold Main.upload_batch.
  destruct (Z.to_nat (Main.API_RETRY_COUNT cfg)) as [|r] eqn:Er; [lia|].
  destruct (main_attempts_start (Main.add_operations_reply svc i) 0 r)
    as (ok & made & E & Hlater).
  rewrite E. cbn [snd map].
  change (first_attempts (?e :: ?l)) with (first_attempts ([e] ++ l)).
  rewrite first_attempts_app, first_attempts_later by exact Hlater.
  unfold first_attempts. simpl. rewrite !app_nil_r. reflexivity.
Qed.

Definition is_first_attempt (e : Main.Event) : Prop :=
  match e with
  | Main.AddOperations _ attempt _ => attempt = 0%nat
  | _ => True
  end.

Lemma main_accepted_at_once cfg svc bs : forall i,
  0 < Main.API_RETRY_COUNT cfg ->
  (forall j, Main.add_operations_reply svc j 0 = Main.Returns) ->
  Forall is_first_attempt (List.concat (map snd (Main.upload_batches cfg svc i bs))).
Proof.
  induction bs as [|b rest IH]; intros i Hr Hok; [constructor|].
  cbn [Main.upload_batches map List.concat].
  apply Forall_app. split; [|apply IH; assumption].
  unfold Main.upload_batch.
  destruct (Z.to_nat (Main.API_RETRY_COUNT cfg)) as [|r] eqn:Er; [lia|].
  cbn [Main.add_with_retries]. rewrite Hok. cbn [snd map].
  constructor; [reflexivity | constructor].
Qed.

(** With a positive batch size and at least one attempt configured,
    when the job is obtained and every batch is accepted at its first
    attempt, no batch is sent twice and the requests carry every
    prepared record, in the order prepared. *)
Theorem main_every_record_submitted cfg svc st :
  0 < Main.API_BATCH_SIZE cfg -> 0 < Main.API_RETRY_COUNT cfg ->
  Main.get_service_reply svc = Main.Returns ->
  Main.create_job_reply svc = Main.Returns ->
  (forall j, Main.add_operations_reply svc j 0 = Main.Returns) ->
  first_attempts (snd (Main.upload_to_google_ads true cfg svc st))
  = map Main.user_identifiers (Main.processed_operations st)
  /\ Forall is_first_attempt (snd (Main.upload_to_google_ads true cfg svc st)).
Proof.
  intros Hb Hr Hg Hc Hok. unfold Main.upload_to_google_ads. cbn [negb].
  destruct (Main.processed_operations st) as [|o os] eqn:Eo;
    [split; [reflexivity | constructor]|].
  rewrite Hg, Hc.
  replace (Main.API_BATCH_SIZE cfg =? 0) with false
    by (symmetry; apply Z.eqb_neq; lia).
  assert (E : forall flag : bool,
            first_attempts
              (snd (flag,
                    Main.CreateJob
                    :: List.concat
                         (map snd (Main.upload_batches cfg svc 0
                            (Main.batches (o :: os) (Main.API_BATCH_SIZE cfg))))
                       ++ [Main.RunJob]))
            = map Main.user_identifiers (o :: os)
            /\ Forall is_first_attempt
                 (snd (flag,
                       Main.CreateJob
                       :: List.concat
                            (map snd (Main.upload_batches cfg svc 0
                               (Main.batches (o :: os) (Main.API_BATCH_SIZE cfg))))
                          ++ [Main.RunJob]))).
  { intros flag. cbn [snd]. split.
    - change (first_attempts (Main.CreateJob :: ?l)) with (first_attempts l).
      rewrite first_attempts_app, main_first_attempts_batches by exact Hr.
      change (first_attempts [Main.RunJob]) with (@nil (list Main.Identifier)).
      rewrite app_nil_r, <- concat_map, main_batches_concat by exact Hb.
      reflexivity.
    - constructor; [exact I|]. apply Forall_app. split.
      + apply main_accepted_at_once; assumption.
      + constructor; [exact I | constructor]. }
  destruct (Main.run_job_reply svc); apply E.
Qed.

Definition accepting_service : Main.Service :=
  Main.mkService Main.Returns Main.Returns (fun _ _ => Main.Returns) Main.Returns.

Lemma main_every_record_submitted_witness :
  0 < Main.API_BATCH_SIZE Main.default_config
  /\ 0 < Main.API_RETRY_COUNT Main.default_config
  /\ (forall j, Main.add_operations_reply accepting_service j 0 = Main.Returns)
  /\ first_attempts
       (snd (Main.upload_to_google_ads true Main.default_config accepting_service
               one_record))
     = map Main.user_identifiers (Main.processed_operations one_record).
Proof.
  split; [reflexivity|]. split; [reflexivity|].
  split; [intros j; reflexivity|].
  exact (proj1 (main_every_record_submitted Main.default_config accepting_service
                  one_record eq_refl eq_refl eq_refl eq_refl
                  (fun _ => eq_refl))).
Defined.

Lemma main_no_attempts cfg svc bs : forall i,
  Main.API_RETRY_COUNT cfg <= 0 ->
  List.concat (map snd (Main.upload_batches cfg svc i bs)) = []
  /\ filter fst (Main.upload_batches cfg svc i bs) = [].
Proof.
  induction bs as [|b rest IH]; intros i Hr; [split; reflexivity|].
  cbn [Main.upload_batches map List.concat filter].
  destruct (IH (S i) Hr) as [E1 E2]. rewrite E1.
  unfold Main.upload_batch.
  replace (Z.to_nat (Main.API_RETRY_COUNT cfg)) with 0%nat by lia.
  cbn [Main.add_with_retries map fst snd]. rewrite E2. split; reflexivity.
Qed.

(** With a retry count of zero or less no batch is ever submitted; the
    job is still created and run, and the upload reports success. *)
Theorem main_zero_attempts_reports_success cfg svc st :
  Main.API_RETRY_COUNT cfg <= 0 ->
  Main.API_BATCH_SIZE cfg <> 0 ->
  Main.processed_operations st <> [] ->
  Main.get_service_reply svc = Main.Returns ->
  Main.create_job_reply svc = Main.Returns ->
  Main.run_job_reply svc = Main.Returns ->
  Main.upload_to_google_ads true cfg svc st = (true, [Main.CreateJob; Main.RunJob])
  /\ Main.successful_batches cfg svc st = 0%nat.
Proof.
  intros Hr Hb Hops Hg Hc Hrun.
  unfold Main.upload_to_google_ads, Main.successful_batches. cbn [negb].
  destruct (Main.processed_operations st) as [|o os] eqn:Eo; [contradiction|].
  rewrite Hg, Hc, Hrun.
  replace (Main.API_BATCH_SIZE cfg =? 0) with false
    by (symmetry; apply Z.eqb_neq; exact Hb).
  destruct (main_no_attempts cfg svc
              (Main.batches (o :: os) (Main.API_BATCH_SIZE cfg)) 0 Hr) as [E1 E2].
  rewrite E1, E2. split; reflexivity.
Qed.

Lemma main_zero_attempts_reports_success_witness :
  Main.API_RETRY_COUNT (Main.mkConfig 2500 0) <= 0
  /\ Main.upload_to_google_ads true (Main.mkConfig 2500 0) accepting_service
       one_record
     = (true, [Main.CreateJob; Main.RunJob]).
Proof.
  assert (H : Main.API_RETRY_COUNT (Main.mkConfig 2500 0) <= 0) by (simpl; lia).
  split; [exact H|].
  refine (proj1 (main_zero_attempts_reports_success (Main.mkConfig 2500 0)
                   accepting_service one_record H _ _ eq_refl eq_refl eq_refl)).
  - simpl. lia.
  - simpl. discriminate.
Defined.

(** ** The attached pipeline: attempts, and a run without a client *)

Definition retriable (reply : nat -> Attached.AddReply) (j : nat) : Prop :=
  reply j = Attached.OtherException
  \/ exists failure, reply j = Attached.GoogleAdsException failure
                     /\ Attached.is_concurrent_modification failure = true.

Lemma attached_exhausted_offset reply (m : Z) : forall r a,
  Z.of_nat (a + r) = m + 1 ->
  (forall j, (j < r)%nat -> retriable reply (a + j)) ->
  Attached.upload_batch_with_retry reply m a r = (false, seq a r).
Proof.
  induction r as [|r IH]; intros a Hm H; [reflexivity|].
  cbn [Attached.upload_batch_with_retry seq].
  pose proof (H 0%nat ltac:(lia)) as H0. rewrite Nat.add_0_r in H0.
  destruct r as [|r'].
  - replace (Z.of_nat a <? m) with false by (symmetry; apply Z.ltb_ge; lia).
    destruct H0 as [->|(failure & -> & T)]; [reflexivity|].
    rewrite andb_false_r. reflexivity.
  - replace (Z.of_nat a <? m) with true by (symmetry; apply Z.ltb_lt; lia).
    assert (E : Attached.upload_batch_with_retry reply m (S a) (S r')
                = (false, seq (S a) (S r'))).
    { apply IH; [lia|]. intros j Hj.
      replace (S a + j)%nat with (a + S j)%nat by lia. apply H. lia. }
    destruct H0 as [->|(failure & -> & T)]; [|rewrite T; cbn [andb]];
      rewrite E; reflexivity.
Qed.

(** In the attached pipeline a batch whose every attempt meets a
    concurrent modification or an unexpected exception is submitted one
    time more than the configured number of retries, and then given
    up. *)
Theorem attached_retries_exhausted (reply : nat -> Attached.AddReply) (m : Z) :
  0 <= m ->
  (forall j, Z.of_nat j <= m ->
     reply j = Attached.OtherException
     \/ exists failure, reply j = Attached.GoogleAdsException failure
                        /\ Attached.is_concurrent_modification failure = true) ->
  Attached.upload_batch_with_retry reply m 0 (Z.to_nat (m + 1))
  = (false, seq 0 (Z.to_nat (m + 1))).
Proof.
  intros Hm H. apply attached_exhausted_offset; [lia|].
  intros j Hj. apply H. lia.
Qed.

Lemma attached_retries_exhausted_witness :
  0 <= 3
  /\ Attached.upload_batch_with_retry
       (fun _ => Attached.GoogleAdsException (lit "CONCURRENT_MODIFICATION")) 3 0
       (Z.to_nat (3 + 1))
     = (false, [0; 1; 2; 3]%nat).
Proof.
  assert (H0 : 0 <= 3) by lia.
  split; [exact H0|].
  refine (attached_retries_exhausted
            (fun _ => Attached.GoogleAdsException (lit "CONCURRENT_MODIFICATION"))
            3 H0 _).
  intros j _. right. eexists. split; [reflexivity | vm_compute; reflexivity].
Defined.

Definition attached_step lib client (st : Attached.Uploader) (row : Attached.Row)
  : Attached.Uploader :=
  Attached.process_customer_row lib client (Attached.count_row st) row.

Lemma attached_fetch_fold lib client pages : forall st,
  Attached.fetch_and_process_customer_data lib client st pages
  = fold_left (attached_step lib client) (rows_fetched pages) st.
Proof.
  induction pages as [|page rest IH]; intros st; [reflexivity|].
  destruct page as [|row page']; [reflexivity|].
  cbn [Attached.fetch_and_process_customer_data rows_fetched].
  rewrite IH. unfold Attached.process_page. rewrite fold_left_app. reflexivity.
Qed.

Definition clientless (st : Attached.Uploader) : Prop :=
  Attached.googleads_client st = false
  /\ Attached.processed_operations st = []
  /\ Attached.rows_with_any_id_count st = 0%nat
  /\ Attached.address_processed_count st = 0%nat.

Lemma clientless_step lib client st row :
  clientless st -> clientless (attached_step lib client st row).
Proof.
  intros (Hc & Ho & Hr & Ha). unfold attached_step, Attached.process_customer_row.
  destruct (Attached.process_names _ _) as [[hf hl] sk].
  cbn [Attached.count_row Attached.googleads_client]. rewrite Hc. cbn [negb].
  repeat split; assumption.
Qed.

Lemma clientless_rows lib client rows : forall st,
  clientless st -> clientless (fold_left (attached_step lib client) rows st).
Proof.
  induction rows as [|row rest IH]; intros st H; [exact H|].
  apply IH, clientless_step, H.
Qed.

(** Without a Google Ads client the attached pipeline prepares no
    operation whatever the rows hold, and its upload then reports
    success without calling the service: the upload's own test of the
    client is never reached. *)
Theorem attached_without_client_uploads_nothing lib client pages cfg svc :
  let st := Attached.fetch_and_process_customer_data lib client
              (Attached.init false) pages in
  Attached.processed_operations st = []
  /\ Attached.rows_with_any_id_count st = 0%nat
  /\ Attached.address_processed_count st = 0%nat
  /\ Attached.upload_to_google_ads cfg svc st = (true, []).
Proof.
  cbv zeta. rewrite attached_fetch_fold.
  destruct (clientless_rows lib client (rows_fetched pages) (Attached.init false))
    as (Hc & Ho & Hr & Ha); [repeat split|].
  repeat split; auto.
  unfold Attached.upload_to_google_ads. rewrite Ho. reflexivity.
Qed.





(** ** The CSV uploader *)

Definition csv_call (b : Z * list Csv.Operation) : CsvUpload.Event :=
  CsvUpload.AddOperations (fst b) (snd b).

(** The [k]-th batch goes through: its request can be built and the
    service accepts it. *)
Definition csv_goes_through
    (client : CsvUpload.Client) (svc : CsvUpload.Service)
    (k : nat) (b : Z * list Csv.Operation) : Prop :=
  CsvUpload.builds_request client (snd b) = true
  /\ exists pf, CsvUpload.add_reply svc k = CsvUpload.Added pf.

Lemma csv_add_batches_success client svc bs : forall k,
  fst (CsvUpload.add_batches client svc k bs) = true <->
  forall j b, nth_error bs j = Some b -> csv_goes_through client svc (k + j) b.
Proof.
  unfold csv_goes_through.
  induction bs as [|[n b] rest IH]; intros k.
  - simpl. split; [intros _ j b Hj; destruct j; discriminate Hj | reflexivity].
  - cbn [CsvUpload.add_batches].
    destruct (CsvUpload.builds_request client b) eqn:Eb; cbn [negb].
    + destruct (CsvUpload.add_reply svc k) as [pf|] eqn:Ek.
      * specialize (IH (S k)).
        destruct (CsvUpload.add_batches client svc (S k) rest) as [ok calls].
        cbn [fst] in *. rewrite IH. split.
        -- intros H j b' Hj. destruct j as [|j].
           ++ injection Hj as <-. rewrite Nat.add_0_r. cbn [snd]. eauto.
           ++ replace (k + S j)%nat with (S k + j)%nat by lia. apply H. exact Hj.
        -- intros H j b' Hj. replace (S k + j)%nat with (k + S j)%nat by lia.
           apply H. exact Hj.
      * cbn [fst]. split; [discriminate|]. intros H.
        destruct (H 0%nat (n, b) eq_refl) as [_ [pf E]].
        rewrite Nat.add_0_r in E. congruence.
    + cbn [fst]. split; [discriminate|]. intros H.
      destruct (H 0%nat (n, b) eq_refl) as [E _]. cbn [snd] in E. congruence.
Qed.

Lemma csv_add_batches_calls client svc bs : forall k,
  fst (CsvUpload.add_batches client svc k bs) = true ->
  snd (CsvUpload.add_batches client svc k bs) = map csv_call bs.
Proof.
  induction bs as [|[n b] rest IH]; intros k; [reflexivity|].
  cbn [CsvUpload.add_batches].
  destruct (CsvUpload.builds_request client b); cbn [negb]; [|discriminate].
  destruct (CsvUpload.add_reply svc k) as [pf|]; [|discriminate].
  specialize (IH (S k)).
  destruct (CsvUpload.add_batches client svc (S k) rest) as [ok calls].
  cbn [fst snd map] in *. intros H. rewrite (IH H). reflexivity.
Qed.

Lemma csv_add_batches_abort client svc bs : forall k j b,
  nth_error bs j = Some b ->
  (forall i b', (i < j)%nat -> nth_error bs i = Some b' ->
     csv_goes_through client svc (k + i) b') ->
  (CsvUpload.builds_request client (snd b) = false ->
   CsvUpload.add_batches client svc k bs = (false, map csv_call (firstn j bs)))
  /\ (CsvUpload.builds_request client (snd b) = true ->
      CsvUpload.add_reply svc (k + j) = CsvUpload.AddRaises ->
      CsvUpload.add_batches client svc k bs
      = (false, map csv_call (firstn (S j) bs))).
Proof.
  unfold csv_goes_through.
  induction bs as [|[n b0] rest IH]; intros k j b Hj Hpre;
    [destruct j; discriminate Hj|].
  cbn [CsvUpload.add_batches].
  destruct j as [|j].
  - injection Hj as <-. cbn [snd]. rewrite Nat.add_0_r. split.
    + intros ->. reflexivity.
    + intros -> ->. reflexivity.
  - destruct (Hpre 0%nat (n, b0) ltac:(lia) eq_refl) as [Eb [pf E]].
    cbn [snd] in Eb. rewrite Nat.add_0_r in E. rewrite Eb, E. cbn [negb].
    destruct (IH (S k) j b Hj) as [IH1 IH2].
    { intros i b' Hi Hb'. replace (S k + i)%nat with (k + S i)%nat by lia.
      apply Hpre; [lia | exact Hb']. }
    split.
    + intros Hf. rewrite (IH1 Hf). reflexivity.
    + intros Ht Hr. rewrite IH2; [reflexivity | exact Ht|].
      replace (S k + j)%nat with (k + S j)%nat by lia. exact Hr.
Qed.

(** The CSV upload succeeds exactly when the client library builds the
    job message and every request, the job is created, every batch is
    accepted (with or without partial failures) and the run call
    returns; it then made one call per batch between creating and
    running the job.  An empty list of operations still creates and
    runs a job. *)
Theorem csv_upload_success_iff client svc operations :
  (fst (CsvUpload.upload_to_audience_list client svc operations) = true <->
   CsvUpload.builds_job client = true
   /\ CsvUpload.create_job_ok svc = true
   /\ (forall j b, nth_error (CsvUpload.batches operations) j = Some b ->
         CsvUpload.builds_request client (snd b) = true
         /\ exists pf, CsvUpload.add_reply svc j = CsvUpload.Added pf)
   /\ CsvUpload.run_job_ok svc = true)
  /\ (fst (CsvUpload.upload_to_audience_list client svc operations) = true ->
      snd (CsvUpload.upload_to_audience_list client svc operations)
      = CsvUpload.CreateJob :: map csv_call (CsvUpload.batches operations)
        ++ [CsvUpload.RunJob])
  /\ (CsvUpload.builds_job client = true ->
      CsvUpload.create_job_ok svc = true ->
      CsvUpload.upload_to_audience_list client svc []
      = (CsvUpload.run_job_ok svc, [CsvUpload.CreateJob; CsvUpload.RunJob])).
Proof.
  unfold CsvUpload.upload_to_audience_list.
  pose proof (csv_add_batches_success client svc (CsvUpload.batches operations) 0) as S.
  pose proof (csv_add_batches_calls client svc (CsvUpload.batches operations) 0) as C.
  unfold csv_goes_through in S. cbn [Nat.add] in S.
  split; [|split].
  - destruct (CsvUpload.builds_job client); cbn [negb];
      [|simpl; intuition discriminate].
    destruct (CsvUpload.create_job_ok svc); cbn [negb];
      [|simpl; intuition discriminate].
    destruct (CsvUpload.add_batches client svc 0 (CsvUpload.batches operations))
      as [ok calls].
    cbn [fst] in S. destruct ok; cbn [negb fst].
    + destruct S as [S1 _]. specialize (S1 eq_refl). intuition.
    + split; [discriminate|]. intros (_ & _ & H & _).
      apply (proj2 S) in H. discriminate H.
  - destruct (CsvUpload.builds_job client); cbn [negb]; [|discriminate].
    destruct (CsvUpload.create_job_ok svc); cbn [negb]; [|discriminate].
    destruct (CsvUpload.add_batches client svc 0 (CsvUpload.batches operations))
      as [ok calls].
    cbn [fst snd] in *. destruct ok; cbn [negb fst snd]; [|discriminate].
    intros _. rewrite (C eq_refl). reflexivity.
  - intros -> ->. reflexivity.
Qed.

(** The first batch that does not go through ends the CSV upload.
    When its request cannot be built the service sees no call for it;
    when the service refuses it that call is the last one.  Either way
    the batches after it are not sent, the job is not run, and the
    upload fails; there is no retry. *)
Theorem csv_refused_batch_aborts client svc operations (j : nat) b :
  CsvUpload.builds_job client = true ->
  CsvUpload.create_job_ok svc = true ->
  nth_error (CsvUpload.batches operations) j = Some b ->
  (forall i b', (i < j)%nat ->
     nth_error (CsvUpload.batches operations) i = Some b' ->
     CsvUpload.builds_request client (snd b') = true
     /\ exists pf, CsvUpload.add_reply svc i = CsvUpload.Added pf) ->
  (CsvUpload.builds_request client (snd b) = false ->
   CsvUpload.upload_to_audience_list client svc operations
   = (false,
      CsvUpload.CreateJob
      :: map csv_call (firstn j (CsvUpload.batches operations))))
  /\ (CsvUpload.builds_request client (snd b) = true ->
      CsvUpload.add_reply svc j = CsvUpload.AddRaises ->
      CsvUpload.upload_to_audience_list client svc operations
      = (false,
         CsvUpload.CreateJob
         :: map csv_call (firstn (S j) (CsvUpload.batches operations)))).
Proof.
  intros Hjob Hc Hj Hpre. unfold CsvUpload.upload_to_audience_list.
  rewrite Hjob, Hc. cbn [negb].
  destruct (csv_add_batches_abort client svc (CsvUpload.batches operations) 0 j b
              Hj Hpre) as [A1 A2].
  split.
  - intros Hf. rewrite (A1 Hf). reflexivity.
  - intros Ht Hr. rewrite (A2 Ht Hr). reflexivity.
Qed.

(** A client library that refuses the messages assigned to the
    request, and a service that accepts every call. *)
Definition csv_rejecting_client : CsvUpload.Client :=
  CsvUpload.mkClient true (fun _ => false).

Definition csv_accepting : CsvUpload.Service :=
  CsvUpload.mkService true (fun _ => CsvUpload.Added false) true.

Lemma csv_refused_batch_aborts_witness :
  CsvUpload.builds_job csv_rejecting_client = true
  /\ CsvUpload.create_job_ok csv_accepting = true
  /\ nth_error (CsvUpload.batches [Csv.mkOperation []]) 0
     = Some (1, [Csv.mkOperation []])
  /\ CsvUpload.upload_to_audience_list csv_rejecting_client csv_accepting
       [Csv.mkOperation []]
     = (false, [CsvUpload.CreateJob]).
Proof.
  assert (H : nth_error (CsvUpload.batches [Csv.mkOperation []]) 0
              = Some (1, [Csv.mkOperation []])) by (vm_compute; reflexivity).
  split; [reflexivity|]. split; [reflexivity|]. split; [exact H|].
  refine (proj1 (csv_refused_batch_aborts csv_rejecting_client csv_accepting
                   [Csv.mkOperation []] 0 _ eq_refl eq_refl H _) eq_refl).
  intros i b' Hi. lia.
Defined.

Lemma range_from_zero (n step : Z) :
  0 <= n -> 0 < step ->
  range 0 n step
  = map (fun k => Z.of_nat k * step) (seq 0 (Z.to_nat ((n + step - 1) / step))).
Proof.
  intros Hn Hs. unfold range, range_length.
  replace (0 <? step) with true by (symmetry; apply Z.ltb_lt; lia).
  assert (El : (if n <=? 0 then 0%nat else Z.to_nat ((n - 0 - 1) / step + 1))
               = Z.to_nat ((n + step - 1) / step)).
  { destruct (n <=? 0) eqn:E.
    - apply Z.leb_le in E. assert (n = 0) as -> by lia.
      rewrite Z.div_small by lia. reflexivity.
    - f_equal. replace (n + step - 1) with (n - 0 - 1 + 1 * step) by lia.
      rewrite Z_div_plus by lia. reflexivity. }
  rewrite El. apply map_ext. intros k. lia.
Qed.

(** The CSV batches are the consecutive slices of 10,000 operations,
    numbered from 1, and put end to end they are the list. *)
Theorem csv_batches_numbered {A} (operations : list A) :
  let count :=
    Z.to_nat ((Z.of_nat (List.length operations) + 10000 - 1) / 10000) in
  map snd (CsvUpload.batches operations)
  = map (chunk operations (Z.to_nat 10000)) (seq 0 count)
  /\ map fst (CsvUpload.batches operations)
     = map (fun k => Z.of_nat k + 1) (seq 0 count)
  /\ List.concat (map snd (CsvUpload.batches operations)) = operations.
Proof.
  intros count.
  assert (Es : map snd (CsvUpload.batches operations)
               = map (chunk operations (Z.to_nat 10000)) (seq 0 count)).
  { unfold CsvUpload.batches. rewrite map_map. cbn [snd].
    exact (attached_batches_chunks operations 10000 eq_refl). }
  split; [exact Es|]. split.
  - unfold CsvUpload.batches, CsvUpload.batch_size.
    rewrite map_map. cbn [fst].
    rewrite range_from_zero by lia. rewrite map_map.
    apply map_ext. intros k. rewrite Z.div_mul by lia. reflexivity.
  - rewrite Es, concat_chunks. apply firstn_all2.
    unfold count. set (n := Z.of_nat (List.length operations)).
    pose proof (Z.div_mod (n + 10000 - 1) 10000 ltac:(lia)) as Hd.
    pose proof (Z.mod_pos_bound (n + 10000 - 1) 10000 ltac:(lia)) as Hr.
    assert (0 <= (n + 10000 - 1) / 10000) by (apply Z.div_pos; unfold n; lia).
    unfold n in *. lia.
Qed.

Lemma lstrip_all_space ws : forallb isspace ws = true -> lstrip ws = [].
Proof.
  induction ws as [|c t IH]; [reflexivity|]. simpl.
  intros H. apply andb_prop in H as [Hc Ht]. rewrite Hc. auto.
Qed.

(** A field of the CSV file that holds only white space counts as
    present: it is uploaded as the digest of the empty text. *)
Theorem csv_blank_field_hashed (customer : gmap string str) (raw : str) :
  customer !! "email"%string = Some raw ->
  raw <> [] -> forallb isspace raw = true ->
  Csv.email_identifier customer = [Csv.HashedEmail (Some (sha256_hex []))].
Proof.
  intros E Hraw Hws.
  unfold Csv.email_identifier, Csv.present, Csv.field_of, Csv.hash_data.
  rewrite E. cbn [truthy_opt default from_option id].
  assert (T : truthy raw = true) by (destruct raw; [contradiction | reflexivity]).
  rewrite T. cbn [negb].
  unfold strip. rewrite (lstrip_all_space raw Hws). reflexivity.
Qed.

Lemma csv_blank_field_hashed_witness :
  ({[ "email"%string := lit "  " ]} : gmap string str) !! "email"%string
  = Some (lit "  ")
  /\ Csv.email_identifier {[ "email"%string := lit "  " ]}
     = [Csv.HashedEmail (Some (sha256_hex []))].
Proof.
  assert (H : ({[ "email"%string := lit "  " ]} : gmap string str) !! "email"%string
              = Some (lit "  ")) by reflexivity.
  split; [exact H|].
  refine (csv_blank_field_hashed _ (lit "  ") H _ eq_refl).
  vm_compute. discriminate.
Defined.

(** ** The job monitor, continued *)

(** The monitor returns true only when a status request answered the
    number 5 before the timeout, every request before it having
    answered a number other than 5, 4 and 6.  When the first test of
    the loop finds the timeout elapsed no status is requested, and
    without a client nothing is done at all; both return false. *)
Theorem monitor_true_only_on_five svc (timeout_seconds : Q) :
  (forall fuel log,
     Main.wait_for_job_completion fuel true svc timeout_seconds
     = Some (true, log) ->
     exists n,
       Main.polls svc n = Main.Status 5
       /\ (Main.elapsed svc n < timeout_seconds)%Q
       /\ (forall j, (j < n)%nat ->
             exists status, Main.polls svc j = Main.Status status
                            /\ status <> 5 /\ status <> 4 /\ status <> 6)
       /\ List.last log Main.InfoMonitoring = Main.InfoCompleted)
  /\ (forall fuel,
        Main.get_service_returns svc = true ->
        (timeout_seconds <= Main.elapsed svc 0)%Q ->
        Main.wait_for_job_completion (S fuel) true svc timeout_seconds
        = Some (false, [Main.InfoMonitoring; Main.WarningTimedOut timeout_seconds]))
  /\ (forall fuel,
        Main.wait_for_job_completion fuel false svc timeout_seconds
        = Some (false, [Main.ErrorClientNotInitialized])).
Proof.
  unfold Main.wait_for_job_completion. cbn [negb]. split; [|split].
  - intros fuel log H.
    destruct (Main.get_service_returns svc); cbn [negb] in H; [|discriminate H].
    apply wait_loop_ending in H as (pre & last & n & -> & Hn & Hpre & Hend).
    exists n. inversion Hend; subst.
    split; [assumption|]. split; [assumption|]. split.
    + intros j Hj. destruct (Hpre j ltac:(lia)) as [_ Hs]. exact Hs.
    + apply last_last.
  - intros fuel -> Ht. cbn [negb Main.wait_loop].
    destruct (Qlt_le_dec (Main.elapsed svc 0) timeout_seconds) as [Hlt|Hge];
      [|reflexivity].
    exfalso. apply (Qlt_not_le _ _ Hlt), Ht.
  - reflexivity.
Qed.

(** ** A run with nothing to upload *)

Lemma main_no_identifier_rows lib b rows : forall st,
  (forall row, In row rows -> main_row_identifiers lib row = []) ->
  Main.processed_operations (fold_left (main_step lib b) rows st)
  = Main.processed_operations st.
Proof.
  induction rows as [|row rest IH]; intros st H; [reflexivity|].
  cbn [fold_left]. rewrite IH by (intros r Hr; apply H; right; exact Hr).
  unfold main_step. rewrite main_row_operations.
  rewrite (H row (or_introl eq_refl)). cbn [nonempty].
  destruct (Main.brand_mismatch b (main_brand_raw row)); apply app_nil_r.
Qed.

(** When no fetched row yields an identifier the whole run succeeds
    without a single call to the service: no job is created. *)
Theorem run_with_nothing_to_upload lib brand cfg svc pages :
  (forall row, In row (rows_fetched pages) -> main_row_identifiers lib row = []) ->
  MainSetup.run_upload_process true true lib brand cfg svc pages = (true, []).
Proof.
  intros H. unfold MainSetup.run_upload_process. cbn [negb].
  unfold Main.upload_to_google_ads. cbn [negb].
  rewrite main_fetch_fold, (main_no_identifier_rows lib brand _ Main.init H).
  reflexivity.
Qed.

Lemma run_with_nothing_to_upload_witness :
  (forall row, In row (rows_fetched [[short_phone_row]]) ->
     main_row_identifiers sample row = [])
  /\ MainSetup.run_upload_process true true sample None Main.default_config
       refusing_service [[short_phone_row]] = (true, []).
Proof.
  assert (H : forall row, In row (rows_fetched [[short_phone_row]]) ->
                main_row_identifiers sample row = []).
  { intros row [<-|[]]. vm_compute. reflexivity. }
  split; [exact H|].
  exact (run_with_nothing_to_upload sample None Main.default_config
           refusing_service [[short_phone_row]] H).
Defined.

(** ** When an address identifier is built *)

Lemma main_address_in_view lib row fr lr z p :
  Main.col_first_name row = Some fr -> Main.col_last_name row = Some lr ->
  Main.col_zip row = Some z ->
  Spec.name_rule fr = true -> Spec.name_rule lr = true ->
  Spec.postal_rule z = Some p ->
  In (Main.AddressInfo (sha256_hex (Spec.normalized fr))
                       (sha256_hex (Spec.normalized lr)) (lit "US") p)
     (main_row_identifiers lib row).
Proof.
  intros Ef El Ez Rf Rl Rp. unfold main_row_identifiers.
  rewrite Ef, El, Ez, (main_names_accepted fr lr Rf Rl), main_us_address_column.
  pose proof (postal_rule_truthy z p Rp) as Tp.
  apply postal_rule_some in Rp as [H5 Ep].
  pose proof (length_digits_only (strip z)) as Hd.
  rewrite PyFacts.digits_only_strip in Hd.
  replace (5 <=? List.length (strip z))%nat with true
    by (symmetry; apply Nat.leb_le; lia).
  assert (Rp' : Spec.postal_rule z = Some p).
  { apply postal_rule_some. auto. }
  rewrite Rp'. rewrite !in_app_iff. right; right.
  unfold Main.address_identifier. rewrite Tp. left. reflexivity.
Qed.

(** Main pipeline: a row that passes the brand filter, whose two names
    pass the name test and whose zip has five digits, appends an
    operation with an address identifier made of the hashed names,
    country US and the first five digits, whatever its state column
    holds. *)
Theorem main_address_emitted lib b st row fr lr z p :
  Main.brand_mismatch b (main_brand_raw row) = false ->
  Main.col_first_name row = Some fr -> Main.col_last_name row = Some lr ->
  Main.col_zip row = Some z ->
  Spec.name_rule fr = true -> Spec.name_rule lr = true ->
  Spec.postal_rule z = Some p ->
  exists op,
    Main.processed_operations (Main.process_customer_row lib b st row)
    = Main.processed_operations st ++ [op]
    /\ In (Main.AddressInfo (sha256_hex (Spec.normalized fr))
                            (sha256_hex (Spec.normalized lr)) (lit "US") p)
          (Main.user_identifiers op).
Proof.
  intros Hb Ef El Ez Rf Rl Rp.
  apply (main_row_appends lib b st row _ Hb).
  apply (main_address_in_view lib row fr lr z p); assumption.
Qed.

Lemma main_address_emitted_witness :
  Main.brand_mismatch None (main_brand_raw jane_row) = false
  /\ Spec.name_rule (lit "Jane") = true /\ Spec.name_rule (lit "Doe") = true
  /\ Spec.postal_rule (lit "98101-1") = Some (lit "98101")
  /\ exists op,
       Main.processed_operations
         (Main.process_customer_row sample None Main.init jane_row)
       = Main.processed_operations Main.init ++ [op]
       /\ In (Main.AddressInfo (sha256_hex (Spec.normalized (lit "Jane")))
                               (sha256_hex (Spec.normalized (lit "Doe")))
                               (lit "US") (lit "98101"))
             (Main.user_identifiers op).
Proof.
  assert (H0 : Main.brand_mismatch None (main_brand_raw jane_row) = false)
    by reflexivity.
  assert (H1 : Spec.name_rule (lit "Jane") = true) by reflexivity.
  assert (H2 : Spec.name_rule (lit "Doe") = true) by reflexivity.
  assert (H3 : Spec.postal_rule (lit "98101-1") = Some (lit "98101")) by reflexivity.
  split; [exact H0|]. split; [exact H1|]. split; [exact H2|]. split; [exact H3|].
  exact (main_address_emitted sample None Main.init jane_row (lit "Jane")
           (lit "Doe") (lit "98101-1") (lit "98101")
           H0 eq_refl eq_refl eq_refl H1 H2 H3).
Defined.

Lemma attached_name_accepted raw :
  attached_name_ok raw = true ->
  truthy raw = true /\ truthy (strip raw) = true
  /\ Attached.process_name (strip raw)
     = (Some (sha256_hex (Spec.normalized raw)), true).
Proof.
  unfold attached_name_ok. cbv zeta. bool_to_prop. intros [Hp Hl].
  apply Nat.eqb_neq in Hl.
  assert (Hn : strip (lower raw) <> []) by (intros E; rewrite E in Hl; auto).
  assert (T1 : truthy raw = true).
  { destruct raw; [exfalso; apply Hn; reflexivity | reflexivity]. }
  assert (T2 : truthy (strip raw) = true).
  { rewrite PyFacts.strip_lower in Hn.
    destruct (strip raw); [exfalso; apply Hn; reflexivity | reflexivity]. }
  split; [exact T1|]. split; [exact T2|].
  unfold Attached.process_name. rewrite PyFacts.normalize_stripped.
  rewrite Hp. apply Nat.eqb_neq in Hl. rewrite Hl. reflexivity.
Qed.

Lemma attached_address_in_view lib row fr lr s z p :
  Attached.col_first_name row = Some fr -> Attached.col_last_name row = Some lr ->
  Attached.col_state row = Some s -> Attached.col_zip row = Some z ->
  attached_name_ok fr = true -> attached_name_ok lr = true ->
  List.length (upper (strip s)) = 2%nat -> Spec.postal_rule z = Some p ->
  In (Attached.AddressInfo (sha256_hex (Spec.normalized fr))
                           (sha256_hex (Spec.normalized lr)) (lit "US") p)
     (attached_row_identifiers lib row).
Proof.
  intros Ef El Es Ez Rf Rl Hs Rp.
  unfold attached_row_identifiers, Attached.build_identifiers.
  rewrite Ef, El, Es, Ez.
  destruct (attached_name_accepted fr Rf) as (Tf & Tsf & Pf).
  destruct (attached_name_accepted lr Rl) as (Tl & Tsl & Pl).
  assert (En : Attached.process_names (strip_or_none (Some fr)) (strip_or_none (Some lr))
               = (Some (sha256_hex (Spec.normalized fr)),
                  Some (sha256_hex (Spec.normalized lr)), false)).
  { unfold strip_or_none. rewrite Tf, Tl. unfold Attached.process_names.
    rewrite Tsf, Tsl. cbn [negb orb]. rewrite Pf, Pl. reflexivity. }
  rewrite En.
  assert (Ec : Attached.country_code_to_use (strip_or_none (Some s)) = Some (lit "US")).
  { apply attached_country_column. split; [reflexivity|]. eauto. }
  rewrite Ec, (attached_postal_column (Some z)), Rp.
  rewrite !in_app_iff. right; right.
  unfold Attached.address_identifier.
  rewrite (postal_rule_truthy z p Rp). left. reflexivity.
Qed.

(** Attached pipeline: with the client initialised and its calls
    returning, a row whose two names hold no problem character and are
    not blank, whose trimmed state code has two characters once
    upper-cased and whose zip has five digits appends an operation with
    an address identifier made of the hashed names, country US and the
    first five digits. *)
Theorem attached_address_emitted lib client st row fr lr s z p :
  Attached.googleads_client st = true ->
  client (Attached.total_rows_processed st) = Attached.CallsReturn ->
  Attached.col_first_name row = Some fr -> Attached.col_last_name row = Some lr ->
  Attached.col_state row = Some s -> Attached.col_zip row = Some z ->
  attached_name_ok fr = true -> attached_name_ok lr = true ->
  List.length (upper (strip s)) = 2%nat -> Spec.postal_rule z = Some p ->
  exists op,
    Attached.processed_operations (Attached.process_customer_row lib client st row)
    = Attached.processed_operations st ++ [op]
    /\ In (Attached.AddressInfo (sha256_hex (Spec.normalized fr))
                                (sha256_hex (Spec.normalized lr)) (lit "US") p)
          (Attached.user_identifiers op).
Proof.
  intros Hc Hk Ef El Es Ez Rf Rl Hs Rp.
  apply (attached_row_appends lib client st row _ Hc Hk).
  apply (attached_address_in_view lib row fr lr s z p); assumption.
Qed.

Definition attached_jane_row : Attached.Row :=
  Attached.mkRow (Some (lit "C1")) (Some (lit "Jane")) (Some (lit "Doe"))
                 (Some (lit "guid")) (Some (lit "JANE.DOE@Example.com"))
                 (Some (lit "5551234567")) (Some (lit "98101-1"))
                 (Some (lit "WA")).

Lemma attached_address_emitted_witness :
  Attached.googleads_client (Attached.init true) = true
  /\ attached_name_ok (lit "Jane") = true /\ attached_name_ok (lit "Doe") = true
  /\ List.length (upper (strip (lit "WA"))) = 2%nat
  /\ Spec.postal_rule (lit "98101-1") = Some (lit "98101")
  /\ exists op,
       Attached.processed_operations
         (Attached.process_customer_row sample Attached.always_returns
            (Attached.init true) attached_jane_row)
       = Attached.processed_operations (Attached.init true) ++ [op]
       /\ In (Attached.AddressInfo (sha256_hex (Spec.normalized (lit "Jane")))
                                   (sha256_hex (Spec.normalized (lit "Doe")))
                                   (lit "US") (lit "98101"))
             (Attached.user_identifiers op).
Proof.
  assert (H0 : Attached.googleads_client (Attached.init true) = true) by reflexivity.
  assert (H1 : attached_name_ok (lit "Jane") = true) by reflexivity.
  assert (H2 : attached_name_ok (lit "Doe") = true) by reflexivity.
  assert (H3 : List.length (upper (strip (lit "WA"))) = 2%nat) by reflexivity.
  assert (H4 : Spec.postal_rule (lit "98101-1") = Some (lit "98101")) by reflexivity.
  split; [exact H0|]. split; [exact H1|]. split; [exact H2|].
  split; [exact H3|]. split; [exact H4|].
  exact (attached_address_emitted sample Attached.always_returns
           (Attached.init true) attached_jane_row (lit "Jane") (lit "Doe")
           (lit "WA") (lit "98101-1") (lit "98101")
           H0 eq_refl eq_refl eq_refl eq_refl eq_refl H1 H2 H3 H4).
Defined.
